(** * pyRdfa: execution context, term/CURIE management and profile reading

    A shallow embedding of [State.py] (class [ExecutionContext]) and
    [TermOrCurie.py] (classes [ProfileRead] and [TermOrCurie]) of pyRdfa,
    followed by the properties of the natural-language specification that
    were checked against it.

    Layout:
    - [PyStr]: the Python string operations and the two regular expressions
      the sources use;
    - [Rdf]: RDFLib terms and graphs, as far as the sources look at them;
    - [Dom]: the DOM node accessors the sources call;
    - [Runtime]: the mutable world (dictionary objects with identity, the
      class-level profile cache and stack, the module-level blank-node table,
      the warning sink) and the state-and-exception monad over it;
    - [Externals]: the library functions and constants that live outside
      the two files, as a class the embedding is parameterised by;
    - [Engine]: the embedding proper;
    - [Demo]: a small web of profile documents, to run the embedding;
    - the properties, each with the claim of the specification it settles;
    - further properties of the two files, read off the code (X1 to X27). *)

From Stdlib Require Import Ascii String List Bool Arith Lia.
From stdpp Require Import base option list gmap strings pretty.

Local Open Scope string_scope.
Local Open Scope list_scope.

Set Warnings "-register-all".

(* ===================================================================== *)
(** ** Python strings *)
(* ===================================================================== *)

Module PyStr.

(** [str.isspace] on one byte: space, TAB, LF, VT, FF, CR. *)
Definition is_space (c : ascii) : bool :=
  let n := nat_of_ascii c in
  Nat.eqb n 32 || (Nat.leb 9 n && Nat.leb n 13).

Definition is_upper (c : ascii) : bool :=
  let n := nat_of_ascii c in Nat.leb 65 n && Nat.leb n 90.

Definition is_lower (c : ascii) : bool :=
  let n := nat_of_ascii c in Nat.leb 97 n && Nat.leb n 122.

Definition is_digit (c : ascii) : bool :=
  let n := nat_of_ascii c in Nat.leb 48 n && Nat.leb n 57.

Definition is_alpha (c : ascii) : bool := is_upper c || is_lower c.

Definition is_alnum (c : ascii) : bool := is_alpha c || is_digit c.

Definition lower_char (c : ascii) : ascii :=
  if is_upper c then ascii_of_nat (nat_of_ascii c + 32) else c.

(** [s.lower()] *)
Fixpoint lower (s : string) : string :=
  match s with
  | EmptyString => EmptyString
  | String c s' => String (lower_char c) (lower s')
  end.

Fixpoint lstrip_chars (l : list ascii) : list ascii :=
  match l with
  | c :: l' => if is_space c then lstrip_chars l' else l
  | [] => []
  end.

(** [s.strip()] *)
Definition strip (s : string) : string :=
  string_of_list_ascii
    (rev (lstrip_chars (rev (lstrip_chars (list_ascii_of_string s))))).

Fixpoint split_chars (l cur : list ascii) : list (list ascii) :=
  match l with
  | [] => match cur with [] => [] | _ => [rev cur] end
  | c :: l' =>
      if is_space c
      then match cur with
           | [] => split_chars l' []
           | _ => rev cur :: split_chars l' []
           end
      else split_chars l' (c :: cur)
  end.

(** [s.split()]: split on runs of whitespace, no empty tokens. *)
Definition split (s : string) : list string :=
  map string_of_list_ascii (split_chars (list_ascii_of_string s) []).

(** [s.split(':', 1)]: [None] stands for the one-element answer (no colon
    in [s]), [Some (a, b)] for the two-element answer [[a, b]]. *)
Fixpoint split_colon (s : string) : option (string * string) :=
  match s with
  | EmptyString => None
  | String c s' =>
      if Ascii.eqb c ":" then Some (EmptyString, s')
      else match split_colon s' with
           | Some (a, b) => Some (String c a, b)
           | None => None
           end
  end.

(** [s.find(':') != -1] *)
Definition has_colon (s : string) : bool :=
  match split_colon s with Some _ => true | None => false end.

(** [s.find(p) == 0] *)
Definition startswith (p s : string) : bool := String.prefix p s.

(** [s[0]] and [s[-1]]; [None] where Python raises [IndexError]. *)
Definition first_char (s : string) : option ascii :=
  match s with EmptyString => None | String c _ => Some c end.

Fixpoint last_char (s : string) : option ascii :=
  match s with
  | EmptyString => None
  | String c EmptyString => Some c
  | String _ s' => last_char s'
  end.

(** [s[:-1]] *)
Fixpoint drop_last (s : string) : string :=
  match s with
  | EmptyString => EmptyString
  | String _ EmptyString => EmptyString
  | String c s' => String c (drop_last s')
  end.

(** [s[1:-1]] *)
Definition strip_brackets (s : string) : string :=
  match s with
  | EmptyString => EmptyString
  | String _ s' => drop_last s'
  end.

Definition of_char (c : ascii) : string := String c EmptyString.

(** Python compares byte strings lexicographically. *)
Definition ge (a b : string) : bool :=
  match String.compare a b with Lt => false | _ => true end.

Definition lt (a b : string) : bool := negb (ge a b).

Definition eqb (a b : string) : bool := String.eqb a b.

Definition is_empty (s : string) : bool :=
  match s with EmptyString => true | _ => false end.

Definition mem (x : string) (l : list string) : bool :=
  existsb (String.eqb x) l.

(** Characters of the class [[A-Za-z0-9._-]]. *)
Definition ncname_char (c : ascii) : bool :=
  is_alnum c || Ascii.eqb c "." || Ascii.eqb c "_" || Ascii.eqb c "-".

Fixpoint all_chars (p : ascii -> bool) (s : string) : bool :=
  match s with
  | EmptyString => true
  | String c s' => p c && all_chars p s'
  end.

(** [ncname_body s]: [s] is [[A-Za-z0-9._-]*] followed by the end of the
    string, where Python's [$] also accepts one final newline. *)
Fixpoint ncname_body (s : string) : bool :=
  match s with
  | EmptyString => true
  | String c s' =>
      (ncname_char c && ncname_body s')
      || (Ascii.eqb c "010" && is_empty s')
  end.

(** [ncname.match(s)] for [ncname = re.compile("^[A-Za-z][A-Za-z0-9._-]*$")] *)
Definition ncname_match (s : string) : bool :=
  match s with
  | EmptyString => false
  | String c s' => is_alpha c && ncname_body s'
  end.

Fixpoint drop_while (p : ascii -> bool) (s : string) : string :=
  match s with
  | EmptyString => EmptyString
  | String c s' => if p c then drop_while p s' else s
  end.

(** [xml_application_media_type.match(s) != None] for
    [re.compile("application/[a-zA-Z0-9]+\+xml")]; [match] anchors at the
    start only. The class cannot consume ['+'], so the greedy run is the
    only candidate. *)
Definition xml_application_media_type_match (s : string) : bool :=
  if String.prefix "application/" s then
    let rest := String.substring 12 (String.length s - 12) s in
    match rest with
    | EmptyString => false
    | String c _ =>
        is_alnum c && String.prefix "+xml" (drop_while is_alnum rest)
    end
  else false.

End PyStr.

(* ===================================================================== *)
(** ** RDFLib terms and graphs *)
(* ===================================================================== *)

Module Rdf.

(** [URIRef], [BNode] and [Literal] are subclasses of the Python string. A
    blank node made by [BNode()] is identified by the serial number of the
    call; RDFLib guarantees that each call gives a new identifier. *)
Inductive node : Type :=
| URIRef (s : string)
| BNode (id : nat)
| Literal (lex : string) (lang datatype : option string).

#[global] Instance node_eq_dec : EqDecision node.
Proof. solve_decision. Defined.

Definition triple : Type := node * node * node.

(** A graph in the iteration order of RDFLib. *)
Definition Graph : Type := list triple.

Definition node_eqb (a b : node) : bool := bool_decide (a = b).

(** [graph.objects(subject, predicate)]; [subject = None] matches all. *)
Definition objects (g : Graph) (subject : option node) (predicate : node)
  : list node :=
  omap (fun t : triple =>
          let '(s, p, o) := t in
          if node_eqb p predicate
             && match subject with Some s' => node_eqb s s' | None => true end
          then Some o else None) g.

(** [graph.subjects(predicate, object)] *)
Definition subjects (g : Graph) (predicate object : node) : list node :=
  omap (fun t : triple =>
          let '(s, p, o) := t in
          if node_eqb p predicate && node_eqb o object
          then Some s else None) g.

Definition isinstance_Literal (n : node) : bool :=
  match n with Literal _ _ _ => true | _ => false end.

Definition isinstance_BNode (n : node) : bool :=
  match n with BNode _ => true | _ => false end.

(** [frozenset(l)] followed by iteration: every element once. The order of
    first occurrence stands for the set's iteration order. *)
Fixpoint frozenset (l : list node) : list node :=
  match l with
  | [] => []
  | x :: l' => x :: List.filter (fun y => negb (node_eqb y x)) (frozenset l')
  end.

End Rdf.

(* ===================================================================== *)
(** ** DOM nodes *)
(* ===================================================================== *)

Module Dom.

Record Attr : Type := mkAttr {
  name : string;       (* qualified name, as written *)
  localName : string;  (* the part after the colon *)
  value : string
}.

Inductive Node : Type :=
| Element (tagName : string) (attributes : list Attr) (childNodes : list Node).

Definition attributes_of (n : Node) : list Attr :=
  match n with Element _ a _ => a end.

Definition find_attr (n : Node) (a : string) : option Attr :=
  List.find (fun x => String.eqb (name x) a) (attributes_of n).

Definition hasAttribute (n : Node) (a : string) : bool :=
  match find_attr n a with Some _ => true | None => false end.

(** [getAttribute] answers the empty string for an absent attribute. *)
Definition getAttribute (n : Node) (a : string) : string :=
  match find_attr n a with Some x => value x | None => "" end.

(** [node.getElementsByTagName(tag)]: the descendants with that tag name,
    in document order. *)
Fixpoint getElementsByTagName (n : Node) (tag : string) : list Node :=
  match n with
  | Element _ _ children =>
      (fix walk (l : list Node) : list Node :=
         match l with
         | [] => []
         | c :: l' =>
             (match c with
              | Element t _ _ => if String.eqb t tag then [c] else []
              end) ++ getElementsByTagName c tag ++ walk l'
         end) children
  end.

End Dom.

(* ===================================================================== *)
(** ** The mutable world and the monad over it *)
(* ===================================================================== *)

Module Runtime.

Inductive WarningKind : Type :=
| UnresolvablePrefix
| UnresolvableTerm
| IncorrectProfileDefinition
| IncorrectPrefixDefinition.

(** One call of [options.add_warning(txt, warning_type, context)]. *)
Record Warning : Type := mkWarning {
  w_txt : string;
  w_type : option WarningKind;
  w_context : option string
}.

(** The host languages the two files name. *)
Inductive HostLanguage : Type := rdfa_core | xhtml_rdfa | html_rdfa.

Record Options : Type := mkOptions {
  host_language : HostLanguage;
  warnings : list Warning
}.

Inductive Exception : Type :=
| FailedProfile (msg : string) (context : string) (http_code : option nat)
| AttributeError (what : string).

(** A Python dictionary object is a cell of the heap; its identity is the
    cell's address. Both term and prefix tables map strings to (subclasses
    of) strings. *)
Abbreviation dict := (gmap string string).

Record World : Type := mkWorld {
  heap : gmap nat dict;
  next_ref : nat;
  (* ProfileRead.profile_cache and ProfileRead.profile_stack *)
  profile_cache : gmap string (nat * nat);
  profile_stack : list string;
  (* _bnodes and the supply of BNode() *)
  _bnodes : gmap string nat;
  next_bnode : nat;
  (* the Options object shared by the contexts of one parse *)
  options : Options;
  (* the graph.bind(prefix, namespace) calls, latest first *)
  graph_bindings : list (string * string);
  (* what print wrote, latest first *)
  stdout : list string
}.

(** [_empty_bnode = BNode()] is the first blank node of the session. *)
Definition _empty_bnode : Rdf.node := Rdf.BNode 0.

(** The world when the module has just been loaded. *)
Definition initial_World (o : Options) : World :=
  {| heap := ∅; next_ref := 0;
     profile_cache := ∅; profile_stack := [];
     _bnodes := ∅; next_bnode := 1;
     options := o; graph_bindings := []; stdout := [] |}.

Inductive Outcome (A : Type) : Type :=
| Return (a : A)
| Raise (e : Exception).
Arguments Return {A} a.
Arguments Raise {A} e.

(** A computation changes the world and returns or raises; what it did to
    the world before raising stays done. *)
Definition M (A : Type) : Type := World -> Outcome A * World.

Definition ret {A} (a : A) : M A := fun w => (Return a, w).

Definition raise {A} (e : Exception) : M A := fun w => (Raise e, w).

Definition bind {A B} (c : M A) (k : A -> M B) : M B :=
  fun w =>
    match c w with
    | (Return a, w') => k a w'
    | (Raise e, w') => (Raise e, w')
    end.

Definition get : M World := fun w => (Return w, w).

Definition modify (f : World -> World) : M unit := fun w => (Return tt, f w).

(** [try: c  except: h] *)
Definition try_except {A} (c : M A) (h : Exception -> M A) : M A :=
  fun w =>
    match c w with
    | (Return a, w') => (Return a, w')
    | (Raise e, w') => h e w'
    end.

End Runtime.

Import Runtime.

Notation "'let*' x := c 'in' k" := (bind c (fun x => k))
  (at level 10, x pattern, c at level 100, k at level 200).

Module Store.

Definition set_heap (h : gmap nat dict) (n : nat) (w : World) : World :=
  {| heap := h; next_ref := n;
     profile_cache := profile_cache w; profile_stack := profile_stack w;
     _bnodes := _bnodes w; next_bnode := next_bnode w;
     options := options w; graph_bindings := graph_bindings w;
     stdout := stdout w |}.

Definition set_profile (c : gmap string (nat * nat)) (s : list string)
  (w : World) : World :=
  {| heap := heap w; next_ref := next_ref w;
     profile_cache := c; profile_stack := s;
     _bnodes := _bnodes w; next_bnode := next_bnode w;
     options := options w; graph_bindings := graph_bindings w;
     stdout := stdout w |}.

Definition set_bnodes (b : gmap string nat) (n : nat) (w : World) : World :=
  {| heap := heap w; next_ref := next_ref w;
     profile_cache := profile_cache w; profile_stack := profile_stack w;
     _bnodes := b; next_bnode := n;
     options := options w; graph_bindings := graph_bindings w;
     stdout := stdout w |}.

Definition set_options (o : Options) (w : World) : World :=
  {| heap := heap w; next_ref := next_ref w;
     profile_cache := profile_cache w; profile_stack := profile_stack w;
     _bnodes := _bnodes w; next_bnode := next_bnode w;
     options := o; graph_bindings := graph_bindings w;
     stdout := stdout w |}.

Definition set_io (g : list (string * string)) (out : list string)
  (w : World) : World :=
  {| heap := heap w; next_ref := next_ref w;
     profile_cache := profile_cache w; profile_stack := profile_stack w;
     _bnodes := _bnodes w; next_bnode := next_bnode w;
     options := options w; graph_bindings := g; stdout := out |}.

(** [{}]: a new, empty dictionary object. *)
Definition new_dict : M nat :=
  fun w => (Return (next_ref w),
            set_heap (<[next_ref w := ∅]> (heap w)) (S (next_ref w)) w).

(** The present content of the dictionary object [r]. *)
Definition content (w : World) (r : nat) : dict := default ∅ (heap w !! r).

Definition read_dict (r : nat) : M dict := fun w => (Return (content w r), w).

(** [d[k] = v] on the dictionary object [r]. *)
Definition setitem (r : nat) (k v : string) : M unit :=
  modify (fun w => set_heap (<[r := <[k := v]> (content w r)]> (heap w))
                            (next_ref w) w).

(** [for key in src : dst[key] = src[key]], with [src] a dictionary value
    read beforehand: the entries of [src] win. *)
Definition update_from (dst : nat) (src : dict) : M unit :=
  modify (fun w => set_heap (<[dst := src ∪ content w dst]> (heap w))
                            (next_ref w) w).

(** [options.add_warning(txt, warning_type, context)] *)
Definition add_warning (txt : string) (k : option WarningKind)
  (ctx : option string) : M unit :=
  modify (fun w =>
            set_options
              {| host_language := host_language (options w);
                 warnings := warnings (options w) ++ [mkWarning txt k ctx] |}
              w).

(** [graph.bind(prefix, namespace)] *)
Definition graph_bind (p ns : string) : M unit :=
  modify (fun w => set_io ((p, ns) :: graph_bindings w) (stdout w) w).

Definition print (s : string) : M unit :=
  modify (fun w => set_io (graph_bindings w) (s :: stdout w) w).

End Store.

(* ===================================================================== *)
(** ** What the two files import *)
(* ===================================================================== *)

(** What [CachedURIOpener(name, headers, CACHED_PROFILES_ID)] does: it
    returns an object with [content_type] and [data], or raises. *)
Inductive Opened : Type :=
| Content (content_type data : string)
| HTTPError (msg : string) (http_code : nat)
| RDFaError (msg : string)
| OtherError (value : string).

(** The library functions and constants used by [State.py] and
    [TermOrCurie.py] whose code is elsewhere ([urlparse], RDFLib,
    [pyRdfa.Utils], [pyRdfa.Options], [pyRdfa/__init__]). *)
Class Externals : Type := {
  (* urlparse.urlsplit(url)[0] and urlparse.urljoin(base, url) *)
  urlsplit_scheme : string -> string;
  urljoin : string -> string -> string;
  (* pyRdfa.Utils.quote_URI(uri, options): may add warnings *)
  quote_URI : string -> Options -> string * Options;
  (* pyRdfa.Utils.MediaTypes *)
  MediaTypes_turtle : string;
  MediaTypes_rdfxml : string;
  MediaTypes_nt : string;
  MediaTypes_xhtml : string;
  MediaTypes_html : string;
  MediaTypes_xml : string;
  CachedURIOpener : string -> Opened;
  (* Graph().parse(data, format=...): the graph, or the raised value *)
  parse_n3 : string -> string + Rdf.Graph;
  parse_rdfxml : string -> string + Rdf.Graph;
  parse_nt : string -> string + Rdf.Graph;
  (* pyRdfa(Options()).graph_from_source(data): a whole parse of another
     document, which may itself read profiles; [None] is Python's None *)
  graph_from_source : string -> M (option Rdf.Graph);
  (* pyRdfa.ns_rdfa, pyRdfa.rdfa_current_version, Options() *)
  ns_rdfa : string;
  rdfa_current_version : string;
  default_Options : Options;
  (* the identifier RDFLib gave the n-th BNode() *)
  BNode_label : nat -> string
}.

(* ===================================================================== *)
(** ** State.py and TermOrCurie.py *)
(* ===================================================================== *)

Definition XHTML_PREFIX : string := "xhv".
Definition XHTML_URI : string := "http://www.w3.org/1999/xhtml/vocab#".
Definition GRDDL_PROFILE : string := "http://www.w3.org/2003/g/data-view".
Definition RDFa_1_0_VERSION : string := "XHTML+RDFa 1.0".

Definition usual_schemes : list string :=
  ["doi"; "file"; "ftp"; "gopher"; "hdl"; "http"; "https"; "imap"; "isbn";
   "ldap"; "lsid"; "mailto"; "mms"; "mstp"; "news"; "nntp"; "prospero";
   "rsync"; "rtmp"; "rtsp"; "rtspu"; "sftp"; "shttp"; "sip"; "sips";
   "snews"; "stp"; "svn"; "svn+ssh"; "telnet"; "tel"; "urn"; "wais"].

(** [ExecutionContext._list] *)
Definition _list : list string :=
  ["profile"; "rel"; "rev"; "property"; "typeof"].

Inductive Strategy : Type := _URI_ | _CURIEorURI_ | _TERMorCURIEorAbsURI_.

(** [ExecutionContext._resource_type], once [__init__] has filled it. *)
Definition _resource_type : list (string * Strategy) :=
  [("href", _URI_); ("src", _URI_); ("profile", _URI_); ("vocab", _URI_);
   ("about", _CURIEorURI_); ("resource", _CURIEorURI_);
   ("rel", _TERMorCURIEorAbsURI_); ("rev", _TERMorCURIEorAbsURI_);
   ("datatype", _TERMorCURIEorAbsURI_); ("typeof", _TERMorCURIEorAbsURI_);
   ("property", _TERMorCURIEorAbsURI_)].

(** [d[key]] on a literal table; [None] where Python raises [KeyError]. *)
Fixpoint getitem {A} (d : list (string * A)) (key : string) : option A :=
  match d with
  | [] => None
  | (k, v) :: d' => if String.eqb k key then Some v else getitem d' key
  end.

(** An instance of [TermOrCurie]; [terms] and [ns] are dictionary objects. *)
Record TermOrCurie : Type := mkTermOrCurie {
  default_curie_uri : string;
  default_term_uri : option Rdf.node;
  terms : nat;
  ns : nat
}.

(** An instance of [ExecutionContext]. [__init__] sets [node],
    [rdfa_version] and [base] first, then builds [curie] (State.py names the
    attribute [curie], TermOrCurie.py reads it as [term_or_curie]: the class
    was renamed), then [lang] and [defaultNS]. [curie = None] is the
    instance before that attribute is set. [options] is in the world;
    [parsedBase[0]] is [urlsplit_scheme base]. *)
Record ExecutionContext : Type := mkExecutionContext {
  node : Dom.Node;
  rdfa_version : string;
  base : string;
  curie : option TermOrCurie;
  lang : option string;
  defaultNS : option string
}.

(** An instance of [ProfileRead]. *)
Record ProfileRead : Type := mkProfileRead {
  pr_terms : nat;
  pr_ns : nat;
  vocabulary : option Rdf.node
}.

(** What [getURI] returns: one value (possibly [None]) or a list. *)
Inductive URIs : Type :=
| One (r : option Rdf.node)
| Many (l : list Rdf.node).

Fixpoint mapM {A B} (f : A -> M B) (l : list A) : M (list B) :=
  match l with
  | [] => ret []
  | x :: l' => let* y := f x in let* ys := mapM f l' in ret (y :: ys)
  end.

Fixpoint foldM {A B} (f : A -> B -> M A) (a : A) (l : list B) : M A :=
  match l with
  | [] => ret a
  | x :: l' => let* a' := f a x in foldM f a' l'
  end.

Fixpoint forM_ {B} (f : B -> M unit) (l : list B) : M unit :=
  match l with
  | [] => ret tt
  | x :: l' => let* _ := f x in forM_ f l'
  end.

Definition when (b : bool) (c : M unit) : M unit := if b then c else ret tt.

Section Engine.

Context `{Ext : Externals}.

(** [str(n)] *)
Definition str (n : Rdf.node) : string :=
  match n with
  | Rdf.URIRef s => s
  | Rdf.BNode i => BNode_label i
  | Rdf.Literal s _ _ => s
  end.

(** Python's truth value of an optional RDFLib term: [None] and the empty
    string are false. *)
Definition truthy (r : option Rdf.node) : bool :=
  match r with
  | None => false
  | Some n => negb (PyStr.is_empty (str n))
  end.

Definition get_curie (self : ExecutionContext) : M TermOrCurie :=
  match curie self with
  | Some c => ret c
  | None => raise (AttributeError "curie")
  end.

(** *** TermOrCurie.CURIE_to_URI *)
Definition CURIE_to_URI (state : ExecutionContext) (self : TermOrCurie)
  (val : string) : M (option Rdf.node) :=
  if String.eqb val "" || String.eqb val ":" then ret None
  else
    match PyStr.split_colon val with
    | None => ret None
    | Some (p, reference) =>
        let prefix := if PyStr.ge (rdfa_version state) "1.1"
                      then PyStr.lower p else p in
        if match PyStr.first_char reference with
           | Some c => Ascii.eqb c ":"
           | None => false
           end
        then ret None
        else if Nat.eqb (String.length prefix) 0
        then ret (Some (Rdf.URIRef (default_curie_uri self +:+ reference)))
        else if String.eqb prefix "_"
        then
          if Nat.eqb (String.length reference) 0
          then ret (Some _empty_bnode)
          else
            let* w := get in
            match _bnodes w !! reference with
            | Some b => ret (Some (Rdf.BNode b))
            | None =>
                let* _ := modify (fun w =>
                  Store.set_bnodes (<[reference := next_bnode w]> (_bnodes w))
                                   (S (next_bnode w)) w) in
                ret (Some (Rdf.BNode (next_bnode w)))
            end
        else if PyStr.ncname_match prefix
        then
          let* d := Store.read_dict (ns self) in
          match d !! prefix with
          | Some n =>
              if Nat.eqb (String.length reference) 0
              then ret (Some (Rdf.URIRef n))
              else ret (Some (Rdf.URIRef (n +:+ reference)))
          | None => ret None
          end
        else ret None
    end.

(** *** TermOrCurie.term_to_URI *)
Definition term_to_URI (self : TermOrCurie) (term : string)
  : M (option Rdf.node) :=
  if Nat.eqb (String.length term) 0 then ret None
  else if PyStr.ncname_match term
  then
    let* d := Store.read_dict (terms self) in
    match d !! PyStr.lower term with
    | Some uri => ret (Some (Rdf.URIRef uri))
    | None =>
        match default_term_uri self with
        | Some v => ret (Some (Rdf.URIRef (str v +:+ term)))
        | None => ret None
        end
    end
  else ret None.

(** *** ExecutionContext._URI *)
Definition check_create_URIRef (uri : string) : M Rdf.node :=
  let val := PyStr.strip uri in
  let* _ := when (negb (PyStr.mem (urlsplit_scheme val) usual_schemes))
              (Store.add_warning
                 ("Unusual URI scheme used <" +:+ PyStr.strip val
                  +:+ ">; may that be a mistake?") None None) in
  ret (Rdf.URIRef val).

Definition _URI (self : ExecutionContext) (val : string)
  : M (option Rdf.node) :=
  if String.eqb val "" then ret (Some (Rdf.URIRef (base self)))
  else if String.eqb (urlsplit_scheme (base self)) ""
  then
    let key := urlsplit_scheme val in
    if String.eqb key ""
    then ret (Some (Rdf.URIRef (base self +:+ PyStr.strip val)))
    else let* u := check_create_URIRef val in ret (Some u)
  else
    let joined := urljoin (base self) val in
    match PyStr.last_char val, PyStr.last_char joined with
    | Some a, Some b =>
        if negb (Ascii.eqb a b)
        then let* u := check_create_URIRef (joined +:+ PyStr.of_char a) in
             ret (Some u)
        else let* u := check_create_URIRef joined in ret (Some u)
    | _, _ =>
        (* IndexError, caught by the bare except *)
        let* u := check_create_URIRef joined in ret (Some u)
    end.

(** *** ExecutionContext._CURIEorURI *)
Definition _CURIEorURI (self : ExecutionContext) (val0 : string)
  : M (option Rdf.node) :=
  if String.eqb val0 "" then ret (Some (Rdf.URIRef (base self)))
  else
    let bracket := match PyStr.first_char val0 with
                   | Some c => Ascii.eqb c "["
                   | None => false
                   end in
    if bracket && negb match PyStr.last_char val0 with
                       | Some c => Ascii.eqb c "]"
                       | None => false
                       end
    then
      let* _ := Store.add_warning ("Illegal CURIE: " +:+ val0)
                  (Some UnresolvablePrefix) None in
      ret None
    else
      let val := if bracket then PyStr.strip_brackets val0 else val0 in
      let safe_curie := bracket in
      if PyStr.ge (rdfa_version self) "1.1"
      then
        let* c := get_curie self in
        let* retval := CURIE_to_URI self c val in
        match retval with
        | None =>
            if safe_curie
            then
              let* _ := Store.add_warning
                ("Safe CURIE was used but value does not correspond to a defined CURIE: ["
                 +:+ val +:+ "]") (Some UnresolvablePrefix) None in
              ret None
            else _URI self val
        | Some r =>
            if negb (Rdf.isinstance_BNode r)
               && String.eqb (urlsplit_scheme (str r)) ""
            then ret (Some (Rdf.URIRef (base self +:+ str r)))
            else ret (Some r)
        end
      else
        if safe_curie
        then let* c := get_curie self in CURIE_to_URI self c val
        else _URI self val.

(** *** ExecutionContext._TERMorCURIEorAbsURI *)
Definition _TERMorCURIEorAbsURI (self : ExecutionContext) (val : string)
  : M (option Rdf.node) :=
  if String.eqb val "" then ret None
  else if PyStr.ncname_match val
  then
    let* c := get_curie self in
    let* retval := term_to_URI c val in
    if negb (truthy retval)
    then
      let* _ := Store.add_warning ("Unresolvable term: " +:+ val)
                  (Some UnresolvableTerm) None in
      ret None
    else ret retval
  else
    let* c := get_curie self in
    let* retval := CURIE_to_URI self c val in
    if truthy retval then ret retval
    else if PyStr.ge (rdfa_version self) "1.1"
    then
      let scheme := urlsplit_scheme val in
      if String.eqb scheme ""
      then
        let* _ := Store.add_warning
          ("Relative URI is not allowed in this position: [" +:+ val +:+ "]")
          (Some UnresolvablePrefix) None in
        ret None
      else
        let* _ := when (negb (PyStr.mem scheme usual_schemes))
                    (Store.add_warning
                       ("Unusual URI scheme used <" +:+ PyStr.strip val
                        +:+ ">; may that be a mistake?") None None) in
        ret (Some (Rdf.URIRef val))
    else
      let* _ := Store.print "here????" in
      let* _ := Store.add_warning
        ("CURIE was used but value does not correspond to a defined CURIE: "
         +:+ PyStr.strip val) (Some UnresolvablePrefix) None in
      ret None.

Definition run_strategy (f : Strategy) (self : ExecutionContext)
  (val : string) : M (option Rdf.node) :=
  match f with
  | _URI_ => _URI self val
  | _CURIEorURI_ => _CURIEorURI self val
  | _TERMorCURIEorAbsURI_ => _TERMorCURIEorAbsURI self val
  end.

(** *** ExecutionContext.getURI *)
Definition getURI (self : ExecutionContext) (attr : string) : M URIs :=
  if Dom.hasAttribute (node self) attr
  then
    let val := Dom.getAttribute (node self) attr in
    let func := match getitem _resource_type attr with
                | Some f => f
                | None => _URI_   (* KeyError, caught *)
                end in
    if PyStr.mem attr _list
    then
      let* resources := mapM (fun v => run_strategy func self (PyStr.strip v))
                             (PyStr.split val) in
      ret (Many (omap id resources))
    else
      let* r := run_strategy func self (PyStr.strip val) in
      ret (One r)
  else
    if PyStr.mem attr _list then ret (Many []) else ret (One None).

(** *** ProfileRead._get_graph *)
Definition could_not_be_dereferenced (name detail : string) : string :=
  "Profile document <" +:+ name +:+ "> could not be dereferenced ("
  +:+ detail +:+ ")".

(** [str(value)] of a caught exception. *)
Definition exception_value (e : Exception) : string :=
  match e with
  | FailedProfile msg _ _ => msg
  | AttributeError what => what
  end.

Definition _get_graph (name : string) : M (option Rdf.Graph) :=
  match CachedURIOpener name with
  | HTTPError msg code =>
      raise (FailedProfile (could_not_be_dereferenced name msg) name (Some code))
  | RDFaError msg =>
      raise (FailedProfile (could_not_be_dereferenced name msg) name None)
  | OtherError value =>
      raise (FailedProfile (could_not_be_dereferenced name value) name None)
  | Content content_type data =>
      if String.eqb content_type MediaTypes_turtle
      then match parse_n3 data with
           | inr g => ret (Some g)
           | inl value =>
               raise (FailedProfile
                        ("Could not parse Turtle content content at <" +:+ name
                         +:+ "> (" +:+ value +:+ ")") name None)
           end
      else if String.eqb content_type MediaTypes_rdfxml
      then match parse_rdfxml data with
           | inr g => ret (Some g)
           | inl value =>
               raise (FailedProfile
                        ("Could not parse RDF/XML content at <" +:+ name
                         +:+ "> (" +:+ value +:+ ")") name None)
           end
      else if String.eqb content_type MediaTypes_nt
      then match parse_nt data with
           | inr g => ret (Some g)
           | inl value =>
               raise (FailedProfile
                        ("Could not parse N-Triple content at <" +:+ name
                         +:+ "> (" +:+ value +:+ ")") name None)
           end
      else if PyStr.mem content_type
                [MediaTypes_xhtml; MediaTypes_html; MediaTypes_xml]
              || PyStr.xml_application_media_type_match content_type
      then try_except (graph_from_source data)
             (fun e =>
                raise (FailedProfile
                         ("Could not parse RDFa content at <" +:+ name
                          +:+ "> (" +:+ exception_value e +:+ ")") name None))
      else raise (FailedProfile
                    ("Unrecognized media type for the vocabulary file <"
                     +:+ name +:+ ">: '" +:+ content_type +:+ "'") name None)
  end.

(** [pyRdfa.Utils.quote_URI(uri, options)] on the options of the world. *)
Definition quote_URI_M (uri : string) : M string :=
  fun w => let '(q, o) := quote_URI uri (options w) in
           (Return q, Store.set_options o w).

(** *** ProfileRead._find_terms *)
Definition find_one (self : ProfileRead) (graph : Rdf.Graph)
  (prof term_or_prefix opposite_term_or_prefix : string) (term : Rdf.node)
  : M unit :=
  let warn txt := Store.add_warning txt (Some IncorrectProfileDefinition)
                                    (Some prof) in
  let e := term_or_prefix +:+ " '" +:+ str term +:+ "'" in
  let pred := Rdf.URIRef (ns_rdfa +:+ term_or_prefix) in
  if negb (Rdf.isinstance_Literal term)
  then warn ("Non Literal " +:+ e +:+ "; ignored")
  else if negb (PyStr.ncname_match (str term))
  then warn ("Non NCNAME " +:+ e +:+ "; ignored")
  else
    match Rdf.subjects graph pred term with
    | [subj] =>
        if negb (Nat.eqb (length (Rdf.objects graph (Some subj) pred)) 1)
        then warn ("Same subject is used for several " +:+ term_or_prefix
                   +:+ " definion (including '" +:+ str term +:+ "'); ignored")
        else
          let others := Rdf.objects graph (Some subj)
                          (Rdf.URIRef (ns_rdfa +:+ opposite_term_or_prefix)) in
          match List.last (map Some others) None with
          | Some pr =>
              warn ("Same subject is used for both " +:+ term_or_prefix
                    +:+ " and " +:+ opposite_term_or_prefix +:+ " ('"
                    +:+ str term +:+ "' and '" +:+ str pr +:+ "'); ignored")
          | None =>
              match Rdf.objects graph (Some subj)
                      (Rdf.URIRef (ns_rdfa +:+ "uri")) with
              | [] => warn ("No URI defined for " +:+ e +:+ "; ignored")
              | [uri] =>
                  if String.eqb term_or_prefix "term"
                  then Store.setitem (pr_terms self)
                         (PyStr.lower (str term)) (str uri)
                  else
                    let* q := quote_URI_M (str uri) in
                    Store.setitem (pr_ns self) (PyStr.lower (str term)) q
              | _ => warn ("More than one URIs defined for " +:+ e
                           +:+ "; ignored")
              end
          end
    | _ => warn ("The " +:+ e +:+ " is defined twice; ignored")
    end.

Definition _find_terms (self : ProfileRead) (graph : Rdf.Graph)
  (prof term_or_prefix : string) : M unit :=
  let opposite_term_or_prefix :=
    if String.eqb term_or_prefix "term" then "prefix" else "term" in
  forM_ (find_one self graph prof term_or_prefix opposite_term_or_prefix)
        (Rdf.frozenset
           (Rdf.objects graph None (Rdf.URIRef (ns_rdfa +:+ term_or_prefix)))).

(** *** ProfileRead.__init__ *)

(** [prof in ProfileRead.profile_stack] *)
Definition on_stack (prof : string) (w : World) : bool :=
  PyStr.mem prof (profile_stack w).

Definition stack_append (prof : string) : M unit :=
  modify (fun w => Store.set_profile (profile_cache w)
                     (profile_stack w ++ [prof]) w).

Definition stack_pop : M unit :=
  modify (fun w => Store.set_profile (profile_cache w)
                     (removelast (profile_stack w)) w).

Definition cache_store (prof : string) (v : nat * nat) : M unit :=
  modify (fun w => Store.set_profile (<[prof := v]> (profile_cache w))
                     (profile_stack w) w).

(** The body of [for profuriref in profs]. *)
Definition ProfileRead_step (self : ProfileRead) (profuriref : Rdf.node)
  : M ProfileRead :=
  let prof := str profuriref in
  if String.eqb prof GRDDL_PROFILE then ret self
  else
    let* w := get in
    if on_stack prof w then ret self
    else
      let* _ := stack_append prof in
      match profile_cache w !! prof with
      | Some (t, n) =>
          let self' := {| pr_terms := t; pr_ns := n;
                          vocabulary := vocabulary self |} in
          let* _ := stack_pop in
          ret self'
      | None =>
          let* graph := _get_graph prof in
          match graph with
          | None => ret self   (* continue: the stack is not popped *)
          | Some graph =>
              let voc_defs := Rdf.objects graph None
                                (Rdf.URIRef (ns_rdfa +:+ "vocabulary")) in
              let* self' :=
                match voc_defs with
                | [] => ret self
                | [v] => ret {| pr_terms := pr_terms self;
                                pr_ns := pr_ns self;
                                vocabulary := Some v |}
                | _ =>
                    let* _ := Store.add_warning
                      "Two or more default vocabulary URIs defined in the profile; ignored"
                      (Some IncorrectProfileDefinition) (Some prof) in
                    ret self
                end in
              let* _ := _find_terms self' graph prof "term" in
              let* _ := _find_terms self' graph prof "prefix" in
              let* _ := cache_store prof (pr_terms self', pr_ns self') in
              let* _ := stack_pop in
              ret self'
          end
      end.

Definition ProfileRead_init (state : ExecutionContext) : M ProfileRead :=
  let* t := Store.new_dict in
  let* n := Store.new_dict in
  let self := {| pr_terms := t; pr_ns := n; vocabulary := None |} in
  if PyStr.lt (rdfa_version state) "1.1" then ret self
  else
    let* r := getURI state "profile" in
    match r with
    | Many profs => foldM ProfileRead_step self (rev profs)
    | One _ => raise (AttributeError "reverse")
    end.

(** *** TermOrCurie.__init__ *)

(** [inherited_state.term_or_curie] *)
Definition get_term_or_curie (inherited_state : ExecutionContext)
  : M TermOrCurie :=
  match curie inherited_state with
  | Some c => ret c
  | None => raise (AttributeError "term_or_curie")
  end.

Definition warn_prefix (txt : string) : M unit :=
  Store.add_warning txt (Some IncorrectPrefixDefinition) None.

(** The body of the loop over [state.node.attributes]: the namespaces
    declared with the [xmlns:] syntax are written into [dict]. *)
Definition xmlns_step (state : ExecutionContext) (dict : nat)
  (attr : Dom.Attr) : M unit :=
  if PyStr.startswith "xmlns:" (Dom.name attr)
  then
    let prefix := Dom.localName attr in
    if negb (String.eqb prefix "")
    then
      if String.eqb prefix "_"
      then warn_prefix
             "The '_' local CURIE prefix is reserved for blank nodes, and cannot be changed"
      else if PyStr.has_colon prefix
      then warn_prefix "The character ':' is not valid in a CURIE Prefix"
      else
        let* uri := quote_URI_M (Dom.value attr) in
        let pr := if PyStr.ge (rdfa_version state) "1.1"
                  then PyStr.lower prefix else prefix in
        let* _ := Store.setitem dict pr uri in
        Store.graph_bind pr uri
    else ret tt
  else ret tt.

(** The loop [for i in range(0, len(pr_list), 2)] over the tokens of the
    [prefix] attribute [pr]; the value threaded through is
    [self.default_curie_uri]. *)
Fixpoint prefix_loop (pr : string) (dict : nat) (default_curie : string)
  (pr_list : list string) : M string :=
  match pr_list with
  | [] => ret default_curie
  | [prefix] =>
      let* _ := warn_prefix ("Missing URI in prefix declaration for '"
                             +:+ prefix +:+ "' (in '" +:+ pr +:+ "')") in
      ret default_curie   (* break *)
  | prefix :: value :: rest =>
      if negb match PyStr.last_char prefix with
              | Some c => Ascii.eqb c ":"
              | None => false
              end
      then
        let* _ := warn_prefix ("Invalid prefix declaration '" +:+ prefix
                               +:+ "' (in '" +:+ pr +:+ "')") in
        prefix_loop pr dict default_curie rest
      else
        let prefix := PyStr.drop_last prefix in
        let* uri := quote_URI_M value in
        if String.eqb prefix ""
        then prefix_loop pr dict uri rest
        else if String.eqb prefix "_"
        then
          let* _ := warn_prefix
            ("The '_' local CURIE prefix is reserved for blank nodes, and cannot be changed (in '"
             +:+ pr +:+ "')") in
          prefix_loop pr dict default_curie rest
        else if PyStr.ncname_match prefix
        then
          let real_prefix := PyStr.lower prefix in
          let* d := Store.read_dict dict in
          match d !! real_prefix with
          | None =>
              let* _ := Store.setitem dict real_prefix uri in
              let* _ := Store.graph_bind real_prefix uri in
              prefix_loop pr dict default_curie rest
          | Some _ => prefix_loop pr dict default_curie rest
          end
        else
          let* _ := warn_prefix
            ("Invalid prefix declaration (must be an NCNAME) '" +:+ prefix
             +:+ "' (in '" +:+ pr +:+ "')") in
          prefix_loop pr dict default_curie rest
  end.

(** The locally defined namespaces: [dict], filled from the profiles, then
    from [xmlns:], then from [@prefix]. Returns the dictionary object and
    the default CURIE URI. *)
Definition local_namespaces (state : ExecutionContext)
  (recursive_vocab : ProfileRead) (default_curie : string)
  : M (nat * string) :=
  let* dict := Store.new_dict in
  let* rns := Store.read_dict (pr_ns recursive_vocab) in
  let* _ := Store.update_from dict rns in
  let* _ := forM_ (xmlns_step state dict)
                  (Dom.attributes_of (node state)) in
  if PyStr.ge (rdfa_version state) "1.1"
     && Dom.hasAttribute (node state) "prefix"
  then
    let pr := Dom.getAttribute (node state) "prefix" in
    let* dc := prefix_loop pr dict default_curie
                 (PyStr.split (PyStr.strip pr)) in
    ret (dict, dc)
  else ret (dict, default_curie).

(** The default term URI of the new instance. *)
Definition settle_default_term_uri (state : ExecutionContext)
  (inherited : option TermOrCurie) (recursive_vocab : ProfileRead)
  : M (option Rdf.node) :=
  if PyStr.ge (rdfa_version state) "1.1"
  then
    let* _ := getURI state "vocab" in
    let d0 := match inherited with
              | None => None
              | Some i => default_term_uri i
              end in
    let d1 := if truthy (vocabulary recursive_vocab)
              then vocabulary recursive_vocab else d0 in
    let* def_term_uri := getURI state "vocab" in
    match def_term_uri with
    | One r => if truthy r then ret r else ret d1
    | Many _ => ret d1   (* not reached: "vocab" is not in [_list] *)
    end
  else ret None.

(** [self.terms] of the new instance. *)
Definition settle_terms (inherited : option TermOrCurie)
  (recursive_vocab : ProfileRead) : M nat :=
  let* rterms := Store.read_dict (pr_terms recursive_vocab) in
  match inherited with
  | None =>
      let* t := Store.new_dict in
      let* _ := Store.update_from t rterms in
      ret t
  | Some i =>
      if Nat.eqb (size rterms) 0
      then ret (terms i)
      else
        let* t := Store.new_dict in
        let* iterms := Store.read_dict (terms i) in
        let* _ := Store.update_from t iterms in
        let* _ := Store.update_from t rterms in
        ret t
  end.

(** [self.ns] of the new instance, from the local [dict]. *)
Definition settle_ns (inherited : option TermOrCurie) (dict : nat) : M nat :=
  let* fresh := Store.new_dict in
  let* d := Store.read_dict dict in
  match inherited with
  | Some i =>
      if Nat.eqb (size d) 0
      then ret (ns i)
      else
        let* ins := Store.read_dict (ns i) in
        let* _ := Store.update_from fresh ins in
        let* _ := Store.update_from fresh d in
        ret fresh
  | None => ret dict
  end.

Definition TermOrCurie_init (state : ExecutionContext)
  (inherited_state : option ExecutionContext) : M TermOrCurie :=
  let* inherited :=
    match inherited_state with
    | None => ret None
    | Some i => let* c := get_term_or_curie i in ret (Some c)
    end in
  let* dc0 :=
    match inherited with
    | None =>
        let* _ := Store.graph_bind XHTML_PREFIX XHTML_URI in ret XHTML_URI
    | Some i => ret (default_curie_uri i)
    end in
  let* recursive_vocab := ProfileRead_init state in
  let* dt := settle_default_term_uri state inherited recursive_vocab in
  let* t := settle_terms inherited recursive_vocab in
  let* (dict, dc) := local_namespaces state recursive_vocab dc0 in
  let* n := settle_ns inherited dict in
  ret {| default_curie_uri := dc; default_term_uri := dt;
         terms := t; ns := n |}.

(** *** ExecutionContext.__init__ *)

Definition is_html_family (h : HostLanguage) : bool :=
  match h with xhtml_rdfa | html_rdfa => true | rdfa_core => false end.

Definition is_rdfa_core (h : HostLanguage) : bool :=
  match h with rdfa_core => true | _ => false end.

(** "Settling the language tags": [self.lang] from the inherited language
    and the node. *)
Definition settle_lang (nd : Dom.Node) (inherited_lang : option string)
  : M (option string) :=
  let* w := get in
  if is_html_family (host_language (options w))
  then
    let lang := if Dom.hasAttribute nd "lang"
                then Some (PyStr.lower (Dom.getAttribute nd "lang"))
                else None in
    let xmllang := if Dom.hasAttribute nd "xml:lang"
                   then Some (PyStr.lower (Dom.getAttribute nd "xml:lang"))
                   else None in
    let result :=
      match xmllang, lang with
      | Some x, _ =>
          if negb (Nat.eqb (String.length x) 0) then Some x
          else inherited_lang
      | None, Some l =>
          if negb (Nat.eqb (String.length l) 0) then Some l
          else inherited_lang
      | None, None => inherited_lang
      end in
    match lang, xmllang with
    | Some l, Some x =>
        if negb (String.eqb l x)
        then
          let* _ := Store.add_warning
            ("Both xml:lang and lang used on an element with different values; xml:lang prevails. ("
             +:+ x +:+ " and " +:+ l +:+ ")") None None in
          ret result
        else ret result
    | _, _ => ret result
    end
  else
    if Dom.hasAttribute nd "xml:lang"
    then
      let l := PyStr.lower (Dom.getAttribute nd "xml:lang") in
      if Nat.eqb (String.length l) 0 then ret None else ret (Some l)
    else ret inherited_lang.

(** "Settling the base", the version and the options. [html] is
    [node.ownerDocument.documentElement]. The contexts of one parse share one
    [Options] object, which a root context installs and the others take from
    the inherited state: it is the [options] of the world. *)
Definition settle_base (nd html : Dom.Node)
  (inherited_state : option ExecutionContext) (base_arg : string)
  (options_arg : option Options) : M (string * string) :=
  match inherited_state with
  | Some i =>
      let* w := get in
      if is_rdfa_core (host_language (options w))
         && Dom.hasAttribute nd "xml:base"
      then ret (rdfa_version i, Dom.getAttribute nd "xml:base")
      else ret (rdfa_version i, base i)
  | None =>
      let version :=
        if Dom.hasAttribute html "version"
           && String.eqb RDFa_1_0_VERSION (Dom.getAttribute html "version")
        then rdfa_current_version else rdfa_current_version in
      let* _ := modify (Store.set_options
                          match options_arg with
                          | None => default_Options
                          | Some o => o
                          end) in
      let* w := get in
      let b0 :=
        if is_html_family (host_language (options w))
        then fold_left (fun b bases =>
                          if Dom.hasAttribute bases "href"
                          then Dom.getAttribute bases "href" else b)
                       (Dom.getElementsByTagName nd "base") ""
        else "" in
      let b1 := if is_rdfa_core (host_language (options w))
                   && Dom.hasAttribute nd "xml:base"
                then Dom.getAttribute nd "xml:base" else b0 in
      ret (version, if String.eqb b1 "" then base_arg else b1)
  end.

Definition ExecutionContext_init (nd html : Dom.Node)
  (inherited_state : option ExecutionContext) (base_arg : string)
  (options_arg : option Options) : M ExecutionContext :=
  let* (version, b) := settle_base nd html inherited_state base_arg
                          options_arg in
  let state := {| node := nd; rdfa_version := version; base := b;
                  curie := None; lang := None; defaultNS := None |} in
  let* c := TermOrCurie_init state inherited_state in
  let* l := settle_lang nd match inherited_state with
                           | Some i => lang i
                           | None => None
                           end in
  let dns :=
    if Dom.hasAttribute nd "xmlns" then Some (Dom.getAttribute nd "xmlns")
    else match inherited_state with
         | Some i => defaultNS i
         | None => None
         end in
  ret {| node := nd; rdfa_version := version; base := b;
         curie := Some c; lang := l; defaultNS := dns |}.

End Engine.

(* ===================================================================== *)
(** ** A small web, for running the embedding *)
(* ===================================================================== *)

Module Demo.

Definition scheme_char (c : ascii) : bool :=
  PyStr.is_alnum c || Ascii.eqb c "+" || Ascii.eqb c "-" || Ascii.eqb c ".".

(** A stand-in for [urlsplit(url)[0]]: what precedes the first colon, when
    it is made of scheme characters. *)
Definition scheme (url : string) : string :=
  match PyStr.split_colon url with
  | Some (p, _) =>
      if negb (PyStr.is_empty p) && PyStr.all_chars scheme_char p
      then PyStr.lower p else ""
  | None => ""
  end.

(** A stand-in for [urljoin]: an absolute reference is kept, a relative one
    is appended to the base. *)
Definition join (b url : string) : string :=
  if PyStr.is_empty (scheme url) then b +:+ url else url.

Definition rdfa : string := "http://www.w3.org/ns/rdfa#".

Definition plain (s : string) : Rdf.node := Rdf.Literal s None None.

(** A profile graph with one term definition. *)
Definition term_graph (subj : nat) (term uri : string) : Rdf.Graph :=
  [(Rdf.BNode subj, Rdf.URIRef (rdfa +:+ "term"), plain term);
   (Rdf.BNode subj, Rdf.URIRef (rdfa +:+ "uri"), plain uri)].

(** A profile graph with one prefix definition. *)
Definition prefix_graph (subj : nat) (prefix uri : string) : Rdf.Graph :=
  [(Rdf.BNode subj, Rdf.URIRef (rdfa +:+ "prefix"), plain prefix);
   (Rdf.BNode subj, Rdf.URIRef (rdfa +:+ "uri"), plain uri)].

Definition profile_A : string := "http://example.org/A".
Definition profile_B : string := "http://example.org/B".
Definition profile_V : string := "http://example.org/V".
Definition profile_gone : string := "http://example.org/gone".

Definition graph_A : Rdf.Graph := term_graph 101 "a" "http://example.org/A#a".
Definition graph_B : Rdf.Graph := term_graph 102 "b" "http://example.org/B#b".

(** Profile V declares a default vocabulary and nothing else. *)
Definition graph_V : Rdf.Graph :=
  [(Rdf.URIRef profile_V, Rdf.URIRef (rdfa +:+ "vocabulary"),
    Rdf.URIRef "http://example.org/voc#")].

Definition opener (name : string) : Opened :=
  if String.eqb name profile_A then Content "text/turtle" "A"
  else if String.eqb name profile_B then Content "text/turtle" "B"
  else if String.eqb name profile_V then Content "text/turtle" "V"
  else if String.eqb name profile_gone then HTTPError "Not Found" 404
  else OtherError "unknown host".

Definition turtle (data : string) : string + Rdf.Graph :=
  if String.eqb data "A" then inr graph_A
  else if String.eqb data "B" then inr graph_B
  else if String.eqb data "V" then inr graph_V
  else inl "bad syntax".

#[local] Instance externals : Externals := {|
  urlsplit_scheme := scheme;
  urljoin := join;
  quote_URI := fun uri o => (uri, o);
  MediaTypes_turtle := "text/turtle";
  MediaTypes_rdfxml := "application/rdf+xml";
  MediaTypes_nt := "text/plain";
  MediaTypes_xhtml := "application/xhtml+xml";
  MediaTypes_html := "text/html";
  MediaTypes_xml := "application/xml";
  CachedURIOpener := opener;
  parse_n3 := turtle;
  parse_rdfxml := fun _ => inl "not RDF/XML";
  parse_nt := fun _ => inl "not N-Triples";
  graph_from_source := fun _ => ret (Some []);
  ns_rdfa := rdfa;
  rdfa_current_version := "1.1";
  default_Options := {| host_language := rdfa_core; warnings := [] |};
  BNode_label := fun n => "N" +:+ pretty n
|}.

Definition attr (n v : string) : Dom.Attr :=
  {| Dom.name := n;
     Dom.localName := match PyStr.split_colon n with
                      | Some (_, l) => l
                      | None => n
                      end;
     Dom.value := v |}.

Definition element (attrs : list Dom.Attr) : Dom.Node :=
  Dom.Element "div" attrs [].

Definition world0 (h : HostLanguage) : World :=
  initial_World {| host_language := h; warnings := [] |}.

(** The context of a document root without attributes, and the world after
    building it. *)
Definition root_run (h : HostLanguage) : Outcome ExecutionContext * World :=
  ExecutionContext_init (element []) (element []) None "http://example.org/doc"
    (Some {| host_language := h; warnings := [] |}) (world0 h).

(** The context of a child of [parent] with the attributes [attrs]. *)
Definition child (parent : ExecutionContext) (attrs : list Dom.Attr)
  : M ExecutionContext :=
  ExecutionContext_init (element attrs) (element []) (Some parent) "" None.

(** Two children of the root, one after the other. *)
Definition two_children (h : HostLanguage) (attrs1 attrs2 : list Dom.Attr)
  : M (ExecutionContext * ExecutionContext) :=
  let* root := ExecutionContext_init (element []) (element []) None
                 "http://example.org/doc"
                 (Some {| host_language := h; warnings := [] |}) in
  let* c1 := child root attrs1 in
  let* c2 := child root attrs2 in
  ret (c1, c2).

(** The term table and the prefix table of a context, as dictionaries. *)
Definition tables (w : World) (c : ExecutionContext) : dict * dict :=
  match curie c with
  | Some t => (Store.content w (terms t), Store.content w (ns t))
  | None => (∅, ∅)
  end.

(** What a run returned, with a default for a run that raised. *)
Definition value_of {A} (d : A) (run : Outcome A * World) : A :=
  match fst run with Return a => a | Raise _ => d end.

Definition no_TermOrCurie : TermOrCurie :=
  {| default_curie_uri := ""; default_term_uri := None; terms := 0; ns := 0 |}.

Definition no_context : ExecutionContext :=
  {| node := element []; rdfa_version := ""; base := ""; curie := None;
     lang := None; defaultNS := None |}.

Definition curie_of (c : ExecutionContext) : TermOrCurie :=
  match curie c with Some t => t | None => no_TermOrCurie end.

(** A document root and one child with the attributes [attrs]. *)
Definition parent_run (h : HostLanguage) (attrs : list Dom.Attr)
  : Outcome ExecutionContext * World :=
  (let* root := ExecutionContext_init (element []) (element []) None
                  "http://example.org/doc"
                  (Some {| host_language := h; warnings := [] |}) in
   child root attrs) (world0 h).

(** A context whose language is English, in a generic XML document. *)
Definition english_run : Outcome ExecutionContext * World :=
  parent_run rdfa_core [attr "xml:lang" "en"].
Definition english : ExecutionContext := value_of no_context english_run.
Definition english_world : World := snd english_run.

(** The same context, had the document been read as RDFa 1.0. *)
Definition english_1_0 : ExecutionContext :=
  {| node := node english; rdfa_version := "1.0"; base := base english;
     curie := curie english; lang := lang english;
     defaultNS := defaultNS english |}.

(** A context that has read profile A, and the world after that. *)
Definition profiled_run : Outcome ExecutionContext * World :=
  parent_run rdfa_core [attr "profile" profile_A].
Definition profiled : ExecutionContext := value_of no_context profiled_run.
Definition profiled_world : World := snd profiled_run.

(** A node that declares the prefix [ex] twice, with [xmlns:] and with
    [@prefix], and [ex2] twice with [@prefix]. *)
Definition twice_declared : list Dom.Attr :=
  [attr "xmlns:ex" "http://a.example/";
   attr "prefix" "ex: http://b.example/ ex2: http://c.example/ ex2: http://d.example/"].

(** The state handed to [TermOrCurie.__init__] for a node with the
    attributes [attrs]. *)
Definition partial_state (attrs : list Dom.Attr) : ExecutionContext :=
  {| node := element attrs; rdfa_version := "1.1";
     base := "http://example.org/doc"; curie := None; lang := None;
     defaultNS := None |}.

Definition twice_declared_run : Outcome TermOrCurie * World :=
  TermOrCurie_init (partial_state twice_declared) None (world0 rdfa_core).

End Demo.

(* ===================================================================== *)
(** ** Predicates used in the statements *)
(* ===================================================================== *)

(** What became of fetching and decoding a profile document. *)
Inductive DocumentStatus : Type :=
| Unreachable | Undecodable | Unrecognized | Decoded.

(** The world in which the document of [prof] is fetched: [prof] has been
    put on the stack. *)
Definition pushed (prof : string) (w : World) : World :=
  Store.set_profile (profile_cache w) (profile_stack w ++ [prof]) w.

(** Every named blank node of the table was made by [BNode()] after
    [_empty_bnode] and before the next one to come. *)
Definition bnodes_wf (w : World) : Prop :=
  0 < next_bnode w
  /\ forall x b, _bnodes w !! x = Some b -> 0 < b < next_bnode w.

(** [w'] is a later world of the session of [w]: the blank-node table has
    kept its entries. *)
Definition bnodes_kept (w w' : World) : Prop :=
  forall x b, _bnodes w !! x = Some b -> _bnodes w' !! x = Some b.

(** The warning of State.py for [lang] and [xml:lang] that differ. *)
Definition lang_warning (x l : string) : Warning :=
  mkWarning
    ("Both xml:lang and lang used on an element with different values; xml:lang prevails. ("
     +:+ x +:+ " and " +:+ l +:+ ")") None None.

(* ===================================================================== *)
(** ** Properties *)
(* ===================================================================== *)

Section Properties.

Context `{Ext : Externals}.

(** The status of the profile document [name], read off the collaborators:
    the retrieval, the decoder chosen by the content type, and, for markup
    content, the nested parse run in the world [w]. *)
Definition document_status (name : string) (w : World) : DocumentStatus :=
  match CachedURIOpener name with
  | Content content_type data =>
      if String.eqb content_type MediaTypes_turtle
      then match parse_n3 data with inr _ => Decoded | inl _ => Undecodable end
      else if String.eqb content_type MediaTypes_rdfxml
      then match parse_rdfxml data with
           | inr _ => Decoded
           | inl _ => Undecodable
           end
      else if String.eqb content_type MediaTypes_nt
      then match parse_nt data with inr _ => Decoded | inl _ => Undecodable end
      else if PyStr.mem content_type
                [MediaTypes_xhtml; MediaTypes_html; MediaTypes_xml]
              || PyStr.xml_application_media_type_match content_type
      then match fst (graph_from_source data w) with
           | Return _ => Decoded
           | Raise _ => Undecodable
           end
      else Unrecognized
  | _ => Unreachable
  end.

(** *** The monad *)

Lemma bind_Return {A B} (c : M A) (k : A -> M B) w a w' :
  c w = (Return a, w') -> bind c k w = k a w'.
Proof. unfold bind. now intros ->. Qed.

Lemma bind_Raise {A B} (c : M A) (k : A -> M B) w e w' :
  c w = (Raise e, w') -> bind c k w = (Raise e, w').
Proof. unfold bind. now intros ->. Qed.

Lemma bind_ret {A B} (a : A) (k : A -> M B) w : bind (ret a) k w = k a w.
Proof. reflexivity. Qed.

Lemma bind_inv {A B} (c : M A) (k : A -> M B) w b w' :
  bind c k w = (Return b, w') ->
  exists a w1, c w = (Return a, w1) /\ k a w1 = (Return b, w').
Proof.
  unfold bind. destruct (c w) as [[a|e] w1]; [eauto|discriminate].
Qed.

(** *** The GRDDL profile *)

Lemma step_GRDDL (self : ProfileRead) (p : Rdf.node) (w : World) :
  str p = GRDDL_PROFILE -> ProfileRead_step self p w = (Return self, w).
Proof.
  intros H. unfold ProfileRead_step. rewrite H, String.eqb_refl. reflexivity.
Qed.

(** C10. A profile URI equal to the GRDDL profile URI is skipped: the loop
    body returns the instance and the world as they were (nothing fetched,
    nothing put on the stack or in the cache, no binding added), so reading a
    profile list gives what reading it without its GRDDL entries gives. *)
Theorem C10_GRDDL_profile_is_skipped
  (self : ProfileRead) (profs : list Rdf.node) (w : World) :
  ProfileRead_step self (Rdf.URIRef GRDDL_PROFILE) w = (Return self, w)
  /\ foldM ProfileRead_step self profs w
     = foldM ProfileRead_step self
         (List.filter (fun p => negb (String.eqb (str p) GRDDL_PROFILE)) profs)
         w.
Proof.
  split; [now apply step_GRDDL|].
  revert self w.
  induction profs as [|p profs IH]; intros self w; [reflexivity|].
  simpl. destruct (String.eqb (str p) GRDDL_PROFILE) eqn:E; simpl.
  - apply String.eqb_eq in E.
    rewrite (bind_Return _ _ _ _ _ (step_GRDDL self p w E)). apply IH.
  - unfold bind.
    destruct (ProfileRead_step self p w) as [[a|e] w'];
      [apply IH|reflexivity].
Qed.

(** *** getURI *)

Lemma mem_list_in_table (attr : string) :
  PyStr.mem attr _list = true -> getitem _resource_type attr <> None.
Proof.
  unfold PyStr.mem, _list. simpl. intros H.
  repeat (apply orb_prop in H; destruct H as [H|H];
          [apply String.eqb_eq in H; subst attr; discriminate|]).
  discriminate.
Qed.

Lemma check_create_URIRef_returns (uri : string) (w : World) :
  exists w',
    check_create_URIRef uri w = (Return (Rdf.URIRef (PyStr.strip uri)), w').
Proof.
  unfold check_create_URIRef, bind, when, ret.
  destruct (negb _); simpl; eauto.
Qed.

Lemma _URI_returns (self : ExecutionContext) (val : string) (w : World) :
  exists u w', _URI self val w = (Return (Some (Rdf.URIRef u)), w').
Proof.
  unfold _URI.
  destruct (String.eqb val ""); [unfold ret; eauto|].
  destruct (String.eqb (urlsplit_scheme (base self)) "").
  - destruct (String.eqb (urlsplit_scheme val) ""); [unfold ret; eauto|].
    unfold bind. destruct (check_create_URIRef_returns val w) as [w' ->].
    unfold ret; eauto.
  - destruct (PyStr.last_char val) as [a|],
      (PyStr.last_char (urljoin (base self) val)) as [b|];
      try destruct (negb (Ascii.eqb a b)); unfold bind;
      match goal with |- context [check_create_URIRef ?x w] =>
        destruct (check_create_URIRef_returns x w) as [w' ->] end;
      unfold ret; eauto.
Qed.

(** An attribute outside [_list] gets one value, never a list. *)
Lemma getURI_scalar (self : ExecutionContext) (attr : string) (w : World) l w' :
  PyStr.mem attr _list = false -> getURI self attr w <> (Return (Many l), w').
Proof.
  intros Hl. unfold getURI. rewrite Hl.
  destruct (Dom.hasAttribute (node self) attr); [|discriminate].
  unfold bind.
  destruct (run_strategy _ self _ w) as [[r|e] w1]; discriminate.
Qed.


(** *** Profile failures and cycles *)

Lemma _get_graph_fails (name : string) (w : World) :
  document_status name w <> Decoded ->
  exists msg code w',
    _get_graph name w = (Raise (FailedProfile msg name code), w').
Proof.
  unfold document_status, _get_graph.
  destruct (CachedURIOpener name) as [ct data| | |]; intros H;
    [|unfold raise; eauto ..].
  destruct (String.eqb ct MediaTypes_turtle).
  { destruct (parse_n3 data); [unfold raise; eauto|congruence]. }
  destruct (String.eqb ct MediaTypes_rdfxml).
  { destruct (parse_rdfxml data); [unfold raise; eauto|congruence]. }
  destruct (String.eqb ct MediaTypes_nt).
  { destruct (parse_nt data); [unfold raise; eauto|congruence]. }
  destruct (_ || _); [|unfold raise; eauto].
  unfold try_except.
  destruct (graph_from_source data w) as [[g|e] w']; simpl in H;
    [congruence|unfold raise; eauto].
Qed.

(** Whatever [_get_graph] raises is a [FailedProfile] for that URI. *)
Lemma _get_graph_raises_only_FailedProfile (name : string) (w : World) e w' :
  _get_graph name w = (Raise e, w') ->
  exists msg code, e = FailedProfile msg name code.
Proof.
  unfold _get_graph.
  destruct (CachedURIOpener name) as [ct data| | |];
    [|unfold raise; intros [= <- <-]; eauto ..].
  destruct (String.eqb ct MediaTypes_turtle).
  { destruct (parse_n3 data); unfold raise, ret; intros [= <- <-]; eauto. }
  destruct (String.eqb ct MediaTypes_rdfxml).
  { destruct (parse_rdfxml data); unfold raise, ret; intros [= <- <-]; eauto. }
  destruct (String.eqb ct MediaTypes_nt).
  { destruct (parse_nt data); unfold raise, ret; intros [= <- <-]; eauto. }
  destruct (_ || _); [|unfold raise; intros [= <- <-]; eauto].
  unfold try_except.
  destruct (graph_from_source data w) as [[g|e0] w0];
    unfold raise; intros [= <- <-]; eauto.
Qed.

Lemma step_on_stack (self : ProfileRead) (p : Rdf.node) (w : World) :
  on_stack (str p) w = true -> ProfileRead_step self p w = (Return self, w).
Proof.
  intros H. unfold ProfileRead_step.
  destruct (String.eqb (str p) GRDDL_PROFILE); [reflexivity|].
  unfold bind, get. simpl. rewrite H. reflexivity.
Qed.

Lemma step_fetch_fails (self : ProfileRead) (p : Rdf.node) (w : World) :
  String.eqb (str p) GRDDL_PROFILE = false ->
  on_stack (str p) w = false ->
  profile_cache w !! str p = None ->
  document_status (str p) (pushed (str p) w) <> Decoded ->
  exists msg code w',
    ProfileRead_step self p w = (Raise (FailedProfile msg (str p) code), w').
Proof.
  intros Hg Hs Hc Hd. unfold ProfileRead_step. rewrite Hg.
  unfold bind at 1. unfold get. rewrite Hs.
  unfold bind at 1. unfold stack_append, modify. rewrite Hc.
  unfold bind at 1. fold (pushed (str p) w).
  destruct (_get_graph_fails _ _ Hd) as (msg & code & w' & ->). eauto.
Qed.

(** An exception of [ProfileRead] leaves [TermOrCurie.__init__] as it is. *)
Lemma ProfileRead_failure_aborts_TermOrCurie_init
  (state inh : ExecutionContext) (c : TermOrCurie) (w w' : World) e :
  curie inh = Some c ->
  ProfileRead_init state w = (Raise e, w') ->
  TermOrCurie_init state (Some inh) w = (Raise e, w').
Proof.
  intros Hc H. unfold TermOrCurie_init, get_term_or_curie. rewrite Hc.
  unfold bind at 1 2. unfold ret at 1 2. cbn beta iota.
  rewrite bind_ret. now rewrite (bind_Raise _ _ _ _ _ H).
Qed.


(** *** Term, CURIE or absolute URI *)

(** C3. For a value that is not empty, not NCNAME-shaped, and for which
    [CURIE_to_URI] gives nothing: under a version of at least "1.1" the
    value itself is returned as a URI reference when [urlsplit] finds a
    scheme, and [None] is returned with an [UnresolvablePrefix] warning when
    it finds none; under a version below "1.1" the answer is always [None]
    with an [UnresolvablePrefix] warning. *)
Theorem C3_unresolved_CURIE_falls_back_to_absolute_URI_only_in_1_1
  (self : ExecutionContext) (c : TermOrCurie) (val : string)
  (w w1 : World) (r : option Rdf.node) :
  curie self = Some c ->
  val <> "" ->
  PyStr.ncname_match val = false ->
  CURIE_to_URI self c val w = (Return r, w1) ->
  truthy r = false ->
  let out := _TERMorCURIEorAbsURI self val w in
  (PyStr.ge (rdfa_version self) "1.1" = true ->
   (urlsplit_scheme val <> "" -> fst out = Return (Some (Rdf.URIRef val)))
   /\ (urlsplit_scheme val = "" ->
       fst out = Return None
       /\ warnings (options (snd out))
          = warnings (options w1)
            ++ [mkWarning ("Relative URI is not allowed in this position: ["
                           +:+ val +:+ "]") (Some UnresolvablePrefix) None]))
  /\ (PyStr.ge (rdfa_version self) "1.1" = false ->
      fst out = Return None
      /\ warnings (options (snd out))
         = warnings (options w1)
           ++ [mkWarning
                 ("CURIE was used but value does not correspond to a defined CURIE: "
                  +:+ PyStr.strip val) (Some UnresolvablePrefix) None]).
Proof.
  intros Hc Hne Hnc Hcurie Hr out.
  assert (E : String.eqb val "" = false) by now apply String.eqb_neq.
  subst out. unfold _TERMorCURIEorAbsURI. rewrite E, Hnc.
  unfold get_curie. rewrite Hc, bind_ret, (bind_Return _ _ _ _ _ Hcurie), Hr.
  split.
  - intros ->. split.
    + intros Hs. apply String.eqb_neq in Hs. rewrite Hs.
      unfold bind, when. destruct (negb _); reflexivity.
    + intros Hs. rewrite Hs. simpl. split; reflexivity.
  - intros ->. simpl. split; reflexivity.
Qed.

(** *** The language of a context *)

(** The language of a new context is what [settle_lang] answers, and the
    construction ends with that step. *)
Lemma ExecutionContext_init_lang nd html inh base_arg options_arg w ctx w' :
  ExecutionContext_init nd html inh base_arg options_arg w = (Return ctx, w') ->
  exists w1,
    settle_lang nd match inh with Some i => lang i | None => None end w1
    = (Return (lang ctx), w').
Proof.
  unfold ExecutionContext_init. intros H.
  apply bind_inv in H as ([version b] & w0 & _ & H).
  apply bind_inv in H as (c & w1 & _ & H).
  apply bind_inv in H as (l & w2 & Hl & H).
  injection H as <- <-. exists w1. exact Hl.
Qed.

Lemma length_0_empty (s : string) :
  Nat.eqb (String.length s) 0 = true <-> s = "".
Proof. destruct s; simpl; split; congruence. Qed.

Lemma settle_lang_host nd inherited_lang w1 l w' :
  settle_lang nd inherited_lang w1 = (Return l, w') ->
  host_language (options w') = host_language (options w1).
Proof.
  unfold settle_lang, bind, get, ret, Store.add_warning, modify. intros H.
  repeat match type of H with
         | context [if ?b then _ else _] => destruct b
         end;
    simpl in H; injection H as _ <-; reflexivity.
Qed.


(** *** Blank nodes *)

Lemma CURIE_to_URI_bnode (state : ExecutionContext) (self : TermOrCurie)
  (x : string) (w : World) :
  x <> "" -> PyStr.first_char x <> Some ":"%char ->
  CURIE_to_URI state self ("_:" +:+ x) w
  = match _bnodes w !! x with
    | Some b => (Return (Some (Rdf.BNode b)), w)
    | None => (Return (Some (Rdf.BNode (next_bnode w))),
               Store.set_bnodes (<[x := next_bnode w]> (_bnodes w))
                                (S (next_bnode w)) w)
    end.
Proof.
  intros Hx Hc. unfold CURIE_to_URI.
  destruct x as [|c x]; [contradiction|].
  change ("_:" +:+ String c x) with (String "_" (String ":" (String c x))).
  simpl. destruct (PyStr.ge (rdfa_version state) "1.1"); simpl.
  all: destruct (Ascii.eqb c ":") eqn:E;
    [apply Ascii.eqb_eq in E; subst c; now contradiction Hc|].
  all: unfold bind, get; destruct (_bnodes w !! String c x); reflexivity.
Qed.

(** Every call of [CURIE_to_URI] keeps the table well formed and keeps its
    entries. *)
Lemma CURIE_to_URI_keeps (state : ExecutionContext) (self : TermOrCurie)
  (val : string) (w : World) :
  bnodes_wf w ->
  bnodes_wf (snd (CURIE_to_URI state self val w))
  /\ bnodes_kept w (snd (CURIE_to_URI state self val w)).
Proof.
  intros [Hpos Hwf]. unfold CURIE_to_URI.
  assert (Hsame : bnodes_wf w /\ bnodes_kept w w)
    by (split; [now split|now intros ? ?]).
  destruct (_ || _); [exact Hsame|].
  destruct (PyStr.split_colon val) as [[p reference]|]; [|exact Hsame].
  destruct (match PyStr.first_char reference with Some c => _ | None => _ end);
    [exact Hsame|].
  destruct (Nat.eqb (String.length _) 0); [exact Hsame|].
  destruct (String.eqb _ "_").
  - destruct (Nat.eqb (String.length reference) 0); [exact Hsame|].
    unfold bind, get.
    destruct (_bnodes w !! reference) eqn:E; [exact Hsame|]. simpl. split.
    + split; [simpl; lia|].
      intros x b. simpl. destruct (decide (reference = x)) as [->|Hn].
      * rewrite lookup_insert_eq. intros [= <-]. lia.
      * rewrite lookup_insert_ne by exact Hn. intros H.
        apply Hwf in H. lia.
    + intros x b H. simpl. destruct (decide (reference = x)) as [->|Hn];
        [congruence|now rewrite lookup_insert_ne].
  - destruct (PyStr.ncname_match _); [|exact Hsame].
    unfold bind, Store.read_dict. simpl.
    destruct (_ !! _); [destruct (Nat.eqb _ 0)|]; exact Hsame.
Qed.

Lemma initial_World_bnodes_wf (o : Options) : bnodes_wf (initial_World o).
Proof. split; [simpl; lia|]. intros x b. simpl. now rewrite lookup_empty. Qed.

(** C7. In a session whose blank-node table is well formed, for a local name
    [x] (not empty, not starting with a colon): [CURIE_to_URI("_:x")]
    returns a blank node [b] and has it in the table afterwards (the stored
    one when there was one, a new one otherwise); in every later world of
    the session, for any context, the call returns the same [b] and changes
    nothing. [CURIE_to_URI("_:")] always returns [_empty_bnode], and no
    blank node of the table is [_empty_bnode]. *)
Theorem C7_blank_nodes_are_stable_within_a_session
  (state state' : ExecutionContext) (self self' : TermOrCurie)
  (x : string) (w : World) :
  bnodes_wf w ->
  x <> "" -> PyStr.first_char x <> Some ":"%char ->
  exists b w1,
    CURIE_to_URI state self ("_:" +:+ x) w = (Return (Some (Rdf.BNode b)), w1)
    /\ bnodes_wf w1 /\ bnodes_kept w w1
    /\ _bnodes w1 !! x = Some b
    /\ (forall w2, bnodes_kept w1 w2 ->
        CURIE_to_URI state' self' ("_:" +:+ x) w2
        = (Return (Some (Rdf.BNode b)), w2))
    /\ (forall w2, CURIE_to_URI state' self' "_:" w2
                   = (Return (Some _empty_bnode), w2))
    /\ (forall y b', _bnodes w1 !! y = Some b' -> Rdf.BNode b' <> _empty_bnode).
Proof.
  intros Hwf Hx Hc.
  pose proof (CURIE_to_URI_keeps state self ("_:" +:+ x) w Hwf) as [Hwf1 Hk].
  pose proof (CURIE_to_URI_bnode state self x w Hx Hc) as E.
  assert (Hlater : forall b w1, _bnodes w1 !! x = Some b ->
            forall w2, bnodes_kept w1 w2 ->
            CURIE_to_URI state' self' ("_:" +:+ x) w2
            = (Return (Some (Rdf.BNode b)), w2)).
  { intros b w1 Hb w2 H12. rewrite (CURIE_to_URI_bnode state' self' x w2 Hx Hc).
    now rewrite (H12 _ _ Hb). }
  assert (Hempty : forall w2, CURIE_to_URI state' self' "_:" w2
                              = (Return (Some _empty_bnode), w2)).
  { intros w2. unfold CURIE_to_URI. simpl.
    destruct (PyStr.ge (rdfa_version state') "1.1"); reflexivity. }
  assert (Hdist : forall w1, bnodes_wf w1 -> forall y b',
            _bnodes w1 !! y = Some b' -> Rdf.BNode b' <> _empty_bnode).
  { intros w1 [_ H1] y b' Hy [= ->]. apply H1 in Hy. lia. }
  rewrite E in Hwf1, Hk. rewrite E.
  destruct (_bnodes w !! x) as [b|] eqn:Eb; eexists _, _;
    (split; [reflexivity|]); simpl in *.
  - refine (conj Hwf1 (conj Hk (conj Eb (conj _ (conj Hempty (Hdist _ Hwf1)))))).
    intros w2 H12. eapply Hlater; [exact Eb|exact H12].
  - assert (Hb : <[x:=next_bnode w]> (_bnodes w) !! x = Some (next_bnode w))
      by now rewrite lookup_insert_eq.
    refine (conj Hwf1 (conj Hk (conj Hb (conj _ (conj Hempty (Hdist _ Hwf1)))))).
    intros w2 H12. eapply Hlater; [|exact H12]. exact Hb.
Qed.

End Properties.

(* ===================================================================== *)
(** ** Invariants of the store *)
(* ===================================================================== *)

(** [preserves I c]: when [I] holds before [c], it holds after it, whether
    [c] returns or raises. *)
Definition preserves {A} (I : World -> Prop) (c : M A) : Prop :=
  forall w, I w -> I (snd (c w)).

(** [I] looks at the dictionary objects and the profile cache only. *)
Definition store_inv (I : World -> Prop) : Prop :=
  forall w w',
    heap w' = heap w -> next_ref w' = next_ref w ->
    profile_cache w' = profile_cache w -> I w -> I w'.

Create HintDb pres discriminated.

Section Preservation.
Context `{Ext : Externals}.

Lemma preserves_ret {A} I (a : A) : preserves I (ret a).
Proof. now intros w. Qed.

Lemma preserves_raise {A} I e : preserves I (@raise A e).
Proof. now intros w. Qed.

Lemma preserves_get I : preserves I get.
Proof. now intros w. Qed.

Lemma preserves_bind {A B} I (c : M A) (k : A -> M B) :
  preserves I c -> (forall a, preserves I (k a)) -> preserves I (bind c k).
Proof.
  intros Hc Hk w Hw. unfold bind. specialize (Hc w Hw).
  destruct (c w) as [[a|e] w1]; simpl in *; [now apply Hk|exact Hc].
Qed.

Lemma preserves_modify I f :
  (forall w, I w -> I (f w)) -> preserves I (modify f).
Proof. intros H w Hw. now apply H. Qed.

Lemma preserves_try_except {A} I (c : M A) h :
  preserves I c -> (forall e, preserves I (h e)) -> preserves I (try_except c h).
Proof.
  intros Hc Hh w Hw. unfold try_except. specialize (Hc w Hw).
  destruct (c w) as [[a|e] w1]; simpl in *; [exact Hc|now apply Hh].
Qed.

Lemma preserves_when I b c : preserves I c -> preserves I (when b c).
Proof. destruct b; [trivial|intros _; apply preserves_ret]. Qed.

Lemma preserves_mapM {A B} I (f : A -> M B) l :
  (forall a, preserves I (f a)) -> preserves I (mapM f l).
Proof.
  intros Hf. induction l as [|x l IH]; simpl; [apply preserves_ret|].
  apply preserves_bind; [apply Hf|]. intros y.
  apply preserves_bind; [apply IH|]. intros ys. apply preserves_ret.
Qed.

Lemma preserves_forM_ {B} I (f : B -> M unit) l :
  (forall a, preserves I (f a)) -> preserves I (forM_ f l).
Proof.
  intros Hf. induction l as [|x l IH]; simpl; [apply preserves_ret|].
  apply preserves_bind; [apply Hf|]. intros _. apply IH.
Qed.

(** One step of a preservation proof along the shape of the program. *)
Ltac pres_step :=
  lazymatch goal with
  | |- preserves _ (ret _) => apply preserves_ret
  | |- preserves _ (raise _) => apply preserves_raise
  | |- preserves _ get => apply preserves_get
  | |- preserves _ (when _ _) => apply preserves_when
  | |- preserves _ (bind _ _) => apply preserves_bind; [|intros ?]
  | |- preserves _ (try_except _ _) =>
      apply preserves_try_except; [|intros ?]
  | |- preserves _ (mapM _ _) => apply preserves_mapM; intros ?
  | |- preserves _ (forM_ _ _) => apply preserves_forM_; intros ?
  | |- preserves _ (if ?b then _ else _) => destruct b
  | |- preserves _ (match ?x with _ => _ end) => destruct x
  | |- preserves _ (let _ := _ in _) => cbv zeta
  end.

Ltac pres := repeat pres_step; eauto with pres.

Section StoreInv.
Variable I : World -> Prop.
Hypothesis HI : store_inv I.

Lemma add_warning_pres txt k ctx : preserves I (Store.add_warning txt k ctx).
Proof. apply preserves_modify. intros w. now apply HI. Qed.

Lemma print_pres s : preserves I (Store.print s).
Proof. apply preserves_modify. intros w. now apply HI. Qed.

Lemma graph_bind_pres p n : preserves I (Store.graph_bind p n).
Proof. apply preserves_modify. intros w. now apply HI. Qed.

Lemma read_dict_pres r : preserves I (Store.read_dict r).
Proof. now intros w. Qed.

Lemma quote_URI_M_pres uri : preserves I (quote_URI_M uri).
Proof.
  intros w Hw. unfold quote_URI_M.
  destruct (quote_URI uri (options w)) as [q o]. simpl. revert Hw. now apply HI.
Qed.

Lemma stack_append_pres p : preserves I (stack_append p).
Proof. apply preserves_modify. intros w. now apply HI. Qed.

Lemma stack_pop_pres : preserves I stack_pop.
Proof. apply preserves_modify. intros w. now apply HI. Qed.

#[local] Hint Resolve add_warning_pres print_pres graph_bind_pres
  read_dict_pres quote_URI_M_pres stack_append_pres stack_pop_pres : pres.

Lemma warn_prefix_pres txt : preserves I (warn_prefix txt).
Proof. apply add_warning_pres. Qed.

Lemma get_curie_pres self : preserves I (get_curie self).
Proof. unfold get_curie. pres. Qed.

Lemma CURIE_to_URI_pres state self val : preserves I (CURIE_to_URI state self val).
Proof.
  unfold CURIE_to_URI. pres.
  apply preserves_modify. intros w. now apply HI.
Qed.

Lemma term_to_URI_pres self term : preserves I (term_to_URI self term).
Proof. unfold term_to_URI. pres. Qed.

Lemma check_create_URIRef_pres uri : preserves I (check_create_URIRef uri).
Proof. unfold check_create_URIRef. pres. Qed.

#[local] Hint Resolve warn_prefix_pres get_curie_pres CURIE_to_URI_pres
  term_to_URI_pres check_create_URIRef_pres : pres.

Lemma _URI_pres self val : preserves I (_URI self val).
Proof. unfold _URI. pres. Qed.

#[local] Hint Resolve _URI_pres : pres.

Lemma _CURIEorURI_pres self val : preserves I (_CURIEorURI self val).
Proof. unfold _CURIEorURI. pres. Qed.

Lemma _TERMorCURIEorAbsURI_pres self val :
  preserves I (_TERMorCURIEorAbsURI self val).
Proof. unfold _TERMorCURIEorAbsURI. pres. Qed.

#[local] Hint Resolve _CURIEorURI_pres _TERMorCURIEorAbsURI_pres : pres.

Lemma getURI_pres self attr : preserves I (getURI self attr).
Proof. unfold getURI, run_strategy. pres. Qed.

End StoreInv.

#[local] Hint Resolve add_warning_pres print_pres graph_bind_pres
  read_dict_pres quote_URI_M_pres stack_append_pres stack_pop_pres
  warn_prefix_pres getURI_pres : pres.

(** [returns I c J]: [c] preserves [I], and what it returns satisfies [J]. *)
Definition returns {A} (I : World -> Prop) (c : M A) (J : A -> Prop) : Prop :=
  forall w, I w -> I (snd (c w)) /\ forall a, fst (c w) = Return a -> J a.

Lemma returns_preserves {A} I (c : M A) J : returns I c J -> preserves I c.
Proof. intros H w Hw. now apply H. Qed.

Lemma preserves_returns {A} I (c : M A) :
  preserves I c -> returns I c (fun _ => True).
Proof. intros H w Hw. split; [now apply H|trivial]. Qed.

Lemma returns_ret {A} I (a : A) (J : A -> Prop) : J a -> returns I (ret a) J.
Proof. intros Ha w Hw. split; [exact Hw|]. now intros a' [= <-]. Qed.

Lemma returns_raise {A} I e (J : A -> Prop) : returns I (raise e) J.
Proof. intros w Hw. split; [exact Hw|]. intros a. discriminate. Qed.

Lemma returns_bind {A B} I (c : M A) (k : A -> M B) J K :
  returns I c J -> (forall a, J a -> returns I (k a) K) ->
  returns I (bind c k) K.
Proof.
  intros Hc Hk w Hw. unfold bind. destruct (Hc w Hw) as [H1 H2].
  destruct (c w) as [[a|e] w1]; simpl in *.
  - apply Hk; [now apply H2|exact H1].
  - split; [exact H1|]. intros b. discriminate.
Qed.

Lemma preserves_bind_returns {A B} I (c : M A) (k : A -> M B) J :
  returns I c J -> (forall a, J a -> preserves I (k a)) ->
  preserves I (bind c k).
Proof.
  intros Hc Hk. eapply returns_preserves, returns_bind; [exact Hc|].
  intros a Ha. apply preserves_returns. now apply Hk.
Qed.

Lemma returns_weaken {A} I (c : M A) (J J' : A -> Prop) :
  returns I c J -> (forall a, J a -> J' a) -> returns I c J'.
Proof.
  intros H HJ w Hw. destruct (H w Hw) as [H1 H2]. split; [exact H1|].
  intros a Ha. now apply HJ, H2.
Qed.

Lemma returns_get I : returns I get I.
Proof. intros w Hw. split; [exact Hw|]. now intros a [= <-]. Qed.

Lemma returns_read_dict I r :
  returns I (Store.read_dict r) (fun d => exists w, I w /\ d = Store.content w r).
Proof. intros w Hw. split; [exact Hw|]. intros a [= <-]. eauto. Qed.

Lemma returns_new_dict I :
  (forall w, I w ->
     I (Store.set_heap (<[next_ref w := ∅]> (heap w)) (S (next_ref w)) w)) ->
  returns I Store.new_dict (fun a => exists w, I w /\ a = next_ref w).
Proof.
  intros H w Hw. split; [now apply H|]. intros a [= <-]. eauto.
Qed.

Lemma returns_foldM {A B} I (J : A -> Prop) (f : A -> B -> M A) l a :
  J a -> (forall a b, J a -> returns I (f a b) J) -> returns I (foldM f a l) J.
Proof.
  intros Ha Hf. revert a Ha.
  induction l as [|x l IH]; intros a Ha; simpl; [now apply returns_ret|].
  eapply returns_bind; [now apply Hf|]. intros a' Ha'. now apply IH.
Qed.

(** *** The frame of a dictionary object *)

(** The object [r] exists, has the content [h], and is not one of the
    dictionaries the profile cache holds. *)
Definition Frame (r : nat) (h : option dict) (w : World) : Prop :=
  r < next_ref w /\ heap w !! r = h
  /\ forall p t n, profile_cache w !! p = Some (t, n) -> t <> r /\ n <> r.

Lemma Frame_store_inv r h : store_inv (Frame r h).
Proof.
  intros w w' Hh Hn Hc (H1 & H2 & H3). unfold Frame.
  rewrite Hh, Hn, Hc. auto.
Qed.

Lemma Frame_new_dict r h :
  returns (Frame r h) Store.new_dict (fun a => r < a).
Proof.
  eapply returns_weaken.
  - apply returns_new_dict. intros w (H1 & H2 & H3). unfold Frame. simpl.
    split; [lia|]. split; [|exact H3].
    rewrite lookup_insert_ne by lia. exact H2.
  - intros a (w & (H1 & _) & ->). exact H1.
Qed.

Lemma Frame_setitem r h d k v :
  d <> r -> preserves (Frame r h) (Store.setitem d k v).
Proof.
  intros Hd. apply preserves_modify. intros w (H1 & H2 & H3).
  unfold Frame. simpl. split; [exact H1|]. split; [|exact H3].
  now rewrite lookup_insert_ne.
Qed.

Lemma Frame_update_from r h d src :
  d <> r -> preserves (Frame r h) (Store.update_from d src).
Proof.
  intros Hd. apply preserves_modify. intros w (H1 & H2 & H3).
  unfold Frame. simpl. split; [exact H1|]. split; [|exact H3].
  now rewrite lookup_insert_ne.
Qed.

Lemma Frame_cache_store r h prof t n :
  t <> r -> n <> r -> preserves (Frame r h) (cache_store prof (t, n)).
Proof.
  intros Ht Hn. apply preserves_modify. intros w (H1 & H2 & H3).
  unfold Frame. simpl. split; [exact H1|]. split; [exact H2|].
  intros p t' n'. destruct (decide (prof = p)) as [->|Hp].
  - rewrite lookup_insert_eq. intros [= <- <-]. auto.
  - rewrite lookup_insert_ne by exact Hp. apply H3.
Qed.

#[local] Hint Resolve Frame_store_inv : pres.

(** The nested parse of a profile document written in RDFa leaves alone the
    dictionary objects it has no reference to: it neither writes to them nor
    puts them in the profile cache. *)
Definition nested_parse_frame : Prop :=
  forall data r h, preserves (Frame r h) (graph_from_source data).

Section FrameProofs.
Variables (r : nat) (h : option dict).
Hypothesis Hnested : nested_parse_frame.

Local Abbreviation I := (Frame r h).

Lemma _get_graph_Frame name : preserves I (_get_graph name).
Proof. unfold _get_graph. pres. Qed.

Definition apart (self : ProfileRead) : Prop :=
  pr_terms self <> r /\ pr_ns self <> r.

Lemma find_one_Frame self graph prof tp otp term :
  apart self -> preserves I (find_one self graph prof tp otp term).
Proof.
  intros [Ht Hn]. unfold find_one. pres.
  - now apply Frame_setitem.
  - now apply Frame_setitem.
Qed.

Lemma _find_terms_Frame self graph prof tp :
  apart self -> preserves I (_find_terms self graph prof tp).
Proof.
  intros Ha. unfold _find_terms. pres. now apply find_one_Frame.
Qed.

Lemma ProfileRead_step_Frame self p :
  apart self -> returns I (ProfileRead_step self p) apart.
Proof.
  intros Ha. unfold ProfileRead_step.
  destruct (String.eqb (str p) GRDDL_PROFILE); [now apply returns_ret|].
  eapply returns_bind; [apply returns_get|]. intros w0 Hw0.
  destruct (on_stack (str p) w0); [now apply returns_ret|].
  eapply returns_bind; [apply preserves_returns; pres|]. intros _ _.
  destruct (profile_cache w0 !! str p) as [[t n]|] eqn:E.
  - eapply returns_bind; [apply preserves_returns; pres|]. intros _ _.
    apply returns_ret. destruct Hw0 as (_ & _ & H3).
    apply H3 in E. exact E.
  - eapply returns_bind; [apply preserves_returns, _get_graph_Frame|].
    intros [g|] _; [|now apply returns_ret].
    set (voc := Rdf.objects g None _).
    eapply returns_bind with (J := apart).
    { destruct voc as [|v [|v' voc]].
      - now apply returns_ret.
      - now apply returns_ret.
      - eapply returns_bind; [apply preserves_returns; pres|]. intros _ _.
        now apply returns_ret. }
    intros self' Ha'.
    eapply returns_bind; [apply preserves_returns, _find_terms_Frame, Ha'|].
    intros _ _.
    eapply returns_bind; [apply preserves_returns, _find_terms_Frame, Ha'|].
    intros _ _.
    eapply returns_bind.
    { apply preserves_returns, Frame_cache_store; apply Ha'. }
    intros _ _.
    eapply returns_bind; [apply preserves_returns; pres|]. intros _ _.
    now apply returns_ret.
Qed.

Lemma ProfileRead_init_Frame state :
  returns I (ProfileRead_init state) apart.
Proof.
  unfold ProfileRead_init.
  eapply returns_bind; [apply Frame_new_dict|]. intros t Ht.
  eapply returns_bind; [apply Frame_new_dict|]. intros n Hn.
  assert (Ha : apart {| pr_terms := t; pr_ns := n; vocabulary := None |})
    by (cbv beta in Ht, Hn; split; simpl; lia).
  destruct (PyStr.lt _ _); [now apply returns_ret|].
  eapply returns_bind; [apply preserves_returns; pres|]. intros [o|l] _.
  - apply returns_raise.
  - apply returns_foldM; [exact Ha|]. intros a b Hab.
    now apply ProfileRead_step_Frame.
Qed.


Lemma settle_default_term_uri_Frame state inherited rv :
  preserves I (settle_default_term_uri state inherited rv).
Proof. unfold settle_default_term_uri. pres. Qed.

Lemma settle_terms_Frame inherited rv : preserves I (settle_terms inherited rv).
Proof.
  unfold settle_terms. pres_step; [pres|].
  destruct inherited as [i|].
  - destruct (Nat.eqb _ 0); [pres|].
    eapply preserves_bind_returns; [apply Frame_new_dict|]. intros t Ht.
    cbv beta in Ht.
    pres; apply Frame_update_from; lia.
  - eapply preserves_bind_returns; [apply Frame_new_dict|]. intros t Ht.
    cbv beta in Ht.
    pres; apply Frame_update_from; lia.
Qed.

Lemma xmlns_step_Frame state dict a :
  dict <> r -> preserves I (xmlns_step state dict a).
Proof. intros Hd. unfold xmlns_step. pres. now apply Frame_setitem. Qed.

Lemma prefix_loop_Frame pr dict dc l :
  dict <> r -> preserves I (prefix_loop pr dict dc l).
Proof.
  intros Hd. remember (length l) as n eqn:En. revert l dc En.
  induction n as [n IH] using lt_wf_ind. intros l dc ->.
  destruct l as [|p [|v rest]]; simpl; [pres..|].
  assert (Hrest : forall dc', preserves I (prefix_loop pr dict dc' rest)).
  { intros dc'. eapply (IH (length rest)); [simpl; lia|reflexivity]. }
  pres. now apply Frame_setitem.
Qed.

Lemma local_namespaces_Frame state rv dc :
  preserves I (local_namespaces state rv dc).
Proof.
  unfold local_namespaces.
  eapply preserves_bind_returns; [apply Frame_new_dict|]. intros dict Hd.
  cbv beta in Hd. assert (dict <> r) by lia.
  pres.
  - now apply Frame_update_from.
  - now apply xmlns_step_Frame.
  - now apply prefix_loop_Frame.
Qed.

Lemma settle_ns_Frame inherited dict : preserves I (settle_ns inherited dict).
Proof.
  unfold settle_ns.
  eapply preserves_bind_returns; [apply Frame_new_dict|]. intros f Hf.
  cbv beta in Hf. pres; apply Frame_update_from; lia.
Qed.

Lemma TermOrCurie_init_Frame state inherited_state :
  preserves I (TermOrCurie_init state inherited_state).
Proof.
  unfold TermOrCurie_init, get_term_or_curie.
  pose proof ProfileRead_init_Frame. pose proof settle_terms_Frame.
  pose proof settle_default_term_uri_Frame.
  pose proof local_namespaces_Frame. pose proof settle_ns_Frame.
  pres; eapply returns_preserves; eauto.
Qed.

End FrameProofs.

(** The object [r] exists and is not held by the profile cache. *)
Definition private (w : World) (r : nat) : Prop :=
  r < next_ref w
  /\ forall p t n, profile_cache w !! p = Some (t, n) -> t <> r /\ n <> r.

(** The world after [{}] has made a new dictionary object. *)
Definition allocated (w : World) : World :=
  Store.set_heap (<[next_ref w := ∅]> (heap w)) (S (next_ref w)) w.

Lemma size_0_empty (d : dict) : Nat.eqb (size d) 0 = true <-> d = ∅.
Proof. rewrite Nat.eqb_eq. apply map_size_empty_iff. Qed.

Lemma size_0_nonempty (d : dict) : d <> ∅ -> Nat.eqb (size d) 0 = false.
Proof.
  intros H. destruct (Nat.eqb (size d) 0) eqn:E; [|reflexivity].
  now apply size_0_empty in E.
Qed.

(** Lines 417-425 of TermOrCurie.py in a child. *)
Lemma settle_terms_child (i : TermOrCurie) (rv : ProfileRead) (w : World) :
  terms i < next_ref w ->
  let local := Store.content w (pr_terms rv) in
  (local = ∅ -> settle_terms (Some i) rv w = (Return (terms i), w))
  /\ (local <> ∅ ->
      exists w',
        settle_terms (Some i) rv w = (Return (next_ref w), w')
        /\ Store.content w' (next_ref w) = local ∪ Store.content w (terms i)
        /\ forall r, r <> next_ref w -> heap w' !! r = heap w !! r).
Proof.
  intros Hi local. unfold settle_terms. split.
  - intros E. unfold bind, Store.read_dict. fold local.
    apply size_0_empty in E. now rewrite E.
  - intros E. unfold bind at 1. unfold Store.read_dict. fold local.
    rewrite (size_0_nonempty _ E).
    eexists. split; [reflexivity|]. simpl. split.
    + unfold Store.content. simpl. rewrite !lookup_insert_eq. simpl.
      rewrite lookup_insert_ne by lia. fold (Store.content w (terms i)).
      now rewrite (right_id_L ∅ (∪)).
    + intros r Hr. now rewrite !lookup_insert_ne by congruence.
Qed.

(** Lines 504-512 of TermOrCurie.py in a child. *)
Lemma settle_ns_child (i : TermOrCurie) (dict : nat) (w : World) :
  ns i < next_ref w -> dict < next_ref w ->
  let local := Store.content w dict in
  (local = ∅ -> settle_ns (Some i) dict w = (Return (ns i), allocated w))
  /\ (local <> ∅ ->
      exists w',
        settle_ns (Some i) dict w = (Return (next_ref w), w')
        /\ Store.content w' (next_ref w) = local ∪ Store.content w (ns i)
        /\ forall r, r <> next_ref w -> heap w' !! r = heap w !! r).
Proof.
  intros Hi Hd local. unfold settle_ns.
  assert (Hread : Store.content (allocated w) dict = local).
  { unfold Store.content, allocated. simpl. now rewrite lookup_insert_ne by lia. }
  split.
  - intros E. unfold bind, Store.new_dict, Store.read_dict.
    fold (allocated w). rewrite Hread.
    apply size_0_empty in E. now rewrite E.
  - intros E. unfold bind at 1. unfold Store.new_dict. fold (allocated w).
    unfold bind at 1. unfold Store.read_dict. rewrite Hread.
    rewrite (size_0_nonempty _ E).
    eexists. split; [reflexivity|]. simpl. split.
    + unfold Store.content. simpl. rewrite !lookup_insert_eq. simpl.
      rewrite lookup_insert_ne by lia. fold (Store.content w (ns i)).
      now rewrite (right_id_L ∅ (∪)).
    + intros r Hr. now rewrite !lookup_insert_ne by congruence.
Qed.

(** The tables of a new instance are what [settle_terms] and [settle_ns]
    answered. *)
Lemma TermOrCurie_init_tables state inh i w c w' :
  curie inh = Some i ->
  TermOrCurie_init state (Some inh) w = (Return c, w') ->
  exists rv w1 w2 dict w3,
    settle_terms (Some i) rv w1 = (Return (terms c), w2)
    /\ settle_ns (Some i) dict w3 = (Return (ns c), w').
Proof.
  intros Hc H. unfold TermOrCurie_init, get_term_or_curie in H. rewrite Hc in H.
  apply bind_inv in H as (inh' & w0 & H0 & H).
  unfold bind, ret in H0. injection H0 as <- <-.
  apply bind_inv in H as (dc0 & w0 & _ & H).
  apply bind_inv in H as (rv & w1 & _ & H).
  apply bind_inv in H as (dt & w1' & _ & H).
  apply bind_inv in H as (t & w2 & Ht & H).
  apply bind_inv in H as ([dict dc] & w3 & _ & H).
  apply bind_inv in H as (n & w4 & Hn & H).
  injection H as <- <-. simpl. eauto 10.
Qed.


(** *** Prefixes: [xmlns:] against [@prefix] *)

(** The key under which the loop over the attributes stores the namespace of
    the attribute [a]; [None] when [a] declares no namespace. *)
Definition xmlns_key (state : ExecutionContext) (a : Dom.Attr)
  : option string :=
  if PyStr.startswith "xmlns:" (Dom.name a)
     && negb (String.eqb (Dom.localName a) "")
     && negb (String.eqb (Dom.localName a) "_")
     && negb (PyStr.has_colon (Dom.localName a))
  then Some (if PyStr.ge (rdfa_version state) "1.1"
             then PyStr.lower (Dom.localName a) else Dom.localName a)
  else None.

(** The dictionary object [d] exists and binds [k] to [v]. *)
Definition Keeps (d : nat) (k v : string) (w : World) : Prop :=
  d < next_ref w /\ Store.content w d !! k = Some v.

Lemma Keeps_store_inv d k v : store_inv (Keeps d k v).
Proof.
  intros w w' Hh Hn _ [H1 H2]. unfold Keeps, Store.content.
  rewrite Hh, Hn. auto.
Qed.

#[local] Hint Resolve Keeps_store_inv : pres.

Lemma Keeps_setitem d k v k' v' :
  k' <> k -> preserves (Keeps d k v) (Store.setitem d k' v').
Proof.
  intros Hk. apply preserves_modify. intros w [H1 H2].
  unfold Keeps, Store.content. simpl. split; [exact H1|].
  rewrite lookup_insert_eq. simpl. now rewrite lookup_insert_ne.
Qed.

Lemma prefix_loop_Keeps pr dict dc l k v :
  preserves (Keeps dict k v) (prefix_loop pr dict dc l).
Proof.
  remember (length l) as n eqn:En. revert l dc En.
  induction n as [n IH] using lt_wf_ind. intros l dc ->.
  destruct l as [|p [|u rest]]; simpl; [pres..|].
  assert (Hrest : forall dc',
            preserves (Keeps dict k v) (prefix_loop pr dict dc' rest)).
  { intros dc'. eapply (IH (length rest)); [simpl; lia|reflexivity]. }
  destruct (negb _); [pres|].
  pres_step; [pres|].
  destruct (String.eqb _ ""); [pres|].
  destruct (String.eqb _ "_"); [pres|].
  destruct (PyStr.ncname_match _); [|pres].
  eapply preserves_bind_returns; [apply returns_read_dict|].
  intros d (w0 & [_ Hd] & ->). cbv zeta.
  match goal with
  | |- preserves _ (match ?x with _ => _ end) => destruct x eqn:E
  end; [pres|].
  pres. apply Keeps_setitem. intros Heq. rewrite Heq in E. congruence.
Qed.

Lemma xmlns_step_Keeps state dict a k v :
  xmlns_key state a <> Some k ->
  preserves (Keeps dict k v) (xmlns_step state dict a).
Proof.
  unfold xmlns_key, xmlns_step. intros Hk.
  destruct (PyStr.startswith _ _); [|pres].
  destruct (String.eqb (Dom.localName a) ""); simpl in *; [pres|].
  destruct (String.eqb (Dom.localName a) "_"); simpl in *; [pres|].
  destruct (PyStr.has_colon _); simpl in *; [pres|].
  pres. apply Keeps_setitem. congruence.
Qed.

Lemma xmlns_step_total state dict a w :
  exists w',
    xmlns_step state dict a w = (Return tt, w') /\ next_ref w' = next_ref w.
Proof.
  unfold xmlns_step, warn_prefix, quote_URI_M, bind, ret.
  destruct (PyStr.startswith _ _); [|eauto].
  destruct (negb _); [|eauto].
  destruct (String.eqb _ "_"); [simpl; eauto|].
  destruct (PyStr.has_colon _); [simpl; eauto|].
  destruct (quote_URI _ _) as [q o]. simpl. eauto.
Qed.

Lemma xmlns_loop_total state dict l w :
  exists w',
    forM_ (xmlns_step state dict) l w = (Return tt, w')
    /\ next_ref w' = next_ref w.
Proof.
  revert w. induction l as [|a l IH]; intros w; simpl; [unfold ret; eauto|].
  destruct (xmlns_step_total state dict a w) as (w1 & E1 & N1).
  rewrite (bind_Return _ _ _ _ _ E1).
  destruct (IH w1) as (w2 & E2 & N2). exists w2. split; [exact E2|congruence].
Qed.

Lemma xmlns_step_writes state dict a k w :
  xmlns_key state a = Some k -> dict < next_ref w ->
  exists o w',
    xmlns_step state dict a w = (Return tt, w')
    /\ Keeps dict k (fst (quote_URI (Dom.value a) o)) w'.
Proof.
  unfold xmlns_key, xmlns_step. intros Hk Hd.
  destruct (PyStr.startswith _ _); [|discriminate].
  destruct (String.eqb (Dom.localName a) ""); simpl in *; [discriminate|].
  destruct (String.eqb (Dom.localName a) "_"); simpl in *; [discriminate|].
  destruct (PyStr.has_colon _); simpl in *; [discriminate|].
  injection Hk as Hk. rewrite Hk.
  exists (options w). unfold bind, quote_URI_M.
  destruct (quote_URI (Dom.value a) (options w)) as [q o]. simpl.
  eexists. split; [reflexivity|]. split; [exact Hd|].
  unfold Store.content. simpl. rewrite lookup_insert_eq. simpl.
  now rewrite lookup_insert_eq.
Qed.

(** Among the [xmlns:] attributes for one key, the last one is in [dict]
    after the loop. *)
Lemma xmlns_loop_last state dict l1 a l2 k w :
  xmlns_key state a = Some k ->
  Forall (fun a' => xmlns_key state a' <> Some k) l2 ->
  dict < next_ref w ->
  exists o w',
    forM_ (xmlns_step state dict) (l1 ++ a :: l2) w = (Return tt, w')
    /\ Keeps dict k (fst (quote_URI (Dom.value a) o)) w'.
Proof.
  intros Hk Hl2. revert w. induction l1 as [|a0 l1 IH]; intros w Hd; simpl.
  - destruct (xmlns_step_writes state dict a k w Hk Hd) as (o & w1 & E1 & K1).
    rewrite (bind_Return _ _ _ _ _ E1).
    destruct (xmlns_loop_total state dict l2 w1) as (w2 & E2 & _).
    exists o, w2. split; [exact E2|].
    assert (P : preserves (Keeps dict k (fst (quote_URI (Dom.value a) o)))
                  (forM_ (xmlns_step state dict) l2)).
    { clear -Hl2. induction Hl2 as [|a' l2 Ha' _ IH]; simpl; [pres|].
      pres_step; [now apply xmlns_step_Keeps|intros; exact IH]. }
    specialize (P w1 K1). now rewrite E2 in P.
  - destruct (xmlns_step_total state dict a0 w) as (w1 & E1 & N1).
    rewrite (bind_Return _ _ _ _ _ E1). apply IH. lia.
Qed.

Lemma local_namespaces_xmlns state rv dc w dict dc' w' l1 a l2 k :
  Dom.attributes_of (node state) = l1 ++ a :: l2 ->
  xmlns_key state a = Some k ->
  Forall (fun a' => xmlns_key state a' <> Some k) l2 ->
  local_namespaces state rv dc w = (Return (dict, dc'), w') ->
  exists o, Keeps dict k (fst (quote_URI (Dom.value a) o)) w'.
Proof.
  intros Hattrs Hk Hl2 H. unfold local_namespaces in H. rewrite Hattrs in H.
  apply bind_inv in H as (d0 & w1 & H1 & H).
  injection H1 as <- <-.
  apply bind_inv in H as (rns & w2 & H2 & H). injection H2 as <- <-.
  apply bind_inv in H as ([] & w3 & H3 & H). injection H3 as <-.
  apply bind_inv in H as ([] & w4 & H4 & H).
  edestruct (xmlns_loop_last state (next_ref w) l1 a l2 k) as (o & w4' & E & K);
    [exact Hk|exact Hl2| |rewrite E in H4; injection H4 as <-].
  { simpl. lia. }
  exists o.
  destruct (_ && _).
  - apply bind_inv in H as (dc1 & w5 & H5 & H). injection H as <- <- <-.
    match type of H5 with
    | ?c _ = _ =>
        assert (P : preserves
                      (Keeps (next_ref w) k (fst (quote_URI (Dom.value a) o))) c)
          by apply prefix_loop_Keeps
    end.
    specialize (P _ K). now rewrite H5 in P.
  - injection H as <- <- <-. exact K.
Qed.

Lemma settle_ns_Keeps inherited dict k v w n w' :
  Keeps dict k v w ->
  settle_ns inherited dict w = (Return n, w') ->
  Store.content w' n !! k = Some v.
Proof.
  intros [Hd Hk] H. unfold settle_ns in H.
  apply bind_inv in H as (f & w1 & H1 & H). injection H1 as <- <-.
  apply bind_inv in H as (d & w2 & H2 & H). injection H2 as <- <-.
  assert (Hread : Store.content (allocated w) dict = Store.content w dict).
  { unfold Store.content, allocated. simpl. now rewrite lookup_insert_ne by lia. }
  fold (allocated w) in H. rewrite Hread in H.
  destruct inherited as [i|].
  - rewrite size_0_nonempty in H.
    2:{ intros E. rewrite E in Hk. now rewrite lookup_empty in Hk. }
    unfold bind, Store.read_dict, Store.update_from, modify, ret in H.
    simpl in H. injection H as <- <-.
    unfold Store.content. simpl. rewrite !lookup_insert_eq. simpl.
    now apply lookup_union_Some_l.
  - injection H as <- <-. now rewrite Hread.
Qed.


(** *** The tables of a context stay out of the profile cache *)

(** [hoare P c Q]: when [c] runs in a world with [P] and returns [a], the
    world it leaves satisfies [Q a]. *)
Definition hoare {A} (P : World -> Prop) (c : M A) (Q : A -> World -> Prop)
  : Prop :=
  forall w a w', P w -> c w = (Return a, w') -> Q a w'.

Lemma hoare_ret {A} (P : World -> Prop) (a : A) (Q : A -> World -> Prop) :
  (forall w, P w -> Q a w) -> hoare P (ret a) Q.
Proof. intros H w a' w' Hw [= <- <-]. now apply H. Qed.

Lemma hoare_bind {A B} P (c : M A) (k : A -> M B) R Q :
  hoare P c R -> (forall a, hoare (R a) (k a) Q) -> hoare P (bind c k) Q.
Proof.
  intros Hc Hk w b w' Hw H. apply bind_inv in H as (a & w1 & H1 & H2).
  eapply Hk; [|exact H2]. eapply Hc; eauto.
Qed.

Lemma hoare_pre {A} (P P' : World -> Prop) (c : M A) Q :
  (forall w, P' w -> P w) -> hoare P c Q -> hoare P' c Q.
Proof. intros HP H w a w' Hw E. eapply H; eauto. Qed.

Lemma hoare_post {A} P (c : M A) (Q Q' : A -> World -> Prop) :
  (forall a w, Q a w -> Q' a w) -> hoare P c Q -> hoare P c Q'.
Proof. intros HQ H w a w' Hw E. eapply HQ, H; eauto. Qed.

Lemma hoare_pure {A} (phi : Prop) P (c : M A) Q :
  (phi -> hoare P c Q) -> hoare (fun w => P w /\ phi) c Q.
Proof. intros H w a w' [Hw Hphi]. now apply H. Qed.

Lemma hoare_preserves {A} I (c : M A) :
  preserves I c -> hoare I c (fun _ => I).
Proof. intros H w a w' Hw E. specialize (H w Hw). now rewrite E in H. Qed.

Lemma hoare_get P : hoare P get (fun a w => a = w /\ P w).
Proof. intros w a w' Hw [= <- <-]. auto. Qed.

Lemma hoare_foldM {A B} (R : A -> World -> Prop) (f : A -> B -> M A) l a :
  (forall a b, hoare (R a) (f a b) R) -> hoare (R a) (foldM f a l) R.
Proof.
  intros Hf. revert a. induction l as [|x l IH]; intros a; simpl.
  - now apply hoare_ret.
  - eapply hoare_bind; [apply Hf|]. intros a'. apply IH.
Qed.

(** Every dictionary the profile cache holds exists. *)
Definition cache_allocated (w : World) : Prop :=
  forall p t n, profile_cache w !! p = Some (t, n) ->
                t < next_ref w /\ n < next_ref w.

(** The cache is as [cache_allocated] wants it, and at least [b] objects
    exist. *)
Definition Grown (b : nat) (w : World) : Prop :=
  cache_allocated w /\ b <= next_ref w.

(** The nested parse of a profile document leaves the cache with existing
    dictionaries only, and no object disappears. *)
Definition nested_parse_allocates : Prop :=
  forall data b, preserves (Grown b) (graph_from_source data).

Lemma Grown_store_inv b : store_inv (Grown b).
Proof.
  intros w w' Hh Hn Hc [H1 H2]. unfold Grown, cache_allocated.
  rewrite Hn, Hc. auto.
Qed.

#[local] Hint Resolve Grown_store_inv : pres.

Lemma Grown_setitem b d k v : preserves (Grown b) (Store.setitem d k v).
Proof. apply preserves_modify. now intros w. Qed.

Lemma Grown_update_from b d src : preserves (Grown b) (Store.update_from d src).
Proof. apply preserves_modify. now intros w. Qed.

Lemma Grown_new_dict b :
  hoare (Grown b) Store.new_dict (fun a w => Grown (S a) w /\ b <= a).
Proof.
  intros w a w' [H1 H2] [= <- <-]. unfold Grown, cache_allocated. simpl.
  split; [split|]; [|lia..]. intros p t n E. apply H1 in E. lia.
Qed.

Lemma Grown_le b b' w : b' <= b -> Grown b w -> Grown b' w.
Proof. intros Hb [H1 H2]. split; [exact H1|lia]. Qed.

Lemma Grown_cache_store b prof t n :
  t < b -> n < b -> preserves (Grown b) (cache_store prof (t, n)).
Proof.
  intros Ht Hn. apply preserves_modify. intros w [H1 H2].
  split; [|exact H2]. intros p t' n'. simpl.
  destruct (decide (prof = p)) as [->|Hp].
  - rewrite lookup_insert_eq. intros [= <- <-]. lia.
  - rewrite lookup_insert_ne by exact Hp. apply H1.
Qed.

Section Allocation.
Hypothesis Hnested : nested_parse_allocates.

Lemma _get_graph_Grown b name : preserves (Grown b) (_get_graph name).
Proof. unfold _get_graph. pres. Qed.

Lemma find_one_Grown b self graph prof tp otp term :
  preserves (Grown b) (find_one self graph prof tp otp term).
Proof. unfold find_one. pres; apply Grown_setitem. Qed.

Lemma _find_terms_Grown b self graph prof tp :
  preserves (Grown b) (_find_terms self graph prof tp).
Proof. unfold _find_terms. pres. apply find_one_Grown. Qed.

(** The dictionaries of a [ProfileRead] instance exist. *)
Definition Owned (self : ProfileRead) (w : World) : Prop :=
  Grown (S (Nat.max (pr_terms self) (pr_ns self))) w.

Lemma ProfileRead_step_Owned self p :
  hoare (Owned self) (ProfileRead_step self p) Owned.
Proof.
  unfold ProfileRead_step.
  destruct (String.eqb (str p) GRDDL_PROFILE); [now apply hoare_ret|].
  eapply hoare_bind; [apply hoare_get|]. intros w0.
  destruct (on_stack (str p) w0); [apply hoare_ret; now intros w [_ H]|].
  destruct (profile_cache w0 !! str p) as [[t n]|] eqn:E.
  - eapply hoare_pre with
      (P := Grown (S (Nat.max t n))).
    { intros w [<- [H1 H2]]. split; [exact H1|].
      apply H1 in E. lia. }
    eapply hoare_bind; [apply hoare_preserves; pres|]. intros ?.
    eapply hoare_bind; [apply hoare_preserves; pres|]. intros ?.
    now apply hoare_ret.
  - eapply hoare_pre with (P := Owned self); [now intros w [_ H]|].
    eapply hoare_bind; [apply hoare_preserves; unfold Owned; pres|].
    intros ?.
    eapply hoare_bind;
      [apply hoare_preserves, _get_graph_Grown|].
    intros [g|]; [|now apply hoare_ret].
    set (voc := Rdf.objects g None _).
    eapply hoare_bind
      with (R := fun s w => Owned self w /\ pr_terms s = pr_terms self
                            /\ pr_ns s = pr_ns self).
    { destruct voc as [|v [|v' voc]].
      - apply hoare_ret; auto.
      - apply hoare_ret; auto.
      - eapply hoare_bind; [apply hoare_preserves; unfold Owned; pres|].
        intros ?. apply hoare_ret; auto. }
    intros s. apply hoare_pure. intros [Ht Hn].
    apply hoare_pre with (P := Owned s).
    { intros w H. unfold Owned. now rewrite Ht, Hn. }
    eapply hoare_bind; [apply hoare_preserves, _find_terms_Grown|]. intros ?.
    eapply hoare_bind; [apply hoare_preserves, _find_terms_Grown|]. intros ?.
    eapply hoare_bind.
    { apply hoare_preserves, Grown_cache_store; lia. }
    intros ?.
    eapply hoare_bind; [apply hoare_preserves; unfold Owned; pres|]. intros ?.
    now apply hoare_ret.
Qed.

Lemma ProfileRead_init_allocates state :
  hoare cache_allocated (ProfileRead_init state) (fun _ => cache_allocated).
Proof.
  apply hoare_pre with (P := Grown 0); [intros w H; split; [exact H|lia]|].
  apply hoare_post with (Q := Owned); [now intros a w [H _]|].
  unfold ProfileRead_init.
  eapply hoare_bind; [apply Grown_new_dict|]. intros t.
  eapply hoare_bind.
  { eapply hoare_pre; [|apply (Grown_new_dict (S t))]. now intros w [H _]. }
  intros n. cbv beta.
  apply hoare_pre
    with (P := Owned {| pr_terms := t; pr_ns := n; vocabulary := None |}).
  { intros w [H1 H2]. unfold Owned. simpl.
    eapply Grown_le; [|exact H1]. lia. }
  destruct (PyStr.lt _ _); [now apply hoare_ret|].
  eapply hoare_bind; [apply hoare_preserves; unfold Owned; pres|].
  intros [o|l]; [intros w a w' _; discriminate|].
  apply hoare_foldM. intros a b. apply ProfileRead_step_Owned.
Qed.


(** Since the world [w0], no object has disappeared and the profile cache
    has not changed. *)
Definition Since (w0 w : World) : Prop :=
  next_ref w0 <= next_ref w /\ profile_cache w = profile_cache w0.

Lemma Since_store_inv w0 : store_inv (Since w0).
Proof. intros w w' _ Hn Hc [H1 H2]. unfold Since. rewrite Hn, Hc. auto. Qed.

#[local] Hint Resolve Since_store_inv : pres.

Lemma Since_refl w : Since w w.
Proof. split; [lia|reflexivity]. Qed.

Lemma Since_setitem w0 d k v : preserves (Since w0) (Store.setitem d k v).
Proof. apply preserves_modify. now intros w. Qed.

Lemma Since_update_from w0 d src :
  preserves (Since w0) (Store.update_from d src).
Proof. apply preserves_modify. now intros w. Qed.

Lemma Since_new_dict w0 : preserves (Since w0) Store.new_dict.
Proof. intros w [H1 H2]. split; simpl; [lia|exact H2]. Qed.

#[local] Hint Resolve Since_setitem Since_update_from Since_new_dict : pres.

Lemma settle_default_term_uri_Since w0 state inherited rv :
  preserves (Since w0) (settle_default_term_uri state inherited rv).
Proof. unfold settle_default_term_uri. pres. Qed.

Lemma settle_terms_Since w0 inherited rv :
  preserves (Since w0) (settle_terms inherited rv).
Proof. unfold settle_terms. pres. Qed.

Lemma xmlns_step_Since w0 state dict a :
  preserves (Since w0) (xmlns_step state dict a).
Proof. unfold xmlns_step. pres. Qed.

Lemma prefix_loop_Since w0 pr dict dc l :
  preserves (Since w0) (prefix_loop pr dict dc l).
Proof.
  remember (length l) as n eqn:En. revert l dc En.
  induction n as [n IH] using lt_wf_ind. intros l dc ->.
  destruct l as [|p [|v rest]]; simpl; [pres..|].
  assert (Hrest : forall dc', preserves (Since w0) (prefix_loop pr dict dc' rest)).
  { intros dc'. eapply (IH (length rest)); [simpl; lia|reflexivity]. }
  pres.
Qed.

Lemma local_namespaces_Since w0 state rv dc :
  preserves (Since w0) (local_namespaces state rv dc).
Proof.
  unfold local_namespaces. pres.
  - apply xmlns_step_Since.
  - apply prefix_loop_Since.
Qed.

Lemma settle_ns_Since w0 inherited dict :
  preserves (Since w0) (settle_ns inherited dict).
Proof. unfold settle_ns. pres. Qed.

(** What [settle_terms] returns is the inherited object or a new one. *)
Lemma settle_terms_result inherited rv w t w' :
  settle_terms inherited rv w = (Return t, w') ->
  (exists i, inherited = Some i /\ t = terms i)
  \/ (next_ref w <= t < next_ref w').
Proof.
  unfold settle_terms. intros H.
  apply bind_inv in H as (d & w1 & H1 & H). injection H1 as <- <-.
  destruct inherited as [i|].
  - destruct (Nat.eqb _ 0).
    + injection H as <- <-. eauto.
    + right. unfold bind, Store.new_dict, Store.read_dict, Store.update_from,
        modify, ret in H. simpl in H. injection H as <- <-. simpl. lia.
  - right. unfold bind, Store.new_dict, Store.update_from, modify, ret in H.
    simpl in H. injection H as <- <-. simpl. lia.
Qed.

Lemma local_namespaces_result state rv dc w dict dc' w' :
  local_namespaces state rv dc w = (Return (dict, dc'), w') ->
  next_ref w <= dict < next_ref w'.
Proof.
  intros H. unfold local_namespaces in H.
  apply bind_inv in H as (d & w1 & H1 & H). injection H1 as <- <-.
  fold (allocated w) in H.
  assert (S1 : Since (allocated w) w').
  { match type of H with
    | ?c _ = _ => assert (P : preserves (Since (allocated w)) c)
    end.
    { pres; [apply xmlns_step_Since|apply prefix_loop_Since]. }
    specialize (P _ (Since_refl _)). now rewrite H in P. }
  assert (dict = next_ref w).
  { apply bind_inv in H as (? & ? & _ & H).
    apply bind_inv in H as (? & ? & _ & H).
    apply bind_inv in H as (? & ? & _ & H).
    destruct (_ && _).
    - apply bind_inv in H as (? & ? & _ & H). now injection H as <- _ _.
    - now injection H as <- _ _. }
  subst dict. destruct S1 as [S1 _]. simpl in S1. lia.
Qed.

(** What [settle_ns] returns is the local dictionary, the inherited object
    or a new one. *)
Lemma settle_ns_result inherited dict w n w' :
  settle_ns inherited dict w = (Return n, w') ->
  next_ref w < next_ref w'
  /\ (n = dict \/ (exists i, inherited = Some i /\ n = ns i)
      \/ next_ref w <= n < next_ref w').
Proof.
  unfold settle_ns. intros H.
  apply bind_inv in H as (f & w1 & H1 & H). injection H1 as <- <-.
  apply bind_inv in H as (d & w2 & H2 & H). injection H2 as <- <-.
  destruct inherited as [i|].
  - destruct (Nat.eqb _ 0).
    + injection H as <- <-. simpl. split; [lia|eauto].
    + unfold bind, Store.read_dict, Store.update_from, modify, ret in H.
      simpl in H. injection H as <- <-. simpl. split; [lia|]. right. right. lia.
  - injection H as <- <-. simpl. split; [lia|auto].
Qed.

Lemma private_fresh w0 w r :
  cache_allocated w0 -> Since w0 w -> next_ref w0 <= r < next_ref w ->
  private w r.
Proof.
  intros Hc [H1 H2] Hr. split; [lia|]. intros p t n. rewrite H2.
  intros E. apply Hc in E. lia.
Qed.

(** X24. The tables of a context stay out of the profile cache. Whenever
    the constructor returns, the cache still holds existing dictionaries
    only, and the two tables of the new instance are not among them, provided
    this held for the tables of the inherited instance: a property that is
    kept along every chain of contexts. *)
Theorem TermOrCurie_init_keeps_tables_private
  (state : ExecutionContext) (inherited_state : option ExecutionContext)
  (w w' : World) (c : TermOrCurie) :
  nested_parse_frame ->
  cache_allocated w ->
  (forall inh i, inherited_state = Some inh -> curie inh = Some i ->
                 private w (terms i) /\ private w (ns i)) ->
  TermOrCurie_init state inherited_state w = (Return c, w') ->
  cache_allocated w' /\ private w' (terms c) /\ private w' (ns c).
Proof.
  intros Hframe Hcache Hinh H.
  assert (Hkeep : forall r, private w r -> private w' r).
  { intros r [Hr1 Hr2].
    pose proof (TermOrCurie_init_Frame r (heap w !! r) Hframe state
                  inherited_state w) as P.
    rewrite H in P. simpl in P. destruct P as (P1 & _ & P3); [now split|].
    now split. }
  unfold TermOrCurie_init in H.
  apply bind_inv in H as (inherited & w0 & H0 & H).
  assert (E0 : w0 = w /\ forall i, inherited = Some i ->
                 private w (terms i) /\ private w (ns i)).
  { destruct inherited_state as [inh|].
    - unfold get_term_or_curie in H0.
      destruct (curie inh) as [i|] eqn:Ei; [|discriminate].
      unfold bind, ret in H0. injection H0 as <- <-.
      split; [reflexivity|]. intros i' [= <-]. eauto.
    - injection H0 as <- <-. split; [reflexivity|]. discriminate. }
  destruct E0 as [-> Hpriv].
  apply bind_inv in H as (dc0 & w1 & H1 & H).
  assert (C1 : cache_allocated w1).
  { destruct inherited; [now injection H1 as _ <-|].
    unfold bind, Store.graph_bind, modify, ret in H1. now injection H1 as _ <-. }
  apply bind_inv in H as (rv & w2 & H2 & H).
  pose proof (ProfileRead_init_allocates state w1 rv w2 C1 H2) as C2.
  apply bind_inv in H as (dt & w3 & H3 & H).
  apply bind_inv in H as (t & w4 & H4 & H).
  apply bind_inv in H as ([dict dc] & w5 & H5 & H).
  apply bind_inv in H as (n & w6 & H6 & H). injection H as <- <-. simpl.
  pose proof (settle_default_term_uri_Since w2 state inherited rv w2
                (Since_refl _)) as S3. rewrite H3 in S3. simpl in S3.
  pose proof (settle_terms_Since w2 inherited rv w3 S3) as S4.
  rewrite H4 in S4. simpl in S4.
  pose proof (local_namespaces_Since w2 state rv dc0 w4 S4) as S5.
  rewrite H5 in S5. simpl in S5.
  pose proof (settle_ns_Since w2 inherited dict w5 S5) as S6.
  rewrite H6 in S6. simpl in S6.
  pose proof (settle_terms_result _ _ _ _ _ H4) as R4.
  pose proof (local_namespaces_result _ _ _ _ _ _ _ H5) as R5.
  pose proof (settle_ns_result _ _ _ _ _ H6) as [R6 R6'].
  destruct S3 as [S3 _], S4 as [S4 _], S5 as [S5 _].
  split; [|split].
  - destruct S6 as [S6a S6b]. intros p t' n'. rewrite S6b. intros E.
    apply C2 in E. lia.
  - destruct R4 as [(i & -> & ->)|R4].
    + apply Hkeep. now apply Hpriv.
    + apply (private_fresh w2); [exact C2|exact S6|lia].
  - destruct R6' as [->|[(i & -> & ->)|R6']].
    + apply (private_fresh w2); [exact C2|exact S6|lia].
    + apply Hkeep. now apply Hpriv.
    + apply (private_fresh w2); [exact C2|exact S6|lia].
Qed.

Lemma initial_World_cache_allocated (o : Options) :
  cache_allocated (initial_World o).
Proof. intros p t n. simpl. now rewrite lookup_empty. Qed.

End Allocation.

End Preservation.

(* ===================================================================== *)
(** ** The profile cache *)
(* ===================================================================== *)

Section CacheHit.

Context `{Ext : Externals}.

Lemma pop_after_append (prof : string) (w : World) :
  Store.set_profile (profile_cache (pushed prof w))
    (removelast (profile_stack (pushed prof w))) (pushed prof w) = w.
Proof. destruct w. unfold pushed. simpl. now rewrite removelast_last. Qed.

(** What lines 151-152 and 183 of TermOrCurie.py do for a profile that is in
    the cache: nothing is fetched and the world is left as it was; the
    instance takes the two cached dictionary objects in place of the ones it
    had, and keeps the vocabulary it had. *)
Lemma step_cache_hit (self : ProfileRead) (p : Rdf.node) (w : World) t n :
  String.eqb (str p) GRDDL_PROFILE = false ->
  on_stack (str p) w = false ->
  profile_cache w !! str p = Some (t, n) ->
  ProfileRead_step self p w
  = (Return {| pr_terms := t; pr_ns := n; vocabulary := vocabulary self |}, w).
Proof.
  intros Hg Hs Hc. unfold ProfileRead_step. rewrite Hg.
  unfold bind at 1. unfold get. rewrite Hs.
  unfold bind at 1. unfold stack_append, modify. rewrite Hc.
  unfold bind, stack_pop, modify, ret. fold (pushed (str p) w).
  now rewrite pop_after_append.
Qed.

End CacheHit.

(* ===================================================================== *)
(** ** The embedding at work *)
(* ===================================================================== *)

Example lower_ex : PyStr.lower "Ex_AMPLE-1" = "ex_ample-1".
Proof. reflexivity. Qed.

Example split_ex : PyStr.split " ex: http://a/   foaf: http://b/ " =
                   ["ex:"; "http://a/"; "foaf:"; "http://b/"].
Proof. reflexivity. Qed.

Example split_colon_ex : PyStr.split_colon "a:b:c" = Some ("a", "b:c").
Proof. reflexivity. Qed.

Example ncname_ex :
  (PyStr.ncname_match "next", PyStr.ncname_match "a.b-c_1",
   PyStr.ncname_match "1a", PyStr.ncname_match "a:b", PyStr.ncname_match "")
  = (true, true, false, false, false).
Proof. reflexivity. Qed.

Example version_ex :
  (PyStr.ge "1.1" "1.1", PyStr.ge "1.0" "1.1", PyStr.lt "1.0" "1.1",
   PyStr.ge "1.2" "1.1") = (true, false, true, true).
Proof. reflexivity. Qed.

Example media_type_ex :
  (PyStr.xml_application_media_type_match "application/svg+xml",
   PyStr.xml_application_media_type_match "application/+xml",
   PyStr.xml_application_media_type_match "text/svg+xml")
  = (true, false, false).
Proof. reflexivity. Qed.

(** C1. Two children of one root carry the same [profile] attribute, naming
    a profile that declares the default vocabulary
    [http://example.org/voc#]. The first child reads the profile and gets
    that default term URI; the second finds the profile in the cache, which
    holds the two dictionary objects only, and is left without default term
    URI. *)
Theorem C1_cached_profile_loses_its_vocabulary :
  exists c1 c2 t1 t2 w,
    Demo.two_children rdfa_core
      [Demo.attr "profile" Demo.profile_V]
      [Demo.attr "profile" Demo.profile_V] (Demo.world0 rdfa_core)
    = (Return (c1, c2), w)
    /\ curie c1 = Some t1 /\ curie c2 = Some t2
    /\ default_term_uri t1 = Some (Rdf.URIRef "http://example.org/voc#")
    /\ default_term_uri t2 = None
    /\ is_Some (profile_cache w !! Demo.profile_V).
Proof.
  do 5 eexists. split; [vm_compute; reflexivity|].
  repeat split; try reflexivity. vm_compute. eauto.
Qed.

(** C2. Profile A defines the term [a], profile B the term [b]. A node with
    [profile="A B"] gets both terms when neither profile is in the cache.
    When an earlier node has read A, the same attribute gives [a] only: B is
    read first, then the cache entry of A replaces the dictionaries that
    held what B gave. *)
Theorem C2_cached_profile_replaces_earlier_bindings :
  (exists c1 c2 w,
     Demo.two_children rdfa_core []
       [Demo.attr "profile" "http://example.org/A http://example.org/B"]
       (Demo.world0 rdfa_core) = (Return (c1, c2), w)
     /\ fst (Demo.tables w c2) !! "a" = Some "http://example.org/A#a"
     /\ fst (Demo.tables w c2) !! "b" = Some "http://example.org/B#b")
  /\ (exists c1 c2 w,
        Demo.two_children rdfa_core
          [Demo.attr "profile" "http://example.org/A"]
          [Demo.attr "profile" "http://example.org/A http://example.org/B"]
          (Demo.world0 rdfa_core) = (Return (c1, c2), w)
        /\ fst (Demo.tables w c2) !! "a" = Some "http://example.org/A#a"
        /\ fst (Demo.tables w c2) !! "b" = None).
Proof.
  split; do 3 eexists; (split; [vm_compute; reflexivity|]);
    split; vm_compute; reflexivity.
Qed.

(** Two profiles read in one loop end up in the cache with the same two
    dictionary objects: what the cache holds for B after [profile="A B"]
    includes the term of A. *)
Example cache_entries_share_objects :
  exists c1 c2 w,
    Demo.two_children rdfa_core
      [Demo.attr "profile" "http://example.org/A http://example.org/B"]
      [Demo.attr "profile" "http://example.org/B"]
      (Demo.world0 rdfa_core) = (Return (c1, c2), w)
    /\ profile_cache w !! Demo.profile_A = profile_cache w !! Demo.profile_B
    /\ fst (Demo.tables w c2) !! "a" = Some "http://example.org/A#a".
Proof.
  do 3 eexists. split; [vm_compute; reflexivity|].
  split; vm_compute; reflexivity.
Qed.

(** *** Instances *)


Lemma C3_witness :
  fst (_TERMorCURIEorAbsURI (Ext := Demo.externals) Demo.english
         "http://example.org/x" Demo.english_world)
  = Return (Some (Rdf.URIRef "http://example.org/x"))
  /\ fst (_TERMorCURIEorAbsURI (Ext := Demo.externals) Demo.english_1_0
            "http://example.org/x" Demo.english_world)
     = Return None.
Proof.
  split.
  - apply (C3_unresolved_CURIE_falls_back_to_absolute_URI_only_in_1_1
             (Ext := Demo.externals) Demo.english
             (Demo.curie_of Demo.english) "http://example.org/x"
             Demo.english_world Demo.english_world None).
    + vm_compute; reflexivity.
    + discriminate.
    + reflexivity.
    + vm_compute; reflexivity.
    + reflexivity.
    + vm_compute; reflexivity.
    + vm_compute; discriminate.
  - apply (C3_unresolved_CURIE_falls_back_to_absolute_URI_only_in_1_1
             (Ext := Demo.externals) Demo.english_1_0
             (Demo.curie_of Demo.english) "http://example.org/x"
             Demo.english_world Demo.english_world None).
    + vm_compute; reflexivity.
    + discriminate.
    + reflexivity.
    + vm_compute; reflexivity.
    + reflexivity.
    + vm_compute; reflexivity.
Defined.

Lemma C7_witness :
  exists b w1,
    CURIE_to_URI Demo.english
      (Demo.curie_of Demo.english) "_:b1" (Demo.world0 rdfa_core)
    = (Return (Some (Rdf.BNode b)), w1)
    /\ CURIE_to_URI Demo.english_1_0
         (Demo.curie_of Demo.english) "_:b1" w1
       = (Return (Some (Rdf.BNode b)), w1)
    /\ Rdf.BNode b <> _empty_bnode.
Proof.
  destruct (C7_blank_nodes_are_stable_within_a_session
              Demo.english Demo.english_1_0
              (Demo.curie_of Demo.english) (Demo.curie_of Demo.english)
              "b1" (Demo.world0 rdfa_core))
    as (b & w1 & E & _ & _ & Hb & Hlater & _ & Hdist).
  - apply initial_World_bnodes_wf.
  - discriminate.
  - discriminate.
  - exists b, w1. split; [exact E|]. split.
    + apply Hlater. intros x b' H. exact H.
    + exact (Hdist _ _ Hb).
Defined.





Lemma demo_nested_parse_frame : nested_parse_frame (Ext := Demo.externals).
Proof. intros data r h w Hw. exact Hw. Qed.

Lemma demo_profiled_cache :
  profile_cache Demo.profiled_world = {[ Demo.profile_A := (5, 6) ]}.
Proof. vm_compute. reflexivity. Qed.


Lemma demo_nested_parse_allocates :
  nested_parse_allocates (Ext := Demo.externals).
Proof. intros data b w Hw. exact Hw. Qed.

(** The context built with a profile, and a child of it, own tables that the
    profile cache does not hold. *)
Example demo_tables_private :
  private Demo.profiled_world (terms (Demo.curie_of Demo.profiled))
  /\ private Demo.profiled_world (ns (Demo.curie_of Demo.profiled)).
Proof.
  split; (split; [vm_compute; lia|]);
    intros p t n; rewrite demo_profiled_cache;
    intros [_ [= <- <-]]%lookup_singleton_Some; vm_compute; split; lia.
Qed.
(* ===================================================================== *)
(** ** Further properties of the two files *)
(* ===================================================================== *)

(** *** Strings *)

Lemma lower_char_idem (c : ascii) :
  PyStr.lower_char (PyStr.lower_char c) = PyStr.lower_char c.
Proof. destruct c as [[] [] [] [] [] [] [] []]; reflexivity. Qed.

Lemma lower_idem (s : string) : PyStr.lower (PyStr.lower s) = PyStr.lower s.
Proof.
  induction s as [|c s IH]; [reflexivity|].
  simpl. now rewrite lower_char_idem, IH.
Qed.

Lemma lower_char_colon (c : ascii) :
  Ascii.eqb (PyStr.lower_char c) ":" = Ascii.eqb c ":".
Proof. destruct c as [[] [] [] [] [] [] [] []]; reflexivity. Qed.

Lemma lower_char_underscore (c : ascii) :
  Ascii.eqb (PyStr.lower_char c) "_" = Ascii.eqb c "_".
Proof. destruct c as [[] [] [] [] [] [] [] []]; reflexivity. Qed.

Lemma lower_char_newline (c : ascii) :
  Ascii.eqb (PyStr.lower_char c) "010" = Ascii.eqb c "010".
Proof. destruct c as [[] [] [] [] [] [] [] []]; reflexivity. Qed.

Lemma lower_char_alpha (c : ascii) :
  PyStr.is_alpha (PyStr.lower_char c) = PyStr.is_alpha c.
Proof. destruct c as [[] [] [] [] [] [] [] []]; reflexivity. Qed.

Lemma lower_char_ncname (c : ascii) :
  PyStr.ncname_char (PyStr.lower_char c) = PyStr.ncname_char c.
Proof. destruct c as [[] [] [] [] [] [] [] []]; reflexivity. Qed.

Lemma alpha_not_colon (c : ascii) :
  PyStr.is_alpha c = true -> Ascii.eqb c ":" = false.
Proof. destruct c as [[] [] [] [] [] [] [] []]; intros H; try reflexivity; discriminate H. Qed.

Lemma ncname_char_not_colon (c : ascii) :
  PyStr.ncname_char c = true -> Ascii.eqb c ":" = false.
Proof. destruct c as [[] [] [] [] [] [] [] []]; intros H; try reflexivity; discriminate H. Qed.

Lemma lower_is_empty (s : string) :
  PyStr.is_empty (PyStr.lower s) = PyStr.is_empty s.
Proof. now destruct s. Qed.

Lemma lower_underscore (p : string) :
  String.eqb (PyStr.lower p) "_" = String.eqb p "_".
Proof.
  destruct p as [|c [|c' p]]; simpl; try reflexivity.
  - now rewrite lower_char_underscore.
  - rewrite lower_char_underscore. now destruct (Ascii.eqb c "_").
Qed.

(** The NCNAME expression does not look at the case of letters. *)
Lemma ncname_body_lower (s : string) :
  PyStr.ncname_body (PyStr.lower s) = PyStr.ncname_body s.
Proof.
  induction s as [|c s IH]; [reflexivity|].
  simpl. now rewrite lower_char_ncname, lower_char_newline, lower_is_empty, IH.
Qed.

Lemma ncname_match_lower (s : string) :
  PyStr.ncname_match (PyStr.lower s) = PyStr.ncname_match s.
Proof.
  destruct s as [|c s]; [reflexivity|].
  simpl. now rewrite lower_char_alpha, ncname_body_lower.
Qed.

Lemma ncname_body_no_colon (s : string) :
  PyStr.ncname_body s = true -> PyStr.split_colon s = None.
Proof.
  induction s as [|c s IH]; [reflexivity|].
  simpl. intros H. apply orb_prop in H as [H|H].
  - apply andb_prop in H as [Hc Hs].
    rewrite (ncname_char_not_colon _ Hc), (IH Hs). reflexivity.
  - apply andb_prop in H as [Hc Hs]. apply Ascii.eqb_eq in Hc. subst c.
    destruct s; [reflexivity|discriminate].
Qed.

(** A name that matches the NCNAME expression has no colon. *)
Lemma ncname_match_no_colon (s : string) :
  PyStr.ncname_match s = true -> PyStr.split_colon s = None.
Proof.
  destruct s as [|c s]; [reflexivity|].
  simpl. intros H. apply andb_prop in H as [Hc Hs].
  now rewrite (alpha_not_colon _ Hc), (ncname_body_no_colon _ Hs).
Qed.

Lemma split_colon_None_lower (p : string) :
  PyStr.split_colon p = None -> PyStr.split_colon (PyStr.lower p) = None.
Proof.
  induction p as [|c p IH]; [reflexivity|].
  simpl. rewrite lower_char_colon.
  destruct (Ascii.eqb c ":"); [discriminate|].
  destruct (PyStr.split_colon p) as [[a b]|]; [discriminate|].
  intros _. now rewrite IH.
Qed.

Lemma append_cons (c : ascii) (s t : string) :
  String c s +:+ t = String c (s +:+ t).
Proof. reflexivity. Qed.

Lemma append_nil (t : string) : "" +:+ t = t.
Proof. reflexivity. Qed.

(** [s.split(':', 1)] cuts at the first colon. *)
Lemma split_colon_app (p r : string) :
  PyStr.split_colon p = None ->
  PyStr.split_colon (p +:+ String ":" r) = Some (p, r).
Proof.
  induction p as [|c p IH]; [reflexivity|].
  rewrite append_cons. simpl.
  destruct (Ascii.eqb c ":"); [discriminate|].
  destruct (PyStr.split_colon p) as [[a b]|]; [discriminate|].
  intros _. now rewrite IH.
Qed.

Lemma split_colon_Some (val p r : string) :
  PyStr.split_colon val = Some (p, r) -> val = p +:+ String ":" r.
Proof.
  revert p. induction val as [|c val IH]; intros p; [discriminate|].
  simpl. destruct (Ascii.eqb c ":") eqn:E.
  - apply Ascii.eqb_eq in E. subst c. now intros [= <- <-].
  - destruct (PyStr.split_colon val) as [[a b]|]; [|discriminate].
    intros [= <- <-]. rewrite append_cons. f_equal. now apply IH.
Qed.

Lemma last_char_app (s : string) (c : ascii) :
  PyStr.last_char (s +:+ String c "") = Some c.
Proof.
  induction s as [|a s IH]; [reflexivity|].
  rewrite append_cons. simpl. rewrite IH.
  destruct (s +:+ String c "") eqn:E; [|reflexivity].
  destruct s; discriminate.
Qed.

Lemma last_char_inv (s : string) (c : ascii) :
  PyStr.last_char s = Some c -> exists s', s = s' +:+ String c "".
Proof.
  induction s as [|a s IH]; [discriminate|].
  simpl. destruct s as [|b s].
  - intros [= <-]. now exists "".
  - intros H. destruct (IH H) as [s' E]. exists (String a s').
    rewrite append_cons. now rewrite <- E.
Qed.

Lemma append_assoc (a b c : string) : (a +:+ b) +:+ c = a +:+ (b +:+ c).
Proof.
  induction a as [|x a IH]; [reflexivity|].
  rewrite !append_cons. now rewrite IH.
Qed.

Lemma last_char_append (a s : string) (c : ascii) :
  PyStr.last_char s = Some c -> PyStr.last_char (a +:+ s) = Some c.
Proof.
  intros H. destruct (last_char_inv _ _ H) as [s' ->].
  rewrite <- append_assoc. apply last_char_app.
Qed.

Lemma list_of_append (a b : string) :
  list_ascii_of_string (a +:+ b)
  = list_ascii_of_string a ++ list_ascii_of_string b.
Proof.
  induction a as [|x a IH]; [reflexivity|].
  rewrite append_cons. simpl. now rewrite IH.
Qed.

Lemma string_of_app (l : list ascii) (c : ascii) :
  string_of_list_ascii (l ++ [c]) = string_of_list_ascii l +:+ String c "".
Proof.
  induction l as [|x l IH]; [reflexivity|].
  simpl. rewrite append_cons. now rewrite IH.
Qed.

Lemma lstrip_chars_keeps_last (l : list ascii) (c : ascii) :
  PyStr.is_space c = false ->
  exists l', PyStr.lstrip_chars (l ++ [c]) = l' ++ [c].
Proof.
  intros Hc. induction l as [|x l IH]; simpl.
  - rewrite Hc. now exists [].
  - destruct (PyStr.is_space x); [exact IH|]. now exists (x :: l).
Qed.

(** [strip] leaves a last character that is not white space. *)
Lemma last_char_strip (s : string) (c : ascii) :
  PyStr.last_char s = Some c -> PyStr.is_space c = false ->
  PyStr.last_char (PyStr.strip s) = Some c.
Proof.
  intros H Hc. destruct (last_char_inv _ _ H) as [s' ->].
  unfold PyStr.strip. rewrite list_of_append. simpl.
  destruct (lstrip_chars_keeps_last (list_ascii_of_string s') c Hc) as [l' ->].
  rewrite rev_app_distr. simpl. rewrite Hc. simpl.
  rewrite rev_involutive, string_of_app. apply last_char_app.
Qed.

Lemma split_chars_blank (l : list ascii) :
  forallb PyStr.is_space l = true -> PyStr.split_chars l [] = [].
Proof.
  induction l as [|c l IH]; [reflexivity|].
  simpl. intros H. apply andb_prop in H as [Hc Hl]. rewrite Hc. now apply IH.
Qed.

(** [s.split()] of a string of white space is the empty list. *)
Lemma split_blank (s : string) :
  PyStr.all_chars PyStr.is_space s = true -> PyStr.split s = [].
Proof.
  intros H. unfold PyStr.split. rewrite split_chars_blank; [reflexivity|].
  induction s as [|c s IH]; [reflexivity|].
  simpl in *. apply andb_prop in H as [Hc Hs]. now rewrite Hc, IH.
Qed.

(** *** What a computation may raise *)

(** [raises_only P c]: every exception that leaves [c] satisfies [P]. With
    [P] empty, [c] always returns. *)
Definition raises_only {A} (P : Exception -> Prop) (c : M A) : Prop :=
  forall w e w', c w = (Raise e, w') -> P e.

Definition is_FailedProfile (e : Exception) : Prop :=
  exists msg context code, e = FailedProfile msg context code.

Definition nothing : Exception -> Prop := fun _ => False.

Lemma raises_only_returns {A} (c : M A) (w : World) :
  raises_only nothing c -> exists a w', c w = (Return a, w').
Proof.
  intros H. destruct (c w) as [[a|e] w'] eqn:E; [eauto|].
  destruct (H _ _ _ E).
Qed.

Lemma raises_only_ret {A} P (a : A) : raises_only P (ret a).
Proof. intros w e w'. discriminate. Qed.

Lemma raises_only_raise {A} (P : Exception -> Prop) e :
  P e -> raises_only P (@raise A e).
Proof. intros H w e' w' [= <- _]. exact H. Qed.

Lemma raises_only_get P : raises_only P get.
Proof. intros w e w'. discriminate. Qed.

Lemma raises_only_modify P f : raises_only P (modify f).
Proof. intros w e w'. discriminate. Qed.

Lemma raises_only_bind {A B} P (c : M A) (k : A -> M B) :
  raises_only P c -> (forall a, raises_only P (k a)) ->
  raises_only P (bind c k).
Proof.
  intros Hc Hk w e w'. unfold bind.
  destruct (c w) as [[a|e0] w1] eqn:E.
  - apply Hk.
  - intros [= <- <-]. eapply Hc, E.
Qed.

Lemma raises_only_try_except {A} P (c : M A) h :
  (forall e, raises_only P (h e)) -> raises_only P (try_except c h).
Proof.
  intros Hh w e w'. unfold try_except.
  destruct (c w) as [[a|e0] w1]; [discriminate|apply Hh].
Qed.

Lemma raises_only_when P b c : raises_only P c -> raises_only P (when b c).
Proof. destruct b; [trivial|intros _; apply raises_only_ret]. Qed.

Lemma raises_only_mapM {A B} P (f : A -> M B) l :
  (forall a, raises_only P (f a)) -> raises_only P (mapM f l).
Proof.
  intros Hf. induction l as [|x l IH]; simpl; [apply raises_only_ret|].
  apply raises_only_bind; [apply Hf|]. intros y.
  apply raises_only_bind; [apply IH|]. intros ys. apply raises_only_ret.
Qed.

Lemma raises_only_forM_ {B} P (f : B -> M unit) l :
  (forall a, raises_only P (f a)) -> raises_only P (forM_ f l).
Proof.
  intros Hf. induction l as [|x l IH]; simpl; [apply raises_only_ret|].
  apply raises_only_bind; [apply Hf|]. intros _. apply IH.
Qed.

Lemma raises_only_foldM {A B} P (f : A -> B -> M A) l a :
  (forall a b, raises_only P (f a b)) -> raises_only P (foldM f a l).
Proof.
  intros Hf. revert a. induction l as [|x l IH]; intros a; simpl;
    [apply raises_only_ret|].
  apply raises_only_bind; [apply Hf|]. intros a'. apply IH.
Qed.

Create HintDb ro discriminated.

(** One step along the shape of the program. *)
Ltac ro_step :=
  lazymatch goal with
  | |- raises_only _ (ret _) => apply raises_only_ret
  | |- raises_only _ get => apply raises_only_get
  | |- raises_only _ (modify _) => apply raises_only_modify
  | |- raises_only _ (when _ _) => apply raises_only_when
  | |- raises_only _ (bind _ _) => apply raises_only_bind; [|intros ?]
  | |- raises_only _ (try_except _ _) =>
      apply raises_only_try_except; intros ?
  | |- raises_only _ (mapM _ _) => apply raises_only_mapM; intros ?
  | |- raises_only _ (forM_ _ _) => apply raises_only_forM_; intros ?
  | |- raises_only _ (if ?b then _ else _) => destruct b
  | |- raises_only _ (match ?x with _ => _ end) => destruct x
  | |- raises_only _ (let _ := _ in _) => cbv zeta
  end.

Ltac ro := repeat ro_step; eauto with ro.

Section Raising.

Context `{Ext : Externals}.
Variable P : Exception -> Prop.

Lemma read_dict_ro r : raises_only P (Store.read_dict r).
Proof. intros w e w'. discriminate. Qed.

Lemma new_dict_ro : raises_only P Store.new_dict.
Proof. intros w e w'. discriminate. Qed.

Lemma setitem_ro r k v : raises_only P (Store.setitem r k v).
Proof. apply raises_only_modify. Qed.

Lemma update_from_ro d src : raises_only P (Store.update_from d src).
Proof. apply raises_only_modify. Qed.

Lemma add_warning_ro txt k ctx : raises_only P (Store.add_warning txt k ctx).
Proof. apply raises_only_modify. Qed.

Lemma graph_bind_ro p n : raises_only P (Store.graph_bind p n).
Proof. apply raises_only_modify. Qed.

Lemma print_ro s : raises_only P (Store.print s).
Proof. apply raises_only_modify. Qed.

Lemma quote_URI_M_ro uri : raises_only P (quote_URI_M uri).
Proof.
  intros w e w'. unfold quote_URI_M.
  destruct (quote_URI uri (options w)). discriminate.
Qed.

Lemma stack_append_ro p : raises_only P (stack_append p).
Proof. apply raises_only_modify. Qed.

Lemma stack_pop_ro : raises_only P stack_pop.
Proof. apply raises_only_modify. Qed.

Lemma cache_store_ro p v : raises_only P (cache_store p v).
Proof. apply raises_only_modify. Qed.

Lemma warn_prefix_ro txt : raises_only P (warn_prefix txt).
Proof. apply raises_only_modify. Qed.

#[local] Hint Resolve read_dict_ro new_dict_ro setitem_ro update_from_ro
  add_warning_ro graph_bind_ro print_ro quote_URI_M_ro stack_append_ro
  stack_pop_ro cache_store_ro warn_prefix_ro : ro.

Lemma CURIE_to_URI_ro state self val :
  raises_only P (CURIE_to_URI state self val).
Proof. unfold CURIE_to_URI. ro. Qed.

Lemma term_to_URI_ro self term : raises_only P (term_to_URI self term).
Proof. unfold term_to_URI. ro. Qed.

Lemma check_create_URIRef_ro uri : raises_only P (check_create_URIRef uri).
Proof. unfold check_create_URIRef. ro. Qed.

#[local] Hint Resolve CURIE_to_URI_ro term_to_URI_ro check_create_URIRef_ro
  : ro.

Lemma _URI_ro self val : raises_only P (_URI self val).
Proof. unfold _URI. ro. Qed.

#[local] Hint Resolve _URI_ro : ro.

Lemma get_curie_ro self : curie self <> None -> raises_only P (get_curie self).
Proof.
  intros H. unfold get_curie. destruct (curie self); [ro|contradiction].
Qed.

Lemma _CURIEorURI_ro self val :
  curie self <> None -> raises_only P (_CURIEorURI self val).
Proof.
  intros H. pose proof (get_curie_ro self H). unfold _CURIEorURI. ro.
Qed.

Lemma _TERMorCURIEorAbsURI_ro self val :
  curie self <> None -> raises_only P (_TERMorCURIEorAbsURI self val).
Proof.
  intros H. pose proof (get_curie_ro self H). unfold _TERMorCURIEorAbsURI. ro.
Qed.

Lemma getURI_ro self attr :
  curie self <> None -> raises_only P (getURI self attr).
Proof.
  intros H. pose proof (_CURIEorURI_ro self). 
  pose proof (_TERMorCURIEorAbsURI_ro self).
  unfold getURI, run_strategy. ro.
Qed.

(** The attributes read as plain URIs need no [TermOrCurie]. *)
Lemma getURI_plain_ro self attr :
  getitem _resource_type attr = Some _URI_ ->
  raises_only P (getURI self attr).
Proof. intros H. unfold getURI, run_strategy. rewrite H. ro. Qed.

Lemma find_one_ro self graph prof tp otp term :
  raises_only P (find_one self graph prof tp otp term).
Proof. unfold find_one. ro. Qed.

Lemma _find_terms_ro self graph prof tp :
  raises_only P (_find_terms self graph prof tp).
Proof. unfold _find_terms. ro. apply find_one_ro. Qed.

Lemma settle_terms_ro inherited rv : raises_only P (settle_terms inherited rv).
Proof. unfold settle_terms. ro. Qed.

Lemma settle_ns_ro inherited dict : raises_only P (settle_ns inherited dict).
Proof. unfold settle_ns. ro. Qed.

Lemma settle_default_term_uri_ro state inherited rv :
  raises_only P (settle_default_term_uri state inherited rv).
Proof.
  pose proof (getURI_plain_ro state "vocab" eq_refl).
  unfold settle_default_term_uri. ro.
Qed.

Lemma xmlns_step_ro state dict a : raises_only P (xmlns_step state dict a).
Proof. unfold xmlns_step. ro. Qed.

Lemma prefix_loop_ro pr dict dc l : raises_only P (prefix_loop pr dict dc l).
Proof.
  remember (length l) as n eqn:En. revert l dc En.
  induction n as [n IH] using lt_wf_ind. intros l dc ->.
  destruct l as [|p [|v rest]]; simpl; [ro..|].
  assert (Hrest : forall dc', raises_only P (prefix_loop pr dict dc' rest)).
  { intros dc'. eapply (IH (length rest)); [simpl; lia|reflexivity]. }
  ro.
Qed.

Lemma local_namespaces_ro state rv dc :
  raises_only P (local_namespaces state rv dc).
Proof.
  pose proof (xmlns_step_ro state). pose proof prefix_loop_ro.
  unfold local_namespaces. ro.
Qed.

Lemma settle_lang_ro nd l : raises_only P (settle_lang nd l).
Proof. unfold settle_lang. ro. Qed.

Lemma settle_base_ro nd html inh b o :
  raises_only P (settle_base nd html inh b o).
Proof. unfold settle_base. ro. Qed.

End Raising.

Section Constructors.

Context `{Ext : Externals}.

#[local] Hint Resolve read_dict_ro new_dict_ro setitem_ro update_from_ro
  add_warning_ro graph_bind_ro print_ro quote_URI_M_ro stack_append_ro
  stack_pop_ro cache_store_ro warn_prefix_ro _find_terms_ro settle_terms_ro
  settle_ns_ro settle_default_term_uri_ro local_namespaces_ro settle_lang_ro
  settle_base_ro : ro.

Lemma _get_graph_ro name : raises_only is_FailedProfile (_get_graph name).
Proof.
  intros w e w' H.
  destruct (_get_graph_raises_only_FailedProfile _ _ _ _ H) as (msg & code & ->).
  unfold is_FailedProfile. eauto.
Qed.

#[local] Hint Resolve _get_graph_ro : ro.

Lemma ProfileRead_step_ro self p :
  raises_only is_FailedProfile (ProfileRead_step self p).
Proof. unfold ProfileRead_step. ro. Qed.

(** For [profile], [getURI] answers a list. *)
Lemma getURI_profile_Many self w r w' :
  getURI self "profile" w = (Return r, w') -> exists l, r = Many l.
Proof.
  unfold getURI. change (PyStr.mem "profile" _list) with true. cbv iota.
  destruct (Dom.hasAttribute (node self) "profile").
  - intros H. apply bind_inv in H as (l & w1 & _ & H).
    injection H as <- _. eauto.
  - intros [= <- _]. eauto.
Qed.

Lemma ProfileRead_init_ro state :
  raises_only is_FailedProfile (ProfileRead_init state).
Proof.
  unfold ProfileRead_init.
  apply raises_only_bind; [ro|intros t].
  apply raises_only_bind; [ro|intros n]. cbv zeta.
  destruct (PyStr.lt _ _); [ro|].
  intros w e w' H. unfold bind in H.
  destruct (getURI state "profile" w) as [[r|e0] w1] eqn:E.
  - destruct (getURI_profile_Many _ _ _ _ E) as [l ->].
    revert H. apply raises_only_foldM. intros a b. apply ProfileRead_step_ro.
  - exfalso. exact (getURI_plain_ro nothing state "profile" eq_refl _ _ _ E).
Qed.

#[local] Hint Resolve ProfileRead_init_ro : ro.

Lemma TermOrCurie_init_ro state inh :
  (forall i, inh = Some i -> curie i <> None) ->
  raises_only is_FailedProfile (TermOrCurie_init state inh).
Proof.
  intros H. unfold TermOrCurie_init, get_term_or_curie.
  destruct inh as [i|].
  - destruct (curie i) eqn:E; [|now destruct (H i eq_refl)]. ro.
  - ro.
Qed.

Lemma ExecutionContext_init_ro nd html inh b o :
  (forall i, inh = Some i -> curie i <> None) ->
  raises_only is_FailedProfile (ExecutionContext_init nd html inh b o).
Proof.
  intros H. pose proof (fun s => TermOrCurie_init_ro s inh H).
  unfold ExecutionContext_init. ro.
Qed.

(** Under a version below "1.1", or on a node without [profile] attribute,
    [ProfileRead.__init__] makes its two empty dictionaries and nothing
    else. *)
Lemma ProfileRead_init_reads_nothing state w :
  PyStr.lt (rdfa_version state) "1.1" = true
  \/ Dom.hasAttribute (node state) "profile" = false ->
  ProfileRead_init state w
  = (Return {| pr_terms := next_ref w; pr_ns := S (next_ref w);
               vocabulary := None |},
     allocated (allocated w)).
Proof.
  intros H. unfold ProfileRead_init, bind, Store.new_dict. simpl.
  destruct (PyStr.lt (rdfa_version state) "1.1"); [reflexivity|].
  destruct H as [H|H]; [discriminate|].
  unfold getURI. rewrite H. reflexivity.
Qed.

Lemma TermOrCurie_init_without_profile state inh :
  (forall i, inh = Some i -> curie i <> None) ->
  PyStr.lt (rdfa_version state) "1.1" = true
  \/ Dom.hasAttribute (node state) "profile" = false ->
  raises_only nothing (TermOrCurie_init state inh).
Proof.
  intros H Hp.
  assert (Hrv : raises_only nothing (ProfileRead_init state)).
  { intros w e w'. now rewrite ProfileRead_init_reads_nothing. }
  unfold TermOrCurie_init, get_term_or_curie.
  destruct inh as [i|].
  - destruct (curie i) eqn:E; [|now destruct (H i eq_refl)]. ro.
  - ro.
Qed.

End Constructors.

Section FurtherProperties.

Context `{Ext : Externals}.

(** *** Building a context *)



(** *** Resolving attribute values *)


(** X4. [CURIE_to_URI] always returns and never warns: of the world it can
    only change the blank-node table, and it leaves the whole world as it is
    for a value that does not start with "_:". *)
Theorem CURIE_to_URI_touches_only_the_blank_node_table
  (state : ExecutionContext) (self : TermOrCurie) (val : string) (w : World) :
  exists r w',
    CURIE_to_URI state self val w = (Return r, w')
    /\ heap w' = heap w /\ next_ref w' = next_ref w
    /\ profile_cache w' = profile_cache w
    /\ profile_stack w' = profile_stack w
    /\ options w' = options w
    /\ graph_bindings w' = graph_bindings w /\ stdout w' = stdout w
    /\ (PyStr.startswith "_:" val = false -> w' = w).
Proof.
  unfold CURIE_to_URI.
  assert (Hsame : forall r : option Rdf.node, exists r0 w',
             (Return r, w) = (Return r0, w')
             /\ heap w' = heap w /\ next_ref w' = next_ref w
             /\ profile_cache w' = profile_cache w
             /\ profile_stack w' = profile_stack w
             /\ options w' = options w
             /\ graph_bindings w' = graph_bindings w /\ stdout w' = stdout w
             /\ (PyStr.startswith "_:" val = false -> w' = w)).
  { intros r. exists r, w. repeat split; reflexivity. }
  destruct (_ || _); [apply Hsame|].
  destruct (PyStr.split_colon val) as [[p reference]|] eqn:Es; [|apply Hsame].
  destruct (match PyStr.first_char reference with Some c => _ | None => _ end);
    [apply Hsame|].
  destruct (Nat.eqb (String.length _) 0); [apply Hsame|].
  destruct (String.eqb _ "_") eqn:Eu.
  - destruct (Nat.eqb (String.length reference) 0); [apply Hsame|].
    unfold bind, get.
    destruct (_bnodes w !! reference); [apply Hsame|].
    eexists _, _. split; [reflexivity|]. simpl. repeat split.
    assert (p = "_") as ->.
    { destruct (PyStr.ge (rdfa_version state) "1.1");
        [rewrite lower_underscore in Eu|]; now apply String.eqb_eq in Eu. }
    apply split_colon_Some in Es. subst val.
    change ("_" +:+ String ":" reference)
      with (String "_" (String ":" reference)).
    unfold PyStr.startswith. simpl. destruct reference; discriminate.
  - destruct (PyStr.ncname_match _); [|apply Hsame].
    unfold bind, Store.read_dict.
    destruct (_ !! _); [destruct (Nat.eqb _ 0)|]; apply Hsame.
Qed.

(** The blank-node table gives different names different blank nodes. *)
Definition bnodes_inj (w : World) : Prop :=
  forall x y b, _bnodes w !! x = Some b -> _bnodes w !! y = Some b -> x = y.

Lemma CURIE_to_URI_inj (state : ExecutionContext) (self : TermOrCurie)
  (val : string) (w : World) :
  bnodes_wf w -> bnodes_inj w ->
  bnodes_inj (snd (CURIE_to_URI state self val w)).
Proof.
  intros [Hpos Hwf] Hinj. unfold CURIE_to_URI.
  destruct (_ || _); [exact Hinj|].
  destruct (PyStr.split_colon val) as [[p reference]|]; [|exact Hinj].
  destruct (match PyStr.first_char reference with Some c => _ | None => _ end);
    [exact Hinj|].
  destruct (Nat.eqb (String.length _) 0); [exact Hinj|].
  destruct (String.eqb _ "_").
  - destruct (Nat.eqb (String.length reference) 0); [exact Hinj|].
    unfold bind, get.
    destruct (_bnodes w !! reference) eqn:E; [exact Hinj|]. simpl.
    intros x y b. simpl.
    destruct (decide (reference = x)) as [<-|Hx],
             (decide (reference = y)) as [<-|Hy]; [reflexivity| | |].
    + rewrite lookup_insert_eq, lookup_insert_ne by exact Hy.
      intros [= <-] H. apply Hwf in H. lia.
    + rewrite lookup_insert_eq, lookup_insert_ne by exact Hx.
      intros H [= <-]. apply Hwf in H. lia.
    + rewrite !lookup_insert_ne by assumption. apply Hinj.
  - destruct (PyStr.ncname_match _); [|exact Hinj].
    unfold bind, Store.read_dict. simpl.
    destruct (_ !! _); [destruct (Nat.eqb _ 0)|]; exact Hinj.
Qed.

Lemma initial_World_bnodes_inj (o : Options) : bnodes_inj (initial_World o).
Proof. intros x y b. simpl. now rewrite lookup_empty. Qed.

(** X5. In a session whose blank-node table is well formed and gives
    different names different nodes, ["_:x"] and ["_:y"] with different local
    names (not empty, not starting with a colon) resolve to different blank
    nodes, whichever contexts ask, and the table keeps both properties. *)
Theorem distinct_names_give_distinct_blank_nodes
  (state state' : ExecutionContext) (self self' : TermOrCurie)
  (x y : string) (w : World) :
  bnodes_wf w -> bnodes_inj w ->
  x <> "" -> PyStr.first_char x <> Some ":"%char ->
  y <> "" -> PyStr.first_char y <> Some ":"%char ->
  x <> y ->
  exists bx by' w1 w2,
    CURIE_to_URI state self ("_:" +:+ x) w = (Return (Some (Rdf.BNode bx)), w1)
    /\ CURIE_to_URI state' self' ("_:" +:+ y) w1
       = (Return (Some (Rdf.BNode by')), w2)
    /\ bx <> by'
    /\ bnodes_wf w2 /\ bnodes_inj w2.
Proof.
  intros Hwf Hinj Hx Hxc Hy Hyc Hxy.
  pose proof (CURIE_to_URI_keeps state self ("_:" +:+ x) w Hwf) as [Hwf1 _].
  pose proof (CURIE_to_URI_inj state self ("_:" +:+ x) w Hwf Hinj) as Hinj1.
  pose proof (CURIE_to_URI_bnode state self x w Hx Hxc) as E1.
  assert (exists bx w1,
            CURIE_to_URI state self ("_:" +:+ x) w
            = (Return (Some (Rdf.BNode bx)), w1)
            /\ _bnodes w1 !! x = Some bx) as (bx & w1 & E1' & Hbx).
  { rewrite E1. destruct (_bnodes w !! x) eqn:Eb; eexists _, _;
      (split; [reflexivity|]); [exact Eb|]. simpl. now rewrite lookup_insert_eq. }
  rewrite E1' in Hwf1, Hinj1. simpl in Hwf1, Hinj1.
  pose proof (CURIE_to_URI_keeps state' self' ("_:" +:+ y) w1 Hwf1)
    as [Hwf2 Hk2].
  pose proof (CURIE_to_URI_inj state' self' ("_:" +:+ y) w1 Hwf1 Hinj1)
    as Hinj2.
  pose proof (CURIE_to_URI_bnode state' self' y w1 Hy Hyc) as E2.
  assert (exists by' w2,
            CURIE_to_URI state' self' ("_:" +:+ y) w1
            = (Return (Some (Rdf.BNode by')), w2)
            /\ _bnodes w2 !! y = Some by') as (by' & w2 & E2' & Hby).
  { rewrite E2. destruct (_bnodes w1 !! y) eqn:Eb; eexists _, _;
      (split; [reflexivity|]); [exact Eb|]. simpl. now rewrite lookup_insert_eq. }
  rewrite E2' in Hwf2, Hinj2, Hk2. simpl in Hwf2, Hinj2, Hk2.
  exists bx, by', w1, w2.
  refine (conj E1' (conj E2' (conj _ (conj Hwf2 Hinj2)))).
  intros ->. apply Hxy. eapply Hinj2; [apply Hk2; exact Hbx|exact Hby].
Qed.

(** X6. Under a version of at least "1.1" the prefix of a CURIE is looked up
    without regard to the case of its letters: [p:r] and [lower(p):r] have
    the same resolution, in every world. *)
Theorem CURIE_prefix_is_case_insensitive_in_1_1
  (state : ExecutionContext) (self : TermOrCurie) (p r : string) (w : World) :
  PyStr.ge (rdfa_version state) "1.1" = true ->
  PyStr.has_colon p = false ->
  CURIE_to_URI state self (p +:+ ":" +:+ r) w
  = CURIE_to_URI state self (PyStr.lower p +:+ ":" +:+ r) w.
Proof.
  intros Hv Hp. change (":" +:+ r) with (String ":" r).
  assert (Hs : PyStr.split_colon p = None).
  { unfold PyStr.has_colon in Hp. now destruct (PyStr.split_colon p). }
  destruct p as [|c p]; [reflexivity|].
  assert (Hc : Ascii.eqb c ":" = false).
  { simpl in Hs. now destruct (Ascii.eqb c ":"). }
  assert (Hspecial : forall a q,
            Ascii.eqb a ":" = false ->
            String.eqb (String a q +:+ String ":" r) ""
            || String.eqb (String a q +:+ String ":" r) ":" = false).
  { intros a q Ha. rewrite append_cons. simpl. now rewrite Ha. }
  pose proof (Hspecial c p Hc) as E1.
  assert (E2 : String.eqb (PyStr.lower (String c p) +:+ String ":" r) ""
               || String.eqb (PyStr.lower (String c p) +:+ String ":" r) ":"
               = false).
  { apply (Hspecial (PyStr.lower_char c) (PyStr.lower p)).
    now rewrite lower_char_colon. }
  unfold CURIE_to_URI.
  rewrite E1, E2, (split_colon_app _ r Hs),
    (split_colon_app _ r (split_colon_None_lower _ Hs)), Hv, lower_idem.
  reflexivity.
Qed.

(** X7. For [about] and [resource]: a value without colon that does not
    start with a bracket is read as a plain URI, under every version; what
    [_CURIEorURI] does is what [_URI] does. *)
Theorem value_without_colon_is_a_plain_URI
  (self : ExecutionContext) (c : TermOrCurie) (val : string) (w : World) :
  curie self = Some c ->
  PyStr.has_colon val = false ->
  PyStr.first_char val <> Some "["%char ->
  _CURIEorURI self val w = _URI self val w.
Proof.
  intros Hc Hcolon Hb.
  assert (Hs : PyStr.split_colon val = None).
  { unfold PyStr.has_colon in Hcolon. now destruct (PyStr.split_colon val). }
  unfold _CURIEorURI.
  destruct (String.eqb val "") eqn:Ev.
  { apply String.eqb_eq in Ev. subst val. reflexivity. }
  assert (Hbr : match PyStr.first_char val with
                | Some c => Ascii.eqb c "["
                | None => false
                end = false).
  { destruct (PyStr.first_char val) as [a|]; [|reflexivity].
    destruct (Ascii.eqb a "[") eqn:Ea; [|reflexivity].
    apply Ascii.eqb_eq in Ea. now subst a. }
  rewrite Hbr. simpl.
  destruct (PyStr.ge (rdfa_version self) "1.1"); [|reflexivity].
  unfold get_curie. rewrite Hc, bind_ret.
  assert (E : CURIE_to_URI self c val w = (Return None, w)).
  { unfold CURIE_to_URI. rewrite Hs. now destruct (_ || _). }
  now rewrite (bind_Return _ _ _ _ _ E).
Qed.

(** X8. A value that starts with a bracket is never read as a plain URI.
    Without the closing bracket the answer is [None] with the warning
    "Illegal CURIE". With it, when the text between the brackets does not
    resolve as a CURIE, the answer is [None]; under a version of at least
    "1.1" one [UnresolvablePrefix] warning is added, under a lower version
    none. *)
Theorem safe_CURIE_never_falls_back_to_a_URI
  (self : ExecutionContext) (c : TermOrCurie) (val : string) (w : World) :
  curie self = Some c ->
  PyStr.first_char val = Some "["%char ->
  (PyStr.last_char val <> Some "]"%char ->
   _CURIEorURI self val w
   = (Return None,
      snd (Store.add_warning ("Illegal CURIE: " +:+ val)
             (Some UnresolvablePrefix) None w)))
  /\ (PyStr.last_char val = Some "]"%char ->
      forall w1,
        CURIE_to_URI self c (PyStr.strip_brackets val) w = (Return None, w1) ->
        _CURIEorURI self val w
        = (Return None,
           if PyStr.ge (rdfa_version self) "1.1"
           then snd (Store.add_warning
                       ("Safe CURIE was used but value does not correspond to a defined CURIE: ["
                        +:+ PyStr.strip_brackets val +:+ "]")
                       (Some UnresolvablePrefix) None w1)
           else w1)).
Proof.
  intros Hc Hf.
  assert (Ev : String.eqb val "" = false) by now destruct val.
  unfold _CURIEorURI. rewrite Ev, Hf. simpl (Ascii.eqb "[" "[").
  split.
  - intros Hl.
    assert (E : match PyStr.last_char val with
                | Some c => Ascii.eqb c "]"
                | None => false
                end = false).
    { destruct (PyStr.last_char val) as [a|]; [|reflexivity].
      destruct (Ascii.eqb a "]") eqn:Ea; [|reflexivity].
      apply Ascii.eqb_eq in Ea. now subst a. }
    rewrite E. reflexivity.
  - intros Hl w1 E. rewrite Hl. simpl.
    unfold get_curie. rewrite Hc.
    destruct (PyStr.ge (rdfa_version self) "1.1").
    + rewrite bind_ret, (bind_Return _ _ _ _ _ E). reflexivity.
    + rewrite bind_ret. exact E.
Qed.

(** X9. [_URI] does not lose the last character of the value: when the value
    ends with a character that is not white space (and, for a base with a
    scheme, [urljoin] answers a non-empty string), the URI reference returned
    ends with that character, also when [urljoin] has swallowed it. *)
Theorem _URI_keeps_the_last_character
  (self : ExecutionContext) (val : string) (a : ascii) (w : World) :
  PyStr.last_char val = Some a ->
  PyStr.is_space a = false ->
  (urlsplit_scheme (base self) <> "" -> urljoin (base self) val <> "") ->
  exists u w',
    _URI self val w = (Return (Some (Rdf.URIRef u)), w')
    /\ PyStr.last_char u = Some a.
Proof.
  intros Hl Ha Hj.
  assert (Ev : String.eqb val "" = false) by now destruct val.
  assert (Hs : PyStr.last_char (PyStr.strip val) = Some a)
    by now apply last_char_strip.
  unfold _URI. rewrite Ev.
  destruct (String.eqb (urlsplit_scheme (base self)) "") eqn:Eb.
  - destruct (String.eqb (urlsplit_scheme val) "").
    + eexists _, _. split; [reflexivity|]. now apply last_char_append.
    + unfold bind.
      destruct (check_create_URIRef_returns val w) as [w' ->].
      eexists _, _. split; [reflexivity|]. exact Hs.
  - apply String.eqb_neq in Eb. specialize (Hj Eb). rewrite Hl.
    destruct (PyStr.last_char (urljoin (base self) val)) as [b|] eqn:Ej.
    + destruct (Ascii.eqb a b) eqn:Eab; simpl; unfold bind.
      * apply Ascii.eqb_eq in Eab. subst b.
        destruct (check_create_URIRef_returns (urljoin (base self) val) w)
          as [w' ->].
        eexists _, _. split; [reflexivity|]. now apply last_char_strip.
      * destruct (check_create_URIRef_returns
                    (urljoin (base self) val +:+ PyStr.of_char a) w)
          as [w' ->].
        eexists _, _. split; [reflexivity|].
        apply last_char_strip; [apply last_char_app|exact Ha].
    + destruct (urljoin (base self) val) as [|x s] eqn:Eu; [contradiction|].
      exfalso. clear -Ej. revert x Ej.
      induction s as [|y s IH]; intros x; [discriminate|].
      simpl. apply IH.
Qed.


(** X11. For an attribute that takes a list of values ([profile], [rel],
    [rev], [property], [typeof]): when the node does not carry it, or carries
    it with an empty or blank value, [getURI] answers the empty list and
    leaves the world as it is. *)
Theorem list_attribute_without_tokens_gives_the_empty_list
  (self : ExecutionContext) (attr : string) (w : World) :
  PyStr.mem attr _list = true ->
  PyStr.all_chars PyStr.is_space (Dom.getAttribute (node self) attr) = true ->
  getURI self attr w = (Return (Many []), w).
Proof.
  intros Hl Hb. unfold getURI. rewrite Hl.
  destruct (Dom.hasAttribute (node self) attr); [|reflexivity].
  now rewrite (split_blank _ Hb).
Qed.

(** X12. A value of NCNAME shape is resolved as a term and as nothing else.
    When the term table has no entry for its lower-cased form: with a default
    term URI [v], the answer is the URI reference [v + val] (the case of
    [val] kept) and nothing is warned; without one, the answer is [None]
    and one [UnresolvableTerm] warning is added. *)
Theorem term_outside_the_table
  (self : ExecutionContext) (c : TermOrCurie) (val : string) (w : World) :
  curie self = Some c ->
  PyStr.ncname_match val = true ->
  Store.content w (terms c) !! PyStr.lower val = None ->
  (forall v, default_term_uri c = Some v ->
     _TERMorCURIEorAbsURI self val w
     = (Return (Some (Rdf.URIRef (str v +:+ val))), w))
  /\ (default_term_uri c = None ->
      _TERMorCURIEorAbsURI self val w
      = (Return None,
         snd (Store.add_warning ("Unresolvable term: " +:+ val)
                (Some UnresolvableTerm) None w))).
Proof.
  intros Hc Hn Ht.
  assert (Ev : String.eqb val "" = false) by now destruct val.
  assert (El : Nat.eqb (String.length val) 0 = false) by now destruct val.
  assert (T : term_to_URI c val w
              = (Return match default_term_uri c with
                        | Some v => Some (Rdf.URIRef (str v +:+ val))
                        | None => None
                        end, w)).
  { unfold term_to_URI. rewrite El, Hn. unfold bind, Store.read_dict.
    rewrite Ht. now destruct (default_term_uri c). }
  unfold _TERMorCURIEorAbsURI, get_curie.
  rewrite Ev, Hn, Hc, bind_ret, (bind_Return _ _ _ _ _ T).
  split.
  - intros v Hv. rewrite Hv.
    assert (Q : truthy (Some (Rdf.URIRef (str v +:+ val))) = true).
    { simpl. destruct (str v); [|reflexivity].
      rewrite append_nil. now destruct val. }
    now rewrite Q.
  - intros Hd. rewrite Hd. reflexivity.
Qed.

End FurtherProperties.

(** *** Walking a program with an invariant *)

Create HintDb keep discriminated.

Ltac keep_step :=
  lazymatch goal with
  | |- preserves _ (ret _) => apply preserves_ret
  | |- preserves _ (raise _) => apply preserves_raise
  | |- preserves _ get => apply preserves_get
  | |- preserves _ (when _ _) => apply preserves_when
  | |- preserves _ (bind _ _) => apply preserves_bind; [|intros ?]
  | |- preserves _ (try_except _ _) =>
      apply preserves_try_except; [|intros ?]
  | |- preserves _ (mapM _ _) => apply preserves_mapM; intros ?
  | |- preserves _ (forM_ _ _) => apply preserves_forM_; intros ?
  | |- preserves _ (if ?b then _ else _) => destruct b
  | |- preserves _ (match ?x with _ => _ end) => destruct x
  | |- preserves _ (let _ := _ in _) => cbv zeta
  end.

Ltac keep := repeat keep_step; eauto with keep.

(** A computation that always returns and keeps [K] returns in a world with
    [K]. *)
Lemma runs {A} (c : M A) (K : World -> Prop) (x : World) :
  raises_only nothing c -> preserves K c -> K x ->
  exists a x', c x = (Return a, x') /\ K x'.
Proof.
  intros Hr Hk Hx. destruct (raises_only_returns c x Hr) as (a & x' & E).
  exists a, x'. split; [exact E|]. specialize (Hk x Hx). now rewrite E in Hk.
Qed.

(** *** The class-level profile cache and stack *)

(** The profile cache is [c] and the profile stack is [s]. *)
Definition Profiles (c : gmap string (nat * nat)) (s : list string)
  (w : World) : Prop :=
  profile_cache w = c /\ profile_stack w = s.

Section ProfilesKept.

Context `{Ext : Externals}.
Variables (c : gmap string (nat * nat)) (s : list string).

Local Abbreviation K := (Profiles c s).

Lemma new_dict_Profiles : preserves K Store.new_dict.
Proof. now intros w. Qed.

Lemma read_dict_Profiles r : preserves K (Store.read_dict r).
Proof. now intros w. Qed.

Lemma setitem_Profiles r k v : preserves K (Store.setitem r k v).
Proof. now intros w. Qed.

Lemma update_from_Profiles d src : preserves K (Store.update_from d src).
Proof. now intros w. Qed.

Lemma add_warning_Profiles txt k ctx :
  preserves K (Store.add_warning txt k ctx).
Proof. now intros w. Qed.

Lemma graph_bind_Profiles p n : preserves K (Store.graph_bind p n).
Proof. now intros w. Qed.

Lemma print_Profiles t : preserves K (Store.print t).
Proof. now intros w. Qed.

Lemma warn_prefix_Profiles txt : preserves K (warn_prefix txt).
Proof. now intros w. Qed.

Lemma quote_URI_M_Profiles uri : preserves K (quote_URI_M uri).
Proof.
  intros w Hw. unfold quote_URI_M. now destruct (quote_URI uri (options w)).
Qed.

#[local] Hint Resolve new_dict_Profiles read_dict_Profiles setitem_Profiles
  update_from_Profiles add_warning_Profiles graph_bind_Profiles
  print_Profiles warn_prefix_Profiles quote_URI_M_Profiles : keep.

Lemma CURIE_to_URI_Profiles state self val :
  preserves K (CURIE_to_URI state self val).
Proof. unfold CURIE_to_URI. keep. Qed.

Lemma term_to_URI_Profiles self term : preserves K (term_to_URI self term).
Proof. unfold term_to_URI. keep. Qed.

Lemma get_curie_Profiles self : preserves K (get_curie self).
Proof. unfold get_curie. keep. Qed.

Lemma check_create_URIRef_Profiles uri :
  preserves K (check_create_URIRef uri).
Proof. unfold check_create_URIRef. keep. Qed.

#[local] Hint Resolve CURIE_to_URI_Profiles term_to_URI_Profiles
  get_curie_Profiles check_create_URIRef_Profiles : keep.

Lemma getURI_Profiles self attr : preserves K (getURI self attr).
Proof.
  unfold getURI, run_strategy, _URI, _CURIEorURI, _TERMorCURIEorAbsURI, _URI.
  keep.
Qed.

Lemma find_one_Profiles self graph prof tp otp term :
  preserves K (find_one self graph prof tp otp term).
Proof. unfold find_one. keep. Qed.

Lemma _find_terms_Profiles self graph prof tp :
  preserves K (_find_terms self graph prof tp).
Proof. unfold _find_terms. keep. apply find_one_Profiles. Qed.

Lemma settle_terms_Profiles inherited rv :
  preserves K (settle_terms inherited rv).
Proof. unfold settle_terms. keep. Qed.

Lemma settle_ns_Profiles inherited dict :
  preserves K (settle_ns inherited dict).
Proof. unfold settle_ns. keep. Qed.

Lemma settle_default_term_uri_Profiles state inherited rv :
  preserves K (settle_default_term_uri state inherited rv).
Proof.
  pose proof getURI_Profiles. unfold settle_default_term_uri. keep.
Qed.

Lemma xmlns_step_Profiles state dict a :
  preserves K (xmlns_step state dict a).
Proof. unfold xmlns_step. keep. Qed.

Lemma prefix_loop_Profiles pr dict dc l :
  preserves K (prefix_loop pr dict dc l).
Proof.
  remember (length l) as n eqn:En. revert l dc En.
  induction n as [n IH] using lt_wf_ind. intros l dc ->.
  destruct l as [|p [|v rest]]; simpl; [keep..|].
  assert (Hrest : forall dc', preserves K (prefix_loop pr dict dc' rest)).
  { intros dc'. eapply (IH (length rest)); [simpl; lia|reflexivity]. }
  keep.
Qed.

Lemma local_namespaces_Profiles state rv dc :
  preserves K (local_namespaces state rv dc).
Proof.
  pose proof (xmlns_step_Profiles state). pose proof prefix_loop_Profiles.
  unfold local_namespaces. keep.
Qed.

End ProfilesKept.

Section ProfileProperties.

Context `{Ext : Externals}.

#[local] Hint Resolve new_dict_Profiles read_dict_Profiles setitem_Profiles
  update_from_Profiles add_warning_Profiles graph_bind_Profiles
  print_Profiles warn_prefix_Profiles quote_URI_M_Profiles
  getURI_Profiles _find_terms_Profiles settle_terms_Profiles
  settle_ns_Profiles settle_default_term_uri_Profiles
  local_namespaces_Profiles : keep.

(** *** Reading the definitions of a profile *)

(** The table [_find_terms] fills: the term table for "term", the prefix
    table otherwise. *)
Definition target (self : ProfileRead) (term_or_prefix : string) : nat :=
  if String.eqb term_or_prefix "term" then pr_terms self else pr_ns self.

(** What the body of the loop of [_find_terms] does to the world: it adds
    one warning, or it writes one entry. *)
Lemma find_one_effect self graph prof tp otp term w :
  exists w',
    find_one self graph prof tp otp term w = (Return tt, w')
    /\ ((exists txt,
           w' = snd (Store.add_warning txt (Some IncorrectProfileDefinition)
                       (Some prof) w))
        \/ (Rdf.isinstance_Literal term = true
            /\ PyStr.ncname_match (str term) = true
            /\ (String.eqb tp "term" = true -> options w' = options w)
            /\ next_ref w' = next_ref w
            /\ profile_cache w' = profile_cache w
            /\ exists v,
                 heap w'
                 = <[target self tp :=
                       <[PyStr.lower (str term) := v]>
                         (Store.content w (target self tp))]> (heap w))).
Proof.
  unfold find_one, target. cbv zeta.
  destruct (Rdf.isinstance_Literal term) eqn:El; simpl negb; cbv iota;
    [|eexists; split; [reflexivity|left; eexists; reflexivity]].
  destruct (PyStr.ncname_match (str term)) eqn:En; simpl negb; cbv iota;
    [|eexists; split; [reflexivity|left; eexists; reflexivity]].
  destruct (Rdf.subjects graph _ term) as [|subj [|subj' l]];
    [eexists; split; [reflexivity|left; eexists; reflexivity]|
    |eexists; split; [reflexivity|left; eexists; reflexivity]].
  destruct (negb (Nat.eqb _ 1));
    [eexists; split; [reflexivity|left; eexists; reflexivity]|].
  destruct (List.last _ None);
    [eexists; split; [reflexivity|left; eexists; reflexivity]|].
  destruct (Rdf.objects graph (Some subj) (Rdf.URIRef (ns_rdfa +:+ "uri")))
    as [|uri [|uri' l]];
    [eexists; split; [reflexivity|left; eexists; reflexivity]|
    |eexists; split; [reflexivity|left; eexists; reflexivity]].
  destruct (String.eqb tp "term").
  - eexists. split; [reflexivity|]. right. simpl.
    repeat (split; [reflexivity|]). eexists. reflexivity.
  - unfold bind, quote_URI_M. change (negb true) with false. cbv beta iota.
    destruct (quote_URI (str uri) (options w)) as [q o]. simpl.
    eexists. split; [reflexivity|]. right. simpl.
    split; [reflexivity|]. split; [reflexivity|].
    split; [discriminate|]. split; [reflexivity|]. split; [reflexivity|].
    eexists. reflexivity.
Qed.


(** X14. A definition of a profile is taken whole or not at all. For each
    term (or prefix) of the graph, the loop of [_find_terms] either adds
    exactly one warning, of type [IncorrectProfileDefinition] and with the
    profile URI as context, and leaves every dictionary as it is; or it
    writes exactly one entry, under the lower-cased text of a literal of
    NCNAME shape, into the table of its kind, and for a term it warns
    nothing. It never raises. *)
Theorem faulty_definition_is_ignored_with_one_warning
  (self : ProfileRead) (graph : Rdf.Graph) (prof tp otp : string)
  (term : Rdf.node) (w : World) :
  exists w',
    find_one self graph prof tp otp term w = (Return tt, w')
    /\ ((heap w' = heap w
         /\ exists txt,
              warnings (options w')
              = warnings (options w)
                ++ [mkWarning txt (Some IncorrectProfileDefinition)
                      (Some prof)])
        \/ (Rdf.isinstance_Literal term = true
            /\ PyStr.ncname_match (str term) = true
            /\ (String.eqb tp "term" = true ->
                warnings (options w') = warnings (options w))
            /\ exists v,
                 heap w'
                 = <[target self tp :=
                       <[PyStr.lower (str term) := v]>
                         (Store.content w (target self tp))]> (heap w))).
Proof.
  destruct (find_one_effect self graph prof tp otp term w)
    as (w' & E & [[txt ->]|(Hl & Hn & Ho & _ & _ & v & Hh)]).
  - eexists. split; [exact E|]. left. split; [reflexivity|].
    exists txt. reflexivity.
  - exists w'. split; [exact E|]. right.
    split; [exact Hl|]. split; [exact Hn|]. split; [|eauto].
    intros Ht. now rewrite (Ho Ht).
Qed.

(** X15. [_find_terms] writes into one dictionary only, the term table of
    the instance for "term" and its prefix table otherwise; it makes no
    dictionary and leaves the profile cache alone; and every key it adds is
    a lower-case string of NCNAME shape. *)
Theorem _find_terms_writes_lower_case_NCNames
  (self : ProfileRead) (graph : Rdf.Graph) (prof tp : string) (w : World) :
  let w' := snd (_find_terms self graph prof tp w) in
  (forall r, r <> target self tp -> heap w' !! r = heap w !! r)
  /\ next_ref w' = next_ref w
  /\ profile_cache w' = profile_cache w
  /\ forall k v,
       Store.content w' (target self tp) !! k = Some v ->
       Store.content w (target self tp) !! k = Some v
       \/ (PyStr.lower k = k /\ PyStr.ncname_match k = true).
Proof.
  set (d := target self tp).
  set (I := fun x : World =>
              (forall r, r <> d -> heap x !! r = heap w !! r)
              /\ next_ref x = next_ref w
              /\ profile_cache x = profile_cache w
              /\ forall k v,
                   Store.content x d !! k = Some v ->
                   Store.content w d !! k = Some v
                   \/ (PyStr.lower k = k /\ PyStr.ncname_match k = true)).
  assert (H : preserves I (_find_terms self graph prof tp)).
  { unfold _find_terms. cbv zeta. apply preserves_forM_.
    intros term x (H1 & H2 & H3 & H4).
    destruct (find_one_effect self graph prof tp
                (if String.eqb tp "term" then "prefix" else "term") term x)
      as (x' & -> & [[txt ->]|(_ & Hn & _ & Hr & Hc & v & Hh)]).
    - simpl. unfold I. auto.
    - simpl. fold d in Hh. unfold I. split; [|split; [|split]].
      + intros r Hd. rewrite Hh, lookup_insert_ne by congruence. now apply H1.
      + congruence.
      + congruence.
      + intros k v0. unfold Store.content at 1.
        rewrite Hh, lookup_insert_eq. simpl.
        destruct (decide (PyStr.lower (str term) = k)) as [<-|Hk].
        * intros _. right. now rewrite lower_idem, ncname_match_lower.
        * rewrite lookup_insert_ne by exact Hk. apply H4. }
  apply H. unfold I. auto.
Qed.

(** *** The profile stack and the profile cache *)

Lemma mem_last (x : string) (l : list string) : PyStr.mem x (l ++ [x]) = true.
Proof.
  unfold PyStr.mem. rewrite existsb_app. simpl.
  now rewrite String.eqb_refl, orb_true_r.
Qed.

(** X16. A profile whose document cannot be retrieved stays on the profile
    stack: the exception leaves the loop before the stack is popped, so that
    in the world the failure leaves, every later reading of the same profile
    URI is skipped without fetching and without exception. *)
Theorem failed_profile_stays_on_the_stack
  (self self' : ProfileRead) (p : Rdf.node) (w : World) :
  String.eqb (str p) GRDDL_PROFILE = false ->
  on_stack (str p) w = false ->
  profile_cache w !! str p = None ->
  document_status (str p) (pushed (str p) w) = Unreachable ->
  (exists msg code,
     ProfileRead_step self p w
     = (Raise (FailedProfile msg (str p) code), pushed (str p) w))
  /\ ProfileRead_step self' p (pushed (str p) w)
     = (Return self', pushed (str p) w).
Proof.
  intros Hg Hs Hc Hd. split.
  - unfold ProfileRead_step. rewrite Hg.
    unfold bind at 1. unfold get. rewrite Hs.
    unfold bind at 1. unfold stack_append, modify. rewrite Hc.
    unfold bind at 1. fold (pushed (str p) w).
    revert Hd. unfold document_status, _get_graph.
    destruct (CachedURIOpener (str p)) as [ct data| | |];
      [|unfold raise; eauto ..].
    intros Hd. exfalso. revert Hd.
    destruct (String.eqb ct MediaTypes_turtle);
      [destruct (parse_n3 data); discriminate|].
    destruct (String.eqb ct MediaTypes_rdfxml);
      [destruct (parse_rdfxml data); discriminate|].
    destruct (String.eqb ct MediaTypes_nt);
      [destruct (parse_nt data); discriminate|].
    destruct (_ || _); [|discriminate].
    destruct (fst _); discriminate.
  - apply step_on_stack. unfold on_stack, pushed. simpl. apply mem_last.
Qed.

(** X17. A profile is fetched once. When the profile is read for the first
    time (not the GRDDL profile, not on the stack, not in the cache) and its
    document is fetched and decoded into a graph, the loop body returns, the
    instance keeps its two dictionary objects, the cache maps the URI to
    these two objects, and the stack is as before; from then on, every
    instance that reads the same URI gets these two objects from the cache
    and the world stays as it is. *)
Theorem profile_is_fetched_once
  (self other : ProfileRead) (p : Rdf.node) (g : Rdf.Graph) (w : World) :
  String.eqb (str p) GRDDL_PROFILE = false ->
  on_stack (str p) w = false ->
  profile_cache w !! str p = None ->
  _get_graph (str p) (pushed (str p) w) = (Return (Some g), pushed (str p) w) ->
  exists self' w',
    ProfileRead_step self p w = (Return self', w')
    /\ pr_terms self' = pr_terms self /\ pr_ns self' = pr_ns self
    /\ profile_cache w'
       = <[str p := (pr_terms self, pr_ns self)]> (profile_cache w)
    /\ profile_stack w' = profile_stack w
    /\ ProfileRead_step other p w'
       = (Return {| pr_terms := pr_terms self; pr_ns := pr_ns self;
                    vocabulary := vocabulary other |}, w').
Proof.
  intros Hg Hs Hc Hgraph.
  set (K := Profiles (profile_cache w) (profile_stack w ++ [str p])).
  assert (K0 : K (pushed (str p) w)) by (split; reflexivity).
  assert (Htail : forall self1 x,
            K x ->
            pr_terms self1 = pr_terms self -> pr_ns self1 = pr_ns self ->
            exists w',
              (let* _ := _find_terms self1 g (str p) "term" in
               let* _ := _find_terms self1 g (str p) "prefix" in
               let* _ := cache_store (str p) (pr_terms self1, pr_ns self1) in
               let* _ := stack_pop in
               ret self1) x = (Return self1, w')
              /\ profile_cache w'
                 = <[str p := (pr_terms self, pr_ns self)]> (profile_cache w)
              /\ profile_stack w' = profile_stack w).
  { intros self1 x Kx Ht Hn.
    destruct (runs (_find_terms self1 g (str p) "term") K x
                (_find_terms_ro nothing _ _ _ _)
                (_find_terms_Profiles _ _ _ _ _ _) Kx)
      as ([] & x1 & E1 & K1).
    destruct (runs (_find_terms self1 g (str p) "prefix") K x1
                (_find_terms_ro nothing _ _ _ _)
                (_find_terms_Profiles _ _ _ _ _ _) K1)
      as ([] & x2 & E2 & [Kc Ks]).
    rewrite (bind_Return _ _ _ _ _ E1), (bind_Return _ _ _ _ _ E2).
    unfold bind, cache_store, stack_pop, modify, ret. simpl.
    eexists. split; [reflexivity|]. simpl.
    rewrite Kc, Ks, Ht, Hn, removelast_last. split; reflexivity. }
  assert (Hstep : exists self' w',
            ProfileRead_step self p w = (Return self', w')
            /\ pr_terms self' = pr_terms self /\ pr_ns self' = pr_ns self
            /\ profile_cache w'
               = <[str p := (pr_terms self, pr_ns self)]> (profile_cache w)
            /\ profile_stack w' = profile_stack w).
  { unfold ProfileRead_step. rewrite Hg.
    unfold bind at 1. unfold get. rewrite Hs.
    unfold bind at 1. unfold stack_append, modify. rewrite Hc.
    unfold bind at 1. fold (pushed (str p) w). rewrite Hgraph.
    destruct (Rdf.objects g None (Rdf.URIRef (ns_rdfa +:+ "vocabulary")))
      as [|v [|v' l]].
    - rewrite bind_ret.
      destruct (Htail self _ K0 eq_refl eq_refl) as (w' & E & H1 & H2).
      exists self, w'. auto.
    - rewrite bind_ret.
      destruct (Htail {| pr_terms := pr_terms self; pr_ns := pr_ns self;
                         vocabulary := Some v |} _ K0 eq_refl eq_refl)
        as (w' & E & H1 & H2).
      eexists _, w'. split; [exact E|]. auto.
    - unfold bind at 1. unfold bind at 1. unfold Store.add_warning, modify, ret.
      simpl.
      match goal with |- context [bind _ _ ?x] =>
        assert (Kx : K x) by (split; reflexivity);
        destruct (Htail self x Kx eq_refl eq_refl) as (w' & E & H1 & H2)
      end.
      exists self, w'. auto. }
  destruct Hstep as (self' & w' & E & Ht & Hn & H1 & H2).
  exists self', w'.
  refine (conj E (conj Ht (conj Hn (conj H1 (conj H2 _))))).
  apply step_cache_hit; [exact Hg| |].
  - unfold on_stack. rewrite H2. exact Hs.
  - rewrite H1. apply lookup_insert_eq.
Qed.

(** *** RDFa 1.0 *)

Lemma local_namespaces_1_0 state rv dc x d dc' x' :
  PyStr.ge (rdfa_version state) "1.1" = false ->
  local_namespaces state rv dc x = (Return (d, dc'), x') -> dc' = dc.
Proof.
  intros Hv. unfold local_namespaces. rewrite Hv. simpl andb. cbv iota.
  intros H.
  apply bind_inv in H as (? & ? & _ & H).
  apply bind_inv in H as (? & ? & _ & H).
  apply bind_inv in H as (? & ? & _ & H).
  apply bind_inv in H as (? & ? & _ & H).
  now injection H as _ <- _.
Qed.

(** X18. Under a version below "1.1" the [profile], [vocab] and [prefix]
    attributes are not looked at: [TermOrCurie.__init__] always returns (for
    a root, or a parent that has its [TermOrCurie]), whatever the profile
    documents are; the instance has no default term URI; its default CURIE
    URI is the inherited one, or the XHTML vocabulary for a root; and the
    profile cache and stack are left as they were. *)
Theorem RDFa_1_0_ignores_profile_vocab_and_prefix
  (state : ExecutionContext) (inh : option ExecutionContext) (w : World) :
  PyStr.ge (rdfa_version state) "1.1" = false ->
  (forall i, inh = Some i -> curie i <> None) ->
  exists c w',
    TermOrCurie_init state inh w = (Return c, w')
    /\ default_term_uri c = None
    /\ default_curie_uri c
       = match inh with
         | Some i => match curie i with
                     | Some ci => default_curie_uri ci
                     | None => XHTML_URI
                     end
         | None => XHTML_URI
         end
    /\ profile_cache w' = profile_cache w
    /\ profile_stack w' = profile_stack w.
Proof.
  intros Hv Hinh.
  assert (Hlt : PyStr.lt (rdfa_version state) "1.1" = true)
    by (unfold PyStr.lt; now rewrite Hv).
  set (K := Profiles (profile_cache w) (profile_stack w)).
  assert (Hrv : preserves K (ProfileRead_init state)).
  { intros x Hx. rewrite ProfileRead_init_reads_nothing by (now left).
    exact Hx. }
  assert (HK : preserves K (TermOrCurie_init state inh)).
  { unfold TermOrCurie_init, get_term_or_curie. keep. }
  destruct (runs _ K w
              (TermOrCurie_init_without_profile state inh Hinh (or_introl Hlt))
              HK (conj eq_refl eq_refl))
    as (c & w' & E & [Kc Ks]).
  exists c, w'. split; [exact E|].
  unfold TermOrCurie_init in E.
  apply bind_inv in E as (inherited & w0 & H0 & E).
  apply bind_inv in E as (dc0 & w1 & H1 & E).
  apply bind_inv in E as (rv & w2 & _ & E).
  apply bind_inv in E as (dt & w3 & H3 & E).
  apply bind_inv in E as (t & w4 & _ & E).
  apply bind_inv in E as ([dict dc] & w5 & H5 & E).
  apply bind_inv in E as (n & w6 & _ & E).
  injection E as <- _. simpl.
  split; [|split; [|split; assumption]].
  - unfold settle_default_term_uri in H3. rewrite Hv in H3.
    now injection H3 as <- _.
  - apply (local_namespaces_1_0 _ _ _ _ _ _ _ Hv) in H5. subst dc.
    destruct inh as [i|].
    + unfold get_term_or_curie in H0.
      destruct (curie i) as [ci|]; [|discriminate].
      unfold bind, ret in H0. injection H0 as <- _.
      now injection H1 as <- _.
    + injection H0 as <- _. unfold bind, Store.graph_bind, modify, ret in H1.
      now injection H1 as <- _.
Qed.

End ProfileProperties.

Section ContextProperties.

Context `{Ext : Externals}.

(** *** The fields of a new context *)

(** What [ExecutionContext.__init__] returns, step by step. *)
Lemma ExecutionContext_init_fields nd html inh base_arg options_arg w ctx w' :
  ExecutionContext_init nd html inh base_arg options_arg w = (Return ctx, w') ->
  exists w0 c w1,
    settle_base nd html inh base_arg options_arg w
    = (Return (rdfa_version ctx, base ctx), w0)
    /\ TermOrCurie_init
         {| node := nd; rdfa_version := rdfa_version ctx; base := base ctx;
            curie := None; lang := None; defaultNS := None |} inh w0
       = (Return c, w1)
    /\ curie ctx = Some c.
Proof.
  unfold ExecutionContext_init. intros H.
  apply bind_inv in H as ([version b] & w0 & Hb & H).
  apply bind_inv in H as (c & w1 & Hc & H).
  apply bind_inv in H as (l & w2 & _ & H).
  injection H as <- _. simpl. eauto 10.
Qed.

(** X19. The RDFa version is fixed for the whole tree: a root context has
    [rdfa_current_version], whatever the [version] attribute of the document
    element says ("XHTML+RDFa 1.0" included), and a child has the version of
    its parent. *)
Theorem rdfa_version_is_fixed_for_the_tree
  (nd html : Dom.Node) (inh : option ExecutionContext) (base_arg : string)
  (options_arg : option Options) (w w' : World) (ctx : ExecutionContext) :
  ExecutionContext_init nd html inh base_arg options_arg w = (Return ctx, w') ->
  rdfa_version ctx
  = match inh with
    | Some i => rdfa_version i
    | None => rdfa_current_version
    end.
Proof.
  intros H.
  destruct (ExecutionContext_init_fields _ _ _ _ _ _ _ _ H)
    as (w0 & c & w1 & Hb & _ & _).
  unfold settle_base in Hb. destruct inh as [i|].
  - unfold bind, get in Hb. destruct (_ && _); now injection Hb as <- _ _.
  - unfold bind, modify, get, ret in Hb.
    destruct (Dom.hasAttribute html "version" && _);
      now injection Hb as <- _ _.
Qed.

(** X20. The base of a child context: the [xml:base] attribute of the node
    when the host language is [rdfa_core] and the node has one, the base of
    the parent otherwise. In the HTML host languages [xml:base] is not
    looked at; the [base] argument of the constructor is not used for a
    child. *)
Theorem base_of_a_child
  (nd html : Dom.Node) (i : ExecutionContext) (base_arg : string)
  (options_arg : option Options) (w w' : World) (ctx : ExecutionContext) :
  ExecutionContext_init nd html (Some i) base_arg options_arg w
  = (Return ctx, w') ->
  base ctx
  = if is_rdfa_core (host_language (options w))
       && Dom.hasAttribute nd "xml:base"
    then Dom.getAttribute nd "xml:base"
    else base i.
Proof.
  intros H.
  destruct (ExecutionContext_init_fields _ _ _ _ _ _ _ _ H)
    as (w0 & c & w1 & Hb & _ & _).
  unfold settle_base, bind, get in Hb.
  destruct (_ && _); now injection Hb as _ <- _.
Qed.

Lemma fold_left_last_href (l1 l2 : list Dom.Node) (b : Dom.Node) (init : string) :
  Dom.hasAttribute b "href" = true ->
  Forall (fun x => Dom.hasAttribute x "href" = false) l2 ->
  fold_left (fun acc bases =>
               if Dom.hasAttribute bases "href"
               then Dom.getAttribute bases "href" else acc)
            (l1 ++ b :: l2) init
  = Dom.getAttribute b "href".
Proof.
  intros Hb Hl2. rewrite fold_left_app. simpl. rewrite Hb.
  generalize (Dom.getAttribute b "href").
  induction Hl2 as [|x l Hx _ IH]; intros v; [reflexivity|].
  simpl. rewrite Hx. apply IH.
Qed.

(** X21. The base of a root context in the HTML host languages: when the
    node has [base] elements below it, the [href] of the last one that has
    an [href] attribute is the base (the loop does not stop at the first);
    when that [href] is empty, the [base] argument of the constructor is
    used. *)
Theorem last_base_element_wins
  (nd html : Dom.Node) (base_arg : string) (options_arg : option Options)
  (w w' : World) (ctx : ExecutionContext)
  (l1 l2 : list Dom.Node) (b : Dom.Node) :
  ExecutionContext_init nd html None base_arg options_arg w = (Return ctx, w') ->
  is_html_family
    (host_language match options_arg with
                   | None => default_Options
                   | Some o => o
                   end) = true ->
  Dom.getElementsByTagName nd "base" = l1 ++ b :: l2 ->
  Dom.hasAttribute b "href" = true ->
  Forall (fun x => Dom.hasAttribute x "href" = false) l2 ->
  base ctx
  = if String.eqb (Dom.getAttribute b "href") ""
    then base_arg else Dom.getAttribute b "href".
Proof.
  intros H Hh Hl Hb Hl2.
  destruct (ExecutionContext_init_fields _ _ _ _ _ _ _ _ H)
    as (w0 & c & w1 & Hbase & _ & _).
  unfold settle_base, bind, modify, get, ret in Hbase. simpl in Hbase.
  rewrite Hh in Hbase.
  assert (Hcore : is_rdfa_core
                    (host_language match options_arg with
                                   | None => default_Options
                                   | Some o => o
                                   end) = false).
  { destruct (host_language _); [discriminate|reflexivity..]. }
  rewrite Hcore in Hbase. simpl in Hbase.
  rewrite Hl, (fold_left_last_href l1 l2 b "" Hb Hl2) in Hbase.
  now injection Hbase as _ <- _.
Qed.

(** *** The default term URI *)

(** The URI reference [_URI] returns does not depend on the world. *)
Lemma _URI_value (self : ExecutionContext) (val : string) :
  exists u, forall x, exists x',
    _URI self val x = (Return (Some (Rdf.URIRef u)), x').
Proof.
  unfold _URI.
  destruct (String.eqb val ""); [eexists; intros x; unfold ret; eauto|].
  destruct (String.eqb (urlsplit_scheme (base self)) "").
  - destruct (String.eqb (urlsplit_scheme val) "");
      [eexists; intros x; unfold ret; eauto|].
    eexists. intros x. unfold bind.
    destruct (check_create_URIRef_returns val x) as [x' ->].
    unfold ret. eauto.
  - destruct (PyStr.last_char val) as [a|],
      (PyStr.last_char (urljoin (base self) val)) as [b|];
      try destruct (negb (Ascii.eqb a b)); eexists; intros x; unfold bind;
      match goal with |- context [check_create_URIRef ?y x] =>
        destruct (check_create_URIRef_returns y x) as [x' ->] end;
      unfold ret; eauto.
Qed.

(** X22. Under a version of at least "1.1", the [vocab] attribute of the
    node decides the default term URI: it is the URI reference [_URI] makes
    of the stripped attribute value, whatever the profiles and the parent
    say, unless that reference is the empty string. An empty or blank
    [vocab] therefore gives the base of the context as default term URI; it
    does not remove the default. *)
Theorem local_vocab_sets_the_default_term_URI
  (state : ExecutionContext) (inh : option ExecutionContext)
  (w w' : World) (c : TermOrCurie) :
  PyStr.ge (rdfa_version state) "1.1" = true ->
  Dom.hasAttribute (node state) "vocab" = true ->
  TermOrCurie_init state inh w = (Return c, w') ->
  let v := PyStr.strip (Dom.getAttribute (node state) "vocab") in
  exists u,
    (forall x, fst (_URI state v x) = Return (Some (Rdf.URIRef u)))
    /\ (u <> "" -> default_term_uri c = Some (Rdf.URIRef u))
    /\ (v = "" -> u = base state).
Proof.
  intros Hv Hvocab H v.
  destruct (_URI_value state v) as [u Hu].
  exists u. split; [|split].
  - intros x. destruct (Hu x) as [x' ->]. reflexivity.
  - intros Hne. unfold TermOrCurie_init in H.
    apply bind_inv in H as (inherited & w0 & _ & H).
    apply bind_inv in H as (dc0 & w1 & _ & H).
    apply bind_inv in H as (rv & w2 & _ & H).
    apply bind_inv in H as (dt & w3 & H3 & H).
    apply bind_inv in H as (t & w4 & _ & H).
    apply bind_inv in H as ([dict dc] & w5 & _ & H).
    apply bind_inv in H as (n & w6 & _ & H).
    injection H as <- _. simpl.
    unfold settle_default_term_uri in H3. rewrite Hv in H3.
    apply bind_inv in H3 as (r1 & x1 & _ & H3).
    apply bind_inv in H3 as (def & x2 & Hdef & H3).
    unfold getURI in Hdef. rewrite Hvocab in Hdef.
    change (PyStr.mem "vocab" _list) with false in Hdef.
    change (getitem _resource_type "vocab") with (Some _URI_) in Hdef.
    cbv iota in Hdef. unfold run_strategy in Hdef. fold v in Hdef.
    apply bind_inv in Hdef as (r & x3 & Hr & Hdef).
    destruct (Hu x1) as [x' E]. rewrite E in Hr. injection Hr as <- _.
    injection Hdef as <- _.
    assert (T : truthy (Some (Rdf.URIRef u)) = true)
      by (simpl; now destruct u).
    rewrite T in H3. now injection H3 as <- _.
  - intros E. destruct (Hu w) as [x' Hx]. rewrite E in Hx.
    unfold _URI in Hx. simpl in Hx. now injection Hx as <- _.
Qed.

(** *** A node that declares nothing *)

Lemma xmlns_loop_skips state dict (l : list Dom.Attr) (x : World) :
  Forall (fun a => PyStr.startswith "xmlns:" (Dom.name a) = false) l ->
  forM_ (xmlns_step state dict) l x = (Return tt, x).
Proof.
  induction 1 as [|a l Ha _ IH]; [reflexivity|].
  simpl. unfold bind. unfold xmlns_step at 1. rewrite Ha. exact IH.
Qed.

Lemma size_empty_eqb : Nat.eqb (size (∅ : dict)) 0 = true.
Proof. now apply size_0_empty. Qed.

(** X23. A node that declares nothing inherits everything. Under a version
    of at least "1.1", for a node without [profile], [vocab], [prefix] and
    [xmlns:] attributes, the [TermOrCurie] of the new context is the one of
    the parent: the same default URIs and the very same two dictionary
    objects; the construction always returns and changes no dictionary that
    existed before. *)
Theorem node_without_declarations_inherits_everything
  (state i : ExecutionContext) (ci : TermOrCurie) (w : World) :
  curie i = Some ci ->
  PyStr.ge (rdfa_version state) "1.1" = true ->
  Dom.hasAttribute (node state) "profile" = false ->
  Dom.hasAttribute (node state) "vocab" = false ->
  Dom.hasAttribute (node state) "prefix" = false ->
  Forall (fun a => PyStr.startswith "xmlns:" (Dom.name a) = false)
         (Dom.attributes_of (node state)) ->
  exists w',
    TermOrCurie_init state (Some i) w = (Return ci, w')
    /\ forall r, r < next_ref w -> heap w' !! r = heap w !! r.
Proof.
  intros Hci Hv Hprofile Hvocab Hprefix Hxmlns.
  unfold TermOrCurie_init, get_term_or_curie. rewrite Hci.
  unfold bind at 1 2. unfold ret at 1 2. cbn beta iota.
  rewrite bind_ret.
  rewrite (bind_Return _ _ _ _ _
             (ProfileRead_init_reads_nothing state w (or_intror Hprofile))).
  set (rv := {| pr_terms := next_ref w; pr_ns := S (next_ref w);
                vocabulary := None |}).
  set (w2 := allocated (allocated w)).
  assert (D : settle_default_term_uri state (Some ci) rv w2
              = (Return (default_term_uri ci), w2)).
  { unfold settle_default_term_uri, getURI. rewrite Hv, Hvocab. reflexivity. }
  rewrite (bind_Return _ _ _ _ _ D).
  assert (T : settle_terms (Some ci) rv w2 = (Return (terms ci), w2)).
  { unfold settle_terms, bind, Store.read_dict.
    assert (E : Store.content w2 (pr_terms rv) = ∅).
    { unfold Store.content, w2, allocated. simpl.
      rewrite lookup_insert_ne by lia. now rewrite lookup_insert_eq. }
    rewrite E, size_empty_eqb. reflexivity. }
  rewrite (bind_Return _ _ _ _ _ T).
  set (d := next_ref w2).
  set (w5 := snd (Store.update_from d ∅ (allocated w2))).
  assert (L : local_namespaces state rv (default_curie_uri ci) w2
              = (Return (d, default_curie_uri ci), w5)).
  { unfold local_namespaces.
    unfold bind at 1. unfold Store.new_dict. fold (allocated w2). fold d.
    unfold bind at 1. unfold Store.read_dict.
    assert (E : Store.content (allocated w2) (pr_ns rv) = ∅).
    { unfold Store.content, w2, allocated. simpl.
      rewrite lookup_insert_ne by lia. now rewrite lookup_insert_eq. }
    rewrite E.
    unfold bind at 1. unfold Store.update_from at 1. unfold modify.
    fold (Store.update_from d ∅).
    change (Store.set_heap
              (<[d:=∅ ∪ Store.content (allocated w2) d]> (heap (allocated w2)))
              (next_ref (allocated w2)) (allocated w2)) with w5.
    rewrite (bind_Return _ _ _ _ _ (xmlns_loop_skips state d _ w5 Hxmlns)).
    rewrite Hprefix, andb_false_r. reflexivity. }
  rewrite (bind_Return _ _ _ _ _ L).
  assert (E5 : Store.content (allocated w5) d = ∅).
  { unfold Store.content, w5, allocated, Store.update_from, modify. simpl.
    rewrite lookup_insert_ne by (unfold d, w2, allocated; simpl; lia).
    rewrite lookup_insert_eq. simpl.
    unfold Store.content. simpl. rewrite lookup_insert_eq. simpl.
    apply (left_id_L ∅ (∪)). }
  assert (N : settle_ns (Some ci) d w5 = (Return (ns ci), allocated w5)).
  { unfold settle_ns, bind, Store.new_dict, Store.read_dict.
    fold (allocated w5). rewrite E5, size_empty_eqb. reflexivity. }
  rewrite (bind_Return _ _ _ _ _ N).
  exists (allocated w5). split.
  - unfold ret. now destruct ci.
  - intros r Hr. unfold w5, d, w2, allocated, Store.update_from, modify.
    simpl. now rewrite !lookup_insert_ne by lia.
Qed.

End ContextProperties.

(* ===================================================================== *)
(** ** The further properties at work *)
(* ===================================================================== *)

Module Demo2.

Definition options_of (h : HostLanguage) : Options :=
  {| host_language := h; warnings := [] |}.

(** The root context of a generic XML document, and the world after it. *)
Definition root : ExecutionContext :=
  Demo.value_of Demo.no_context (Demo.root_run rdfa_core).
Definition root_world : World := snd (Demo.root_run rdfa_core).

(** A child whose profile document cannot be retrieved. *)
Definition gone_run : Outcome ExecutionContext * World :=
  Demo.child root [Demo.attr "profile" Demo.profile_gone] root_world.

(** A document element that announces RDFa 1.0. *)
Definition html_1_0 : Dom.Node :=
  Dom.Element "html" [Demo.attr "version" "XHTML+RDFa 1.0"] [].

Definition versioned_run : Outcome ExecutionContext * World :=
  ExecutionContext_init (Ext := Demo.externals) html_1_0 html_1_0 None
    "http://example.org/doc" (Some (options_of xhtml_rdfa))
    (Demo.world0 xhtml_rdfa).

(** A child with [xml:base]. *)
Definition based : list Dom.Attr :=
  [Demo.attr "xml:base" "http://b.example/"].

Definition based_run : Outcome ExecutionContext * World :=
  Demo.child root based root_world.

(** A document with two [base] elements. *)
Definition base_a : Dom.Node :=
  Dom.Element "base" [Demo.attr "href" "http://a.example/"] [].
Definition base_b : Dom.Node :=
  Dom.Element "base" [Demo.attr "href" "http://b.example/"] [].
Definition two_bases : Dom.Node :=
  Dom.Element "html" [] [Dom.Element "head" [] [base_a; base_b]].

Definition two_bases_run : Outcome ExecutionContext * World :=
  ExecutionContext_init (Ext := Demo.externals) two_bases two_bases None
    "http://example.org/doc" (Some (options_of html_rdfa))
    (Demo.world0 html_rdfa).

(** A node with an empty [vocab]. *)
Definition empty_vocab : ExecutionContext :=
  Demo.partial_state [Demo.attr "vocab" ""].

Definition empty_vocab_run : Outcome TermOrCurie * World :=
  TermOrCurie_init (Ext := Demo.externals) empty_vocab None
    (Demo.world0 rdfa_core).

(** A node of a document read as RDFa 1.0, with a profile that cannot be
    retrieved. *)
Definition state_1_0 : ExecutionContext :=
  {| node := Demo.element [Demo.attr "profile" Demo.profile_gone;
                           Demo.attr "vocab" "http://example.org/v#";
                           Demo.attr "prefix" ": http://example.org/d#"];
     rdfa_version := "1.0"; base := "http://example.org/doc";
     curie := None; lang := None; defaultNS := None |}.

Definition reader : ProfileRead :=
  {| pr_terms := 0; pr_ns := 1; vocabulary := None |}.

Definition profiled_child_run : Outcome TermOrCurie * World :=
  TermOrCurie_init (Ext := Demo.externals)
    (Demo.partial_state [Demo.attr "profile" Demo.profile_B])
    (Some Demo.profiled) Demo.profiled_world.

End Demo2.




Lemma distinct_names_give_distinct_blank_nodes_witness :
  exists bx by' w1 w2,
    CURIE_to_URI Demo.english (Demo.curie_of Demo.english) ("_:" +:+ "a")
      (Demo.world0 rdfa_core)
    = (Return (Some (Rdf.BNode bx)), w1)
    /\ CURIE_to_URI Demo.english_1_0 (Demo.curie_of Demo.english)
         ("_:" +:+ "b") w1
       = (Return (Some (Rdf.BNode by')), w2)
    /\ bx <> by'
    /\ bnodes_wf w2 /\ bnodes_inj w2.
Proof.
  apply distinct_names_give_distinct_blank_nodes.
  - apply initial_World_bnodes_wf.
  - apply initial_World_bnodes_inj.
  - discriminate.
  - discriminate.
  - discriminate.
  - discriminate.
  - discriminate.
Defined.

Lemma CURIE_prefix_is_case_insensitive_in_1_1_witness :
  CURIE_to_URI Demo.english (Demo.curie_of Demo.english)
    ("EX" +:+ ":" +:+ "x") Demo.english_world
  = CURIE_to_URI Demo.english (Demo.curie_of Demo.english)
      (PyStr.lower "EX" +:+ ":" +:+ "x") Demo.english_world.
Proof.
  apply CURIE_prefix_is_case_insensitive_in_1_1.
  - vm_compute. reflexivity.
  - reflexivity.
Defined.

Lemma value_without_colon_is_a_plain_URI_witness :
  _CURIEorURI (Ext := Demo.externals) Demo.english "me.html"
    Demo.english_world
  = _URI (Ext := Demo.externals) Demo.english "me.html" Demo.english_world.
Proof.
  apply (value_without_colon_is_a_plain_URI (Ext := Demo.externals)
           Demo.english (Demo.curie_of Demo.english)).
  - vm_compute. reflexivity.
  - reflexivity.
  - discriminate.
Defined.

Lemma safe_CURIE_never_falls_back_to_a_URI_witness :
  _CURIEorURI (Ext := Demo.externals) Demo.english "[nope:x]"
    Demo.english_world
  = (Return None,
     if PyStr.ge (rdfa_version Demo.english) "1.1"
     then snd (Store.add_warning
                 ("Safe CURIE was used but value does not correspond to a defined CURIE: ["
                  +:+ PyStr.strip_brackets "[nope:x]" +:+ "]")
                 (Some UnresolvablePrefix) None Demo.english_world)
     else Demo.english_world).
Proof.
  apply (proj2 (safe_CURIE_never_falls_back_to_a_URI (Ext := Demo.externals)
                  Demo.english (Demo.curie_of Demo.english) "[nope:x]"
                  Demo.english_world
                  ltac:(vm_compute; reflexivity) eq_refl)).
  - reflexivity.
  - vm_compute. reflexivity.
Defined.

Lemma _URI_keeps_the_last_character_witness :
  exists u w',
    _URI (Ext := Demo.externals) (Demo.partial_state []) "terms#"
      (Demo.world0 rdfa_core)
    = (Return (Some (Rdf.URIRef u)), w')
    /\ PyStr.last_char u = Some "#"%char.
Proof.
  apply (_URI_keeps_the_last_character (Ext := Demo.externals)).
  - reflexivity.
  - reflexivity.
  - intros _. vm_compute. discriminate.
Defined.

Lemma list_attribute_without_tokens_gives_the_empty_list_witness :
  getURI (Ext := Demo.externals) (Demo.partial_state [Demo.attr "rel" "  "])
    "rel" (Demo.world0 rdfa_core)
  = (Return (Many []), Demo.world0 rdfa_core).
Proof.
  apply (list_attribute_without_tokens_gives_the_empty_list
           (Ext := Demo.externals)).
  - reflexivity.
  - reflexivity.
Defined.

Lemma term_outside_the_table_witness :
  _TERMorCURIEorAbsURI (Ext := Demo.externals) Demo.english "next"
    Demo.english_world
  = (Return None,
     snd (Store.add_warning ("Unresolvable term: " +:+ "next")
            (Some UnresolvableTerm) None Demo.english_world)).
Proof.
  apply (proj2 (term_outside_the_table (Ext := Demo.externals)
                  Demo.english (Demo.curie_of Demo.english) "next"
                  Demo.english_world
                  ltac:(vm_compute; reflexivity) eq_refl
                  ltac:(vm_compute; reflexivity))).
  vm_compute. reflexivity.
Defined.


Lemma failed_profile_stays_on_the_stack_witness :
  (exists msg code,
     ProfileRead_step (Ext := Demo.externals) Demo2.reader
       (Rdf.URIRef Demo.profile_gone) (Demo.world0 rdfa_core)
     = (Raise (FailedProfile msg Demo.profile_gone code),
        pushed Demo.profile_gone (Demo.world0 rdfa_core)))
  /\ ProfileRead_step (Ext := Demo.externals) Demo2.reader
       (Rdf.URIRef Demo.profile_gone)
       (pushed Demo.profile_gone (Demo.world0 rdfa_core))
     = (Return Demo2.reader, pushed Demo.profile_gone (Demo.world0 rdfa_core)).
Proof.
  apply (failed_profile_stays_on_the_stack (Ext := Demo.externals)
           Demo2.reader Demo2.reader (Rdf.URIRef Demo.profile_gone)
           (Demo.world0 rdfa_core)).
  - reflexivity.
  - reflexivity.
  - reflexivity.
  - vm_compute. reflexivity.
Defined.

Lemma profile_is_fetched_once_witness :
  exists self' w',
    ProfileRead_step (Ext := Demo.externals) Demo2.reader
      (Rdf.URIRef Demo.profile_A) (Demo.world0 rdfa_core)
    = (Return self', w')
    /\ pr_terms self' = 0 /\ pr_ns self' = 1
    /\ profile_cache w' = <[Demo.profile_A := (0, 1)]> ∅
    /\ profile_stack w' = []
    /\ ProfileRead_step (Ext := Demo.externals)
         {| pr_terms := 7; pr_ns := 8; vocabulary := None |}
         (Rdf.URIRef Demo.profile_A) w'
       = (Return {| pr_terms := 0; pr_ns := 1; vocabulary := None |}, w').
Proof.
  apply (profile_is_fetched_once (Ext := Demo.externals) Demo2.reader
           {| pr_terms := 7; pr_ns := 8; vocabulary := None |}
           (Rdf.URIRef Demo.profile_A) Demo.graph_A (Demo.world0 rdfa_core)).
  - reflexivity.
  - reflexivity.
  - reflexivity.
  - vm_compute. reflexivity.
Defined.

Lemma RDFa_1_0_ignores_profile_vocab_and_prefix_witness :
  exists c w',
    TermOrCurie_init (Ext := Demo.externals) Demo2.state_1_0 None
      (Demo.world0 rdfa_core) = (Return c, w')
    /\ default_term_uri c = None
    /\ default_curie_uri c = XHTML_URI
    /\ profile_cache w' = profile_cache (Demo.world0 rdfa_core)
    /\ profile_stack w' = profile_stack (Demo.world0 rdfa_core).
Proof.
  apply (RDFa_1_0_ignores_profile_vocab_and_prefix (Ext := Demo.externals)
           Demo2.state_1_0 None (Demo.world0 rdfa_core)).
  - reflexivity.
  - discriminate.
Defined.

Lemma rdfa_version_is_fixed_for_the_tree_witness :
  rdfa_version (Demo.value_of Demo.no_context Demo2.versioned_run)
  = rdfa_current_version (Externals := Demo.externals).
Proof.
  apply (rdfa_version_is_fixed_for_the_tree (Ext := Demo.externals)
           Demo2.html_1_0 Demo2.html_1_0 None "http://example.org/doc"
           (Some (Demo2.options_of xhtml_rdfa)) (Demo.world0 xhtml_rdfa)
           (snd Demo2.versioned_run)).
  vm_compute. reflexivity.
Defined.

Lemma base_of_a_child_witness :
  base (Demo.value_of Demo.no_context Demo2.based_run)
  = if is_rdfa_core (host_language (options Demo2.root_world))
       && Dom.hasAttribute (Demo.element Demo2.based) "xml:base"
    then Dom.getAttribute (Demo.element Demo2.based) "xml:base"
    else base Demo2.root.
Proof.
  apply (base_of_a_child (Ext := Demo.externals)
           (Demo.element Demo2.based) (Demo.element []) Demo2.root "" None
           Demo2.root_world (snd Demo2.based_run)).
  vm_compute. reflexivity.
Defined.

Lemma last_base_element_wins_witness :
  base (Demo.value_of Demo.no_context Demo2.two_bases_run)
  = if String.eqb (Dom.getAttribute Demo2.base_b "href") ""
    then "http://example.org/doc"
    else Dom.getAttribute Demo2.base_b "href".
Proof.
  apply (last_base_element_wins (Ext := Demo.externals)
           Demo2.two_bases Demo2.two_bases "http://example.org/doc"
           (Some (Demo2.options_of html_rdfa)) (Demo.world0 html_rdfa)
           (snd Demo2.two_bases_run)
           (Demo.value_of Demo.no_context Demo2.two_bases_run)
           [Demo2.base_a] [] Demo2.base_b).
  - vm_compute. reflexivity.
  - reflexivity.
  - reflexivity.
  - reflexivity.
  - constructor.
Defined.

Lemma local_vocab_sets_the_default_term_URI_witness :
  exists u,
    (forall x,
       fst (_URI (Ext := Demo.externals) Demo2.empty_vocab
              (PyStr.strip (Dom.getAttribute (node Demo2.empty_vocab) "vocab"))
              x)
       = Return (Some (Rdf.URIRef u)))
    /\ (u <> "" ->
        default_term_uri
          (Demo.value_of Demo.no_TermOrCurie Demo2.empty_vocab_run)
        = Some (Rdf.URIRef u))
    /\ (PyStr.strip (Dom.getAttribute (node Demo2.empty_vocab) "vocab") = "" ->
        u = base Demo2.empty_vocab).
Proof.
  apply (local_vocab_sets_the_default_term_URI (Ext := Demo.externals)
           Demo2.empty_vocab None (Demo.world0 rdfa_core)
           (snd Demo2.empty_vocab_run)
           (Demo.value_of Demo.no_TermOrCurie Demo2.empty_vocab_run)).
  - reflexivity.
  - reflexivity.
  - vm_compute. reflexivity.
Defined.

Lemma node_without_declarations_inherits_everything_witness :
  exists w',
    TermOrCurie_init (Ext := Demo.externals)
      (Demo.partial_state [Demo.attr "about" "#me"]) (Some Demo.english)
      Demo.english_world
    = (Return (Demo.curie_of Demo.english), w')
    /\ forall r, r < next_ref Demo.english_world ->
                 heap w' !! r = heap Demo.english_world !! r.
Proof.
  apply (node_without_declarations_inherits_everything
           (Ext := Demo.externals)).
  - vm_compute. reflexivity.
  - reflexivity.
  - reflexivity.
  - reflexivity.
  - reflexivity.
  - repeat constructor.
Defined.

Lemma TermOrCurie_init_keeps_tables_private_witness :
  cache_allocated (snd Demo2.profiled_child_run)
  /\ private (snd Demo2.profiled_child_run)
       (terms (Demo.value_of Demo.no_TermOrCurie Demo2.profiled_child_run))
  /\ private (snd Demo2.profiled_child_run)
       (ns (Demo.value_of Demo.no_TermOrCurie Demo2.profiled_child_run)).
Proof.
  apply (TermOrCurie_init_keeps_tables_private (Ext := Demo.externals)
           demo_nested_parse_allocates
           (Demo.partial_state [Demo.attr "profile" Demo.profile_B])
           (Some Demo.profiled) Demo.profiled_world
           (snd Demo2.profiled_child_run)
           (Demo.value_of Demo.no_TermOrCurie Demo2.profiled_child_run)
           demo_nested_parse_frame).
  - intros p t n. rewrite demo_profiled_cache.
    intros [_ [= <- <-]]%lookup_singleton_Some. vm_compute. lia.
  - intros inh i Hinh Hi.
    assert (inh = Demo.profiled) as -> by congruence.
    assert (i = Demo.curie_of Demo.profiled) as ->
      by (vm_compute in Hi |- *; congruence).
    exact demo_tables_private.
  - vm_compute. reflexivity.
Defined.

Section PrefixProperties.

Context `{Ext : Externals}.

#[local] Hint Resolve read_dict_ro new_dict_ro setitem_ro update_from_ro
  add_warning_ro graph_bind_ro print_ro quote_URI_M_ro warn_prefix_ro : ro.

(** *** Prefixes at work *)

(** X25. A prefix declared with [xmlns:] resolves. When the node has an
    [xmlns:] attribute [a] declaring the key [k] (the last such attribute
    for [k]) and [k] is of NCNAME shape, then, in the world the constructor
    leaves, the CURIE [k:reference] (reference not empty, not starting with
    a colon) resolves to the quoted value of [a] followed by the reference,
    and the world stays as it is. *)
Theorem declared_prefix_resolves
  (state user : ExecutionContext) (inh : option ExecutionContext)
  (w w' : World) (c : TermOrCurie)
  (l1 l2 : list Dom.Attr) (a : Dom.Attr) (k reference : string) :
  Dom.attributes_of (node state) = l1 ++ a :: l2 ->
  xmlns_key state a = Some k ->
  Forall (fun a' => xmlns_key state a' <> Some k) l2 ->
  TermOrCurie_init state inh w = (Return c, w') ->
  PyStr.ncname_match k = true ->
  rdfa_version user = rdfa_version state ->
  reference <> "" -> PyStr.first_char reference <> Some ":"%char ->
  exists o,
    CURIE_to_URI user c (k +:+ ":" +:+ reference) w'
    = (Return (Some (Rdf.URIRef (fst (quote_URI (Dom.value a) o)
                                 +:+ reference))), w').
Proof.
  intros Hattrs Hk Hl2 H Hn Hv Hr Hrc.
  assert (Hbound : exists o,
            Store.content w' (ns c) !! k
            = Some (fst (quote_URI (Dom.value a) o))).
  { unfold TermOrCurie_init in H.
    apply bind_inv in H as (inh' & w0 & _ & H).
    apply bind_inv in H as (dc0 & w1 & _ & H).
    apply bind_inv in H as (rv & w2 & _ & H).
    apply bind_inv in H as (dt & w3 & _ & H).
    apply bind_inv in H as (t & w4 & _ & H).
    apply bind_inv in H as ([dict dc] & w5 & Hloc & H).
    apply bind_inv in H as (n & w6 & Hns & H).
    injection H as <- <-. simpl.
    destruct (local_namespaces_xmlns _ _ _ _ _ _ _ _ _ _ _ Hattrs Hk Hl2 Hloc)
      as (o & K).
    exists o. eapply settle_ns_Keeps; eauto. }
  destruct Hbound as (o & Hb). exists o.
  assert (Hlow : (if PyStr.ge (rdfa_version user) "1.1"
                  then PyStr.lower k else k) = k).
  { rewrite Hv. unfold xmlns_key in Hk.
    destruct (_ && _); [|discriminate]. injection Hk as Hk.
    destruct (PyStr.ge (rdfa_version state) "1.1"); [|reflexivity].
    rewrite <- Hk. apply lower_idem. }
  change (":" +:+ reference) with (String ":" reference).
  destruct k as [|c0 k']; [discriminate|].
  assert (Hc0 : Ascii.eqb c0 ":" = false).
  { apply alpha_not_colon. simpl in Hn. now apply andb_prop in Hn as [? _]. }
  assert (Hu : String.eqb (String c0 k') "_" = false).
  { destruct (String.eqb (String c0 k') "_") eqn:E; [|reflexivity].
    apply String.eqb_eq in E. rewrite E in Hn. discriminate. }
  assert (Hspecial :
            String.eqb (String c0 k' +:+ String ":" reference) ""
            || String.eqb (String c0 k' +:+ String ":" reference) ":" = false).
  { rewrite append_cons. simpl. now rewrite Hc0. }
  assert (Hfirst : match PyStr.first_char reference with
                   | Some x => Ascii.eqb x ":"
                   | None => false
                   end = false).
  { destruct (PyStr.first_char reference) as [x|]; [|reflexivity].
    destruct (Ascii.eqb x ":") eqn:E; [|reflexivity].
    apply Ascii.eqb_eq in E. now subst x. }
  assert (Hlen : Nat.eqb (String.length reference) 0 = false)
    by now destruct reference.
  unfold CURIE_to_URI.
  rewrite Hspecial, (split_colon_app _ reference (ncname_match_no_colon _ Hn)),
    Hlow, Hfirst, Hu, Hn.
  simpl (Nat.eqb (String.length (String c0 k')) 0). cbv iota.
  unfold bind, Store.read_dict. rewrite Hb, Hlen. reflexivity.
Qed.

(** One run of the loop over the pairs of [@prefix]: when the pairs end with
    a declaration for the empty prefix, its URI is what the loop answers. *)
Lemma prefix_loop_last_default pr dict v (l : list string) :
  Nat.even (length l) = true ->
  forall dc w, exists o w',
    prefix_loop pr dict dc (l ++ [":"; v]) w
    = (Return (fst (quote_URI v o)), w').
Proof.
  remember (length l) as n eqn:En. revert l En.
  induction n as [n IH] using lt_wf_ind. intros l -> Heven dc w.
  destruct l as [|p [|u rest]]; [| discriminate |].
  - simpl. unfold bind, quote_URI_M.
    exists (options w). destruct (quote_URI v (options w)) as [q o].
    simpl. eauto.
  - assert (Hrest : forall dc' w0, exists o w',
              prefix_loop pr dict dc' (rest ++ [":"; v]) w0
              = (Return (fst (quote_URI v o)), w')).
    { intros dc' w0.
      apply (IH (length rest)); [simpl; lia|reflexivity|exact Heven]. }
    change ((p :: u :: rest) ++ [":"; v]) with (p :: u :: (rest ++ [":"; v])).
    cbn [prefix_loop].
    repeat match goal with
           | |- exists o w', prefix_loop _ _ _ _ _ = _ => apply Hrest
           | |- exists o w', bind ?c _ ?x = _ =>
               let E := fresh "E" in
               destruct (raises_only_returns c x ltac:(ro)) as (? & ? & E);
               rewrite (bind_Return _ _ _ _ _ E); clear E
           | |- exists o w', (if ?b then _ else _) _ = _ => destruct b
           | |- exists o w', (match ?m with _ => _ end) _ = _ => destruct m
           end.
Qed.

(** X26. For the empty prefix the last declaration wins. Under a version of
    at least "1.1", when the tokens of the [prefix] attribute are pairs and
    end with a declaration [": v"] of the empty prefix, the default CURIE URI
    of the new instance is the quoted [v], whatever the earlier pairs
    declare for the empty prefix and whatever is inherited (a named prefix,
    for its part, keeps its first declaration). *)
Theorem last_default_prefix_declaration_wins
  (state : ExecutionContext) (inh : option ExecutionContext)
  (w w' : World) (c : TermOrCurie) (l : list string) (v : string) :
  PyStr.ge (rdfa_version state) "1.1" = true ->
  Dom.hasAttribute (node state) "prefix" = true ->
  PyStr.split (PyStr.strip (Dom.getAttribute (node state) "prefix"))
  = l ++ [":"; v] ->
  Nat.even (length l) = true ->
  TermOrCurie_init state inh w = (Return c, w') ->
  exists o, default_curie_uri c = fst (quote_URI v o).
Proof.
  intros Hv Hp Hl Heven H. unfold TermOrCurie_init in H.
  apply bind_inv in H as (inh' & w0 & _ & H).
  apply bind_inv in H as (dc0 & w1 & _ & H).
  apply bind_inv in H as (rv & w2 & _ & H).
  apply bind_inv in H as (dt & w3 & _ & H).
  apply bind_inv in H as (t & w4 & _ & H).
  apply bind_inv in H as ([dict dc] & w5 & Hloc & H).
  apply bind_inv in H as (n & w6 & _ & H).
  injection H as <- _. simpl.
  unfold local_namespaces in Hloc. rewrite Hv, Hp, Hl in Hloc.
  apply bind_inv in Hloc as (d & x1 & _ & Hloc).
  apply bind_inv in Hloc as (rns & x2 & _ & Hloc).
  apply bind_inv in Hloc as (? & x3 & _ & Hloc).
  apply bind_inv in Hloc as (? & x4 & _ & Hloc).
  simpl andb in Hloc. cbv iota in Hloc.
  apply bind_inv in Hloc as (dc1 & x5 & Hloop & Hloc).
  injection Hloc as _ <- _.
  destruct (prefix_loop_last_default
              (Dom.getAttribute (node state) "prefix") d v l Heven dc0 x4)
    as (o & x' & E).
  rewrite E in Hloop. injection Hloop as <- _. eauto.
Qed.

End PrefixProperties.

Module Demo3.

(** A node that declares the empty prefix twice. *)
Definition two_defaults : ExecutionContext :=
  Demo.partial_state
    [Demo.attr "prefix"
       ": http://a.example/ ex: http://x.example/ : http://b.example/"].

Definition two_defaults_run : Outcome TermOrCurie * World :=
  TermOrCurie_init (Ext := Demo.externals) two_defaults None
    (Demo.world0 rdfa_core).

End Demo3.

Lemma declared_prefix_resolves_witness :
  exists o,
    CURIE_to_URI (Demo.partial_state Demo.twice_declared)
      (Demo.value_of Demo.no_TermOrCurie Demo.twice_declared_run)
      ("ex" +:+ ":" +:+ "name") (snd Demo.twice_declared_run)
    = (Return (Some (Rdf.URIRef
                       (fst (quote_URI (Externals := Demo.externals)
                               "http://a.example/" o) +:+ "name"))),
       snd Demo.twice_declared_run).
Proof.
  apply (declared_prefix_resolves (Ext := Demo.externals)
           (Demo.partial_state Demo.twice_declared)
           (Demo.partial_state Demo.twice_declared) None
           (Demo.world0 rdfa_core) (snd Demo.twice_declared_run)
           (Demo.value_of Demo.no_TermOrCurie Demo.twice_declared_run)
           [] (tl Demo.twice_declared)
           (Demo.attr "xmlns:ex" "http://a.example/") "ex" "name").
  - reflexivity.
  - reflexivity.
  - repeat constructor; vm_compute; discriminate.
  - vm_compute. reflexivity.
  - reflexivity.
  - reflexivity.
  - discriminate.
  - discriminate.
Defined.

Lemma last_default_prefix_declaration_wins_witness :
  exists o,
    default_curie_uri
      (Demo.value_of Demo.no_TermOrCurie Demo3.two_defaults_run)
    = fst (quote_URI (Externals := Demo.externals) "http://b.example/" o).
Proof.
  apply (last_default_prefix_declaration_wins (Ext := Demo.externals)
           Demo3.two_defaults None (Demo.world0 rdfa_core)
           (snd Demo3.two_defaults_run)
           (Demo.value_of Demo.no_TermOrCurie Demo3.two_defaults_run)
           [":"; "http://a.example/"; "ex:"; "http://x.example/"]
           "http://b.example/").
  - reflexivity.
  - reflexivity.
  - vm_compute. reflexivity.
  - reflexivity.
  - vm_compute. reflexivity.
Defined.

Section WholeProfile.

Context `{Ext : Externals}.

(** *** A proper definition among faulty ones *)

Lemma frozenset_elem (x : Rdf.node) (l : list Rdf.node) :
  x ∈ Rdf.frozenset l <-> x ∈ l.
Proof.
  induction l as [|a l IH]; [reflexivity|].
  simpl. rewrite !elem_of_cons, list_elem_of_In, filter_In,
    <- list_elem_of_In, IH.
  unfold Rdf.node_eqb. split.
  - intros [->|[H _]]; auto.
  - intros [->|H]; [auto|].
    destruct (decide (x = a)) as [->|Hn]; [auto|].
    right. split; [exact H|]. now rewrite bool_decide_eq_false_2.
Qed.

(** An object of a triple with the predicate is among the objects of the
    predicate. *)
Lemma subject_gives_object (g : Rdf.Graph) (p o s : Rdf.node) :
  s ∈ Rdf.subjects g p o -> o ∈ Rdf.objects g None p.
Proof.
  unfold Rdf.subjects, Rdf.objects. rewrite !list_elem_of_omap.
  intros ([[s' p'] o'] & Hin & H).
  exists (s', p', o'). split; [exact Hin|].
  unfold Rdf.node_eqb in *.
  destruct (bool_decide (p' = p)); [|discriminate]. simpl in *.
  destruct (bool_decide (o' = o)) eqn:E; [|discriminate].
  apply bool_decide_eq_true_1 in E. now subst o'.
Qed.

(** What the loop body does with a proper definition of a term. *)
Lemma find_one_stores self graph prof lex lang datatype subj uri w :
  PyStr.ncname_match lex = true ->
  Rdf.subjects graph (Rdf.URIRef (ns_rdfa +:+ "term"))
    (Rdf.Literal lex lang datatype) = [subj] ->
  length (Rdf.objects graph (Some subj) (Rdf.URIRef (ns_rdfa +:+ "term"))) = 1 ->
  Rdf.objects graph (Some subj) (Rdf.URIRef (ns_rdfa +:+ "prefix")) = [] ->
  Rdf.objects graph (Some subj) (Rdf.URIRef (ns_rdfa +:+ "uri")) = [uri] ->
  find_one self graph prof "term" "prefix" (Rdf.Literal lex lang datatype) w
  = Store.setitem (pr_terms self) (PyStr.lower lex) (str uri) w.
Proof.
  intros Hn Hs Ho Hp Hu. unfold find_one. cbv zeta.
  change (Rdf.isinstance_Literal (Rdf.Literal lex lang datatype)) with true.
  change (str (Rdf.Literal lex lang datatype)) with lex.
  rewrite Hn. change (negb true) with false. cbv iota.
  rewrite Hs, Ho, Hp, Hu. reflexivity.
Qed.

(** X27. A proper definition is stored whatever else the profile says. When
    a profile graph defines the term [lex] properly (a literal of NCNAME
    shape, object of [rdfa:term] for exactly one subject, which has this one
    term, no prefix and exactly one [rdfa:uri]) and no other term of the
    graph has the same lower-cased text, then after [_find_terms] the term
    table binds the lower-cased term to that URI, however many faulty
    definitions the graph holds besides and in whatever order the terms are
    visited. *)
Theorem proper_definition_is_stored_whatever_the_rest
  (self : ProfileRead) (graph : Rdf.Graph) (prof lex : string)
  (lang datatype : option string) (subj uri : Rdf.node) (w : World) :
  let term := Rdf.Literal lex lang datatype in
  let pred := Rdf.URIRef (ns_rdfa +:+ "term") in
  PyStr.ncname_match lex = true ->
  Rdf.subjects graph pred term = [subj] ->
  length (Rdf.objects graph (Some subj) pred) = 1 ->
  Rdf.objects graph (Some subj) (Rdf.URIRef (ns_rdfa +:+ "prefix")) = [] ->
  Rdf.objects graph (Some subj) (Rdf.URIRef (ns_rdfa +:+ "uri")) = [uri] ->
  (forall t', t' ∈ Rdf.objects graph None pred -> t' <> term ->
              PyStr.lower (str t') <> PyStr.lower lex) ->
  exists w',
    _find_terms self graph prof "term" w = (Return tt, w')
    /\ Store.content w' (pr_terms self) !! PyStr.lower lex = Some (str uri).
Proof.
  intros term pred Hn Hs Ho Hp Hu Hothers.
  set (d := pr_terms self). set (key := PyStr.lower lex).
  set (Has := fun x : World => Store.content x d !! key = Some (str uri)).
  set (f := find_one self graph prof "term" "prefix").
  assert (Hterm : forall x, exists x', f term x = (Return tt, x') /\ Has x').
  { intros x. unfold f, term.
    rewrite (find_one_stores _ _ _ _ _ _ _ _ _ Hn Hs Ho Hp Hu).
    eexists. split; [reflexivity|].
    unfold Has, Store.content, d, key. simpl.
    rewrite lookup_insert_eq. simpl. apply lookup_insert_eq. }
  assert (Hother : forall t' x,
            t' ∈ Rdf.objects graph None pred -> t' <> term -> Has x ->
            exists x', f t' x = (Return tt, x') /\ Has x').
  { intros t' x Hin Hne Hx.
    destruct (find_one_effect self graph prof "term" "prefix" t' x)
      as (x' & E & [[txt ->]|(_ & _ & _ & _ & _ & v & Hh)]).
    - eexists. split; [exact E|]. exact Hx.
    - exists x'. split; [exact E|].
      unfold Has, Store.content. rewrite Hh. unfold target. simpl.
      fold d. rewrite lookup_insert_eq. simpl.
      rewrite lookup_insert_ne; [exact Hx|]. now apply Hothers. }
  assert (Hloop : forall l x,
            (forall t', t' ∈ l -> t' ∈ Rdf.objects graph None pred) ->
            term ∈ l \/ Has x ->
            exists x', forM_ f l x = (Return tt, x') /\ Has x').
  { induction l as [|a l IH]; intros x Hl Hx.
    - destruct Hx as [Hx|Hx]; [now apply elem_of_nil in Hx|].
      exists x. split; [reflexivity|exact Hx].
    - assert (Hl' : forall t', t' ∈ l -> t' ∈ Rdf.objects graph None pred).
      { intros t' Ht'. apply Hl. now right. }
      simpl. destruct (decide (a = term)) as [->|Ha].
      + destruct (Hterm x) as (x1 & E1 & H1).
        rewrite (bind_Return _ _ _ _ _ E1). apply IH; auto.
      + destruct Hx as [Hx|Hx].
        * apply elem_of_cons in Hx as [Hx|Hx]; [congruence|].
          destruct (find_one_effect self graph prof "term" "prefix" a x)
            as (x1 & E1 & _).
          fold f in E1. rewrite (bind_Return _ _ _ _ _ E1). apply IH; auto.
        * destruct (Hother a x (Hl a ltac:(left)) Ha Hx) as (x1 & E1 & H1).
          rewrite (bind_Return _ _ _ _ _ E1). apply IH; auto. }
  unfold _find_terms. cbv zeta. simpl (String.eqb "term" "term"). cbv iota.
  apply Hloop.
  - intros t'. apply frozenset_elem.
  - left. apply frozenset_elem.
    apply (subject_gives_object graph pred term subj).
    rewrite Hs. apply list_elem_of_here.
Qed.

End WholeProfile.

Module Demo4.

(** A profile graph with one proper definition and two faulty ones: a term
    without URI and a term that is not a literal. *)
Definition mixed : Rdf.Graph :=
  [(Rdf.BNode 102, Rdf.URIRef (Demo.rdfa +:+ "term"), Demo.plain "b")]
  ++ Demo.term_graph 101 "a" "http://example.org/A#a"
  ++ [(Rdf.BNode 103, Rdf.URIRef (Demo.rdfa +:+ "term"),
       Rdf.URIRef "http://example.org/c")].

End Demo4.

Lemma proper_definition_is_stored_whatever_the_rest_witness :
  exists w',
    _find_terms (Ext := Demo.externals) Demo2.reader Demo4.mixed
      Demo.profile_A "term" (Demo.world0 rdfa_core) = (Return tt, w')
    /\ Store.content w' (pr_terms Demo2.reader) !! PyStr.lower "a"
       = Some (str (Ext := Demo.externals)
                 (Demo.plain "http://example.org/A#a")).
Proof.
  apply (proper_definition_is_stored_whatever_the_rest
           (Ext := Demo.externals) Demo2.reader Demo4.mixed Demo.profile_A
           "a" None None (Rdf.BNode 101)
           (Demo.plain "http://example.org/A#a") (Demo.world0 rdfa_core)).
  - reflexivity.
  - vm_compute. reflexivity.
  - vm_compute. reflexivity.
  - vm_compute. reflexivity.
  - vm_compute. reflexivity.
  - intros t' Hin Hne.
    assert (E : Rdf.objects Demo4.mixed None
                  (Rdf.URIRef (ns_rdfa (Externals := Demo.externals) +:+ "term"))
                = [Demo.plain "b"; Demo.plain "a";
                   Rdf.URIRef "http://example.org/c"])
      by (vm_compute; reflexivity).
    rewrite E in Hin.
    apply elem_of_cons in Hin as [->|Hin]; [vm_compute; discriminate|].
    apply elem_of_cons in Hin as [->|Hin]; [now contradiction Hne|].
    apply elem_of_cons in Hin as [->|Hin]; [vm_compute; discriminate|].
    now apply elem_of_nil in Hin.
Defined.
